(** * BMEventsApp: the Black Rock City geocoder and the event processor

    A shallow embedding of [src/utils/brcGeo.ts], [src/utils/timeUtils.ts]
    and [src/services/EventProcessor.ts], of the favourites service of
    [src/services/FavoritesService.ts] and of the text of the countdown
    timer of [src/components/DesertThemeProvider.tsx]; the properties the
    specification states about them; and further properties of the code.

    Conventions of the embedding.
    - A JavaScript number is a [num]: [NaN] or a finite real.  Doubles are
      idealised as reals: no operation rounds or overflows.  The statements
      on great-circle distances say so: they are exact over the reals,
      which the doubles of the program approximate.  There is one
      exception: where [bearingFromClock] reads a decimal fraction of an
      hour, the rounding of the double decides the minutes, so [parseFloat]
      and the operations up to [Math.round] are kept exactly on doubles.
    - An asynchronous method is run to its end: the calls of the favourites
      service are awaited one after the other and do not interleave.
    - Time values (milliseconds since the epoch) are integers; a [Date] is
      [Some t] or the Invalid Date [None]; [new Date(ms)] clips at 8.64e15
      ms from the epoch, as the language does.
    - Strings are Rocq strings, read as sequences of ASCII code units; white
      space is the ASCII part of ECMAScript's white space.
    - A [throw] is the [Throw] constructor of [result]; [try]/[catch] is
      [try_catch]. *)

From Stdlib Require Import ZArith List String Ascii Bool Lia Reals Lra.
From Stdlib Require Import Permutation Sorted.
From stdpp Require Import gmap strings.
Import ListNotations.

Local Open Scope string_scope.
Local Open Scope Z_scope.

(* ===================================================================== *)
(** * The runtime: exceptions, numbers, dates *)
(* ===================================================================== *)

(** ** Exceptions *)

Inductive result (A : Type) : Type :=
| Ok (a : A)
| Throw (msg : string).
Arguments Ok {A} a.
Arguments Throw {A} msg.

#[global] Instance result_ret : MRet result := fun _ a => Ok a.
#[global] Instance result_bind : MBind result := fun _ _ f m =>
  match m with
  | Ok a => f a
  | Throw msg => Throw msg
  end.

(** [try { body } catch (error) { handler }] *)
Definition try_catch {A : Type} (body : result A) (handler : string -> result A)
  : result A :=
  match body with
  | Ok a => Ok a
  | Throw msg => handler msg
  end.

Definition returns {A : Type} (r : result A) : Prop := exists a, r = Ok a.
Definition throws {A : Type} (r : result A) : Prop := exists msg, r = Throw msg.

(** ** Numbers *)

Inductive num : Type :=
| NaN
| Fin (x : R).

Definition lift1 (f : R -> R) (a : num) : num :=
  match a with
  | Fin x => Fin (f x)
  | NaN => NaN
  end.

Definition lift2 (f : R -> R -> R) (a b : num) : num :=
  match a, b with
  | Fin x, Fin y => Fin (f x y)
  | _, _ => NaN
  end.

Definition nadd : num -> num -> num := lift2 Rplus.
Definition nsub : num -> num -> num := lift2 Rminus.
Definition nmul : num -> num -> num := lift2 Rmult.

(** Every divisor in the embedded code is a non-zero constant; the infinities
    of a division by zero are outside the model and read as [NaN]. *)
Definition ndiv (a b : num) : num :=
  match a, b with
  | Fin x, Fin y => if Req_dec_T y 0 then NaN else Fin (x / y)%R
  | _, _ => NaN
  end.

(** Truncation towards zero, and the remainder [x % y] (sign of the dividend). *)
Definition Rtrunc (x : R) : Z :=
  if Rle_dec 0 x then Int_part x else (- Int_part (- x))%Z.

Definition Rrem (x y : R) : R := (x - y * IZR (Rtrunc (x / y)))%R.

Definition nrem (a b : num) : num :=
  match a, b with
  | Fin x, Fin y => if Req_dec_T y 0 then NaN else Fin (Rrem x y)
  | _, _ => NaN
  end.

Definition num_of_Z (z : Z) : num := Fin (IZR z).

(** Comparisons: false as soon as one side is [NaN]. *)
Definition num_lt (a b : num) : bool :=
  match a, b with
  | Fin x, Fin y => if Rlt_dec x y then true else false
  | _, _ => false
  end.
Definition num_gt (a b : num) : bool := num_lt b a.

(** [ToBoolean] on a number: [NaN] and zero are falsy. *)
Definition num_truthy (a : num) : bool :=
  match a with
  | NaN => false
  | Fin x => if Req_dec_T x 0 then false else true
  end.

(** [Number.isFinite] *)
Definition Number_isFinite (a : num) : bool :=
  match a with
  | NaN => false
  | Fin _ => true
  end.

Declare Scope num_scope.
Delimit Scope num_scope with num.
Bind Scope num_scope with num.
Infix "+" := nadd : num_scope.
Infix "-" := nsub : num_scope.
Infix "*" := nmul : num_scope.
Infix "/" := ndiv : num_scope.
Infix "mod" := nrem : num_scope.

(** ** Dates *)

(** A [tnum] is what [Date.prototype.getTime] returns: an integral number of
    milliseconds, or [NaN] ([None]) for the Invalid Date. *)
Definition tnum : Type := option Z.
Definition Date : Type := option Z.

Definition getTime (d : Date) : tnum := d.

Definition tnum_add (a b : tnum) : tnum :=
  match a, b with
  | Some x, Some y => Some (x + y)
  | _, _ => None
  end.
Definition tnum_sub (a b : tnum) : tnum :=
  match a, b with
  | Some x, Some y => Some (x - y)
  | _, _ => None
  end.
Definition tnum_le (a b : tnum) : bool :=
  match a, b with
  | Some x, Some y => x <=? y
  | _, _ => false
  end.
Definition tnum_lt (a b : tnum) : bool :=
  match a, b with
  | Some x, Some y => x <? y
  | _, _ => false
  end.
Definition tnum_ge (a b : tnum) : bool := tnum_le b a.
Definition tnum_gt (a b : tnum) : bool := tnum_lt b a.
Definition tnum_eqb (a b : tnum) : bool :=
  match a, b with
  | Some x, Some y => x =? y
  | _, _ => false
  end.

(** Relational operators on [Date] objects compare their time values. *)
Definition date_le (a b : Date) : bool := tnum_le (getTime a) (getTime b).
Definition date_lt (a b : Date) : bool := tnum_lt (getTime a) (getTime b).

(** [TimeClip] of the language: a time value further than 8.64e15 ms
    (a hundred million days) from the epoch is no time value. *)
Definition maxTime : Z := 8640000000000000.

Definition TimeClip (t : tnum) : tnum :=
  match t with
  | Some z => if Z.abs z <=? maxTime then Some z else None
  | None => None
  end.

(** [new Date(ms)]: the constructor clips, so a number out of range gives
    an Invalid Date. *)
Definition Date_of_time (t : tnum) : Date := TimeClip t.

Definition num_of_tnum (t : tnum) : num :=
  match t with
  | Some z => num_of_Z z
  | None => NaN
  end.

(* ===================================================================== *)
(** * The runtime: strings *)
(* ===================================================================== *)

Definition code (c : ascii) : N := N_of_ascii c.

(** [\d] *)
Definition isDigit (c : ascii) : bool := ((48 <=? code c) && (code c <=? 57))%N.

(** [\s], and the white space [trim] strips: tab, line feed, vertical tab,
    form feed, carriage return, space. *)
Definition isSpace (c : ascii) : bool :=
  (((9 <=? code c) && (code c <=? 13)) || (code c =? 32))%N.

Definition toUpper (c : ascii) : ascii :=
  if ((97 <=? code c) && (code c <=? 122))%N then ascii_of_N (code c - 32) else c.

Fixpoint all (p : ascii -> bool) (s : string) : bool :=
  match s with
  | EmptyString => true
  | String c s' => p c && all p s'
  end.

Fixpoint toUpperCase (s : string) : string :=
  match s with
  | EmptyString => EmptyString
  | String c s' => String (toUpper c) (toUpperCase s')
  end.

Definition isEmpty (s : string) : bool :=
  match s with
  | EmptyString => true
  | String _ _ => false
  end.

(** [ToBoolean] on a string that may be [undefined]. *)
Definition truthy (s : option string) : bool :=
  match s with
  | Some s => negb (isEmpty s)
  | None => false
  end.

(** [s.startsWith(sub)] *)
Fixpoint startsWith (sub s : string) : bool :=
  match sub with
  | EmptyString => true
  | String a sub' =>
      match s with
      | EmptyString => false
      | String b s' => Ascii.eqb a b && startsWith sub' s'
      end
  end.

(** [s.includes(sub)] *)
Fixpoint includes (sub s : string) : bool :=
  startsWith sub s ||
  match s with
  | EmptyString => false
  | String _ s' => includes sub s'
  end.

(** [s.indexOf(sub)], [None] for -1. *)
Fixpoint indexOf (sub s : string) : option nat :=
  if startsWith sub s then Some 0%nat
  else match s with
       | EmptyString => None
       | String _ s' => option_map S (indexOf sub s')
       end.

(** [s.split(sep)] for a separator of one character. *)
Fixpoint split (sep : ascii) (s : string) : list string :=
  match s with
  | EmptyString => [EmptyString]
  | String c s' =>
      if Ascii.eqb c sep then EmptyString :: split sep s'
      else match split sep s' with
           | cur :: rest => String c cur :: rest
           | [] => [String c EmptyString]
           end
  end.

Fixpoint trimStart (s : string) : string :=
  match s with
  | EmptyString => EmptyString
  | String c s' => if isSpace c then trimStart s' else s
  end.

Fixpoint trimEnd (s : string) : string :=
  match s with
  | EmptyString => EmptyString
  | String c s' =>
      let t := trimEnd s' in
      if isSpace c && isEmpty t then EmptyString else String c t
  end.

Definition trim (s : string) : string := trimEnd (trimStart s).

(** [s.replace(/\s+/g, "")] *)
Fixpoint removeSpaces (s : string) : string :=
  match s with
  | EmptyString => EmptyString
  | String c s' => if isSpace c then removeSpaces s' else String c (removeSpaces s')
  end.

Fixpoint takeDigits (s : string) : string :=
  match s with
  | EmptyString => EmptyString
  | String c s' => if isDigit c then String c (takeDigits s') else EmptyString
  end.

Fixpoint dropDigits (s : string) : string :=
  match s with
  | EmptyString => EmptyString
  | String c s' => if isDigit c then dropDigits s' else s
  end.

Definition digitValue (c : ascii) : Z := Z.of_N (code c - 48).

Fixpoint digitsValueFrom (acc : Z) (s : string) : Z :=
  match s with
  | EmptyString => acc
  | String c s' => digitsValueFrom (10 * acc + digitValue c) s'
  end.

Definition digitsValue (s : string) : Z := digitsValueFrom 0 s.

(** [parseInt(s, 10)]: leading white space, an optional sign, then the
    longest run of digits; [NaN] when there is none. *)
Definition parseInt (s : string) : tnum :=
  let s := trimStart s in
  let '(negative, body) :=
    match s with
    | String "-" r => (true, r)
    | String "+" r => (false, r)
    | _ => (false, s)
    end in
  let ds := takeDigits body in
  if isEmpty ds then None
  else Some (if negative : bool then - digitsValue ds else digitsValue ds).

(** [x || d] on an integral number: [NaN] and zero give [d]. *)
Definition tnum_or (x : tnum) (d : Z) : tnum :=
  match x with
  | None => Some d
  | Some z => if z =? 0 then Some d else Some z
  end.

(** [s.slice(0, -2)] and [s.slice(-2)] *)
Definition slice_to_m2 (s : string) : string :=
  String.substring 0 (String.length s - 2) s.
Definition slice_from_m2 (s : string) : string :=
  String.substring (String.length s - 2) 2 s.

(** ** Doubles

    Numbers are kept as reals in this development; the decimal form of a
    clock is the one place where the rounding of a double decides an
    integer, the minutes, so there the doubles are kept exactly.  A double
    that is not negative is a multiple of 2^-1074, the smallest positive
    one: [dFin k] is k * 2^-1074. *)
Inductive double : Type :=
| dFin (k : Z)
| dInfinity
| dNaN.

Definition ulpsPerUnit : Z := 2 ^ 1074.

(** The integer nearest to n/d, halves to the even one (n >= 0, d > 0). *)
Definition roundHalfEven (n d : Z) : Z :=
  let q := n / d in
  let r := n mod d in
  if 2 * r <? d then q
  else if d <? 2 * r then q + 1
  else if Z.even q then q else q + 1.

(** The exponent of the binade of n/d: the [e] with 2^e <= n/d < 2^(e+1)
    (n, d > 0). *)
Definition binade (n d : Z) : Z :=
  let e := Z.log2 n - Z.log2 d in
  if d * 2 ^ Z.max 0 e <=? n * 2 ^ Z.max 0 (- e) then e else e - 1.

(** The double nearest to the rational n/d, ties to even (n >= 0, d > 0):
    53 significant bits, the last place never below 2^-1074, and Infinity
    from 2^1024 - 2^970 on, halfway past the largest double. *)
Definition toDouble (n d : Z) : double :=
  if n <=? 0 then dFin 0
  else if (2 ^ 1024 - 2 ^ 970) * d <=? n then dInfinity
  else
    let e := Z.max (binade n d - 52) (- 1074) in
    dFin (roundHalfEven (n * 2 ^ Z.max 0 (- e)) (d * 2 ^ Z.max 0 e)
          * 2 ^ (e + 1074)).

(** [Math.floor], as an integer; Infinity and [NaN] have none. *)
Definition double_floor (f : double) : tnum :=
  match f with
  | dFin k => Some (k / ulpsPerUnit)
  | _ => None
  end.

(** [f - Math.floor(f)]: the fraction of a double is a double, so the
    subtraction rounds nothing; Infinity minus itself is [NaN]. *)
Definition double_fraction (f : double) : double :=
  match f with
  | dFin k => dFin (k mod ulpsPerUnit)
  | _ => dNaN
  end.

(** [x * z] for an integer [z > 0], rounded. *)
Definition double_mul_Z (x : double) (z : Z) : double :=
  match x with
  | dFin k => toDouble (k * z) ulpsPerUnit
  | dInfinity => dInfinity
  | dNaN => dNaN
  end.

(** [Math.round]: the integer nearest, halves upwards. *)
Definition double_round (x : double) : tnum :=
  match x with
  | dFin k => Some ((2 * k + ulpsPerUnit) / (2 * ulpsPerUnit))
  | _ => None
  end.

(** [parseFloat] on a string that matches [^\d+(\.\d+)?$]: the double
    nearest to the decimal, as the engines compute it (past twenty
    significant digits the language would also permit a neighbour). *)
Definition parseFloat (s : string) : double :=
  let ip := takeDigits s in
  match dropDigits s with
  | String "." fp =>
      toDouble (digitsValue (ip +:+ fp)) (10 ^ Z.of_nat (String.length fp))
  | _ => toDouble (digitsValue ip) 1
  end.

(** The first [n] characters of [s] and the rest, when [s] has that many. *)
Fixpoint splitAt (n : nat) (s : string) : option (string * string) :=
  match n with
  | O => Some (EmptyString, s)
  | S n' =>
      match s with
      | EmptyString => None
      | String c s' =>
          match splitAt n' s' with
          | Some (a, b) => Some (String c a, b)
          | None => None
          end
      end
  end.

(** Scanning for the leftmost match of a pattern that is tried at every
    position ([String.prototype.match] and [RegExp.prototype.test] without
    the [^] anchor). *)
Fixpoint search {A : Type} (at_ : string -> option A) (s : string) : option A :=
  match at_ s with
  | Some x => Some x
  | None =>
      match s with
      | EmptyString => None
      | String _ s' => search at_ s'
      end
  end.

(** [\s+lit] at the head of [s], for a literal that starts with no white
    space; [ci] compares case-insensitively ([lit] is given in upper case). *)
Definition spacesThen (ci : bool) (lit : string) (s : string) : bool :=
  match s with
  | String c s' =>
      isSpace c &&
      startsWith lit (if ci then toUpperCase (trimStart s') else trimStart s')
  | EmptyString => false
  end.

(* ===================================================================== *)
(** * The runtime: [Math] *)
(* ===================================================================== *)

Coercion num_of_Z : Z >-> num.

Definition Math_PI : num := Fin PI.
Definition Math_sin : num -> num := lift1 sin.
Definition Math_cos : num -> num := lift1 cos.

Definition Math_asin (a : num) : num :=
  match a with
  | Fin x => if Rle_dec (-1) x then if Rle_dec x 1 then Fin (asin x) else NaN else NaN
  | NaN => NaN
  end.

Definition Math_sqrt (a : num) : num :=
  match a with
  | Fin x => if Rle_dec 0 x then Fin (sqrt x) else NaN
  | NaN => NaN
  end.

Definition Ratan2 (y x : R) : R :=
  if Rlt_dec 0 x then atan (y / x)
  else if Rlt_dec x 0 then
         if Rle_dec 0 y then (atan (y / x) + PI)%R else (atan (y / x) - PI)%R
       else if Rlt_dec 0 y then (PI / 2)%R
            else if Rlt_dec y 0 then (- (PI / 2))%R else 0%R.

Definition Math_atan2 : num -> num -> num := lift2 Ratan2.

(** [x ** 2] *)
Definition sqr (a : num) : num := (a * a)%num.

(* ===================================================================== *)
(** * [src/utils/brcGeo.ts] *)
(* ===================================================================== *)

Module BrcGeo.

Record Coordinates : Type := mkCoordinates { lat : num; lon : num }.

(** 2025 Black Rock City configuration *)
Definition MAN : Coordinates :=
  {| lat := Fin 40.786958; lon := Fin (-119.202994) |}.
Definition ESPL_RADIUS_FT : Z := 2500.

Definition WIDTH : list (string * Z) :=
  [("Esplanade", 40);
   ("A", 30); ("B", 30); ("C", 30); ("D", 30); ("E", 40);
   ("F", 30); ("G", 30); ("H", 30); ("I", 30); ("J", 30); ("K", 50)].

Definition BLOCK : list (string * Z) :=
  [("A", 400); ("B", 250); ("C", 250); ("D", 250); ("E", 250);
   ("F", 450); ("G", 250); ("H", 250); ("I", 250); ("J", 150); ("K", 150)].

(** [TABLE[key]] used as a number: a missing key is [undefined], which
    arithmetic turns into [NaN]. *)
Definition prop (table : list (string * Z)) (key : string) : num :=
  match find (fun kv => String.eqb (fst kv) key) table with
  | Some kv => num_of_Z (snd kv)
  | None => NaN
  end.

Definition FT2M : num := Fin 0.3048.
(** The constant [R] of the source, the Earth's radius in metres. *)
Definition R_earth : num := num_of_Z 6371000.

(** [order[i]] as a one-character string ([""] stands for [undefined]). *)
Definition charAt (s : string) (i : nat) : string := String.substring i 1 s.

Definition CITY_ROTATION_DEG : Z := 45.

(** In the decimal form, a literal of more than 308 digits is Infinity as a
    double: [h] is Infinity and [m] is [NaN] in the source, and the bearing
    is [NaN]; here both stand as [None], which gives the same bearing. *)
Definition bearingFromClock (clockStr : string) : result num :=
  let s := removeSpaces (toUpperCase (trim clockStr)) in
  hm ← (if includes ":" s then
           match split ":" s with
           | hh :: rest =>
               let mm := hd "0" rest in
               Ok (parseInt hh, tnum_or (parseInt mm) 0)
           | [] => Ok (None, Some 0)
           end
         else if all isDigit s && (1 <=? String.length s)%nat
                               && (String.length s <=? 4)%nat then
           if (String.length s <=? 2)%nat then Ok (parseInt s, Some 0)
           else Ok (parseInt (slice_to_m2 s), parseInt (slice_from_m2 s))
         else if negb (isEmpty (takeDigits s)) &&
                 match dropDigits s with
                 | EmptyString => true
                 | String "." fp => negb (isEmpty fp) && all isDigit fp
                 | _ => false
                 end then
           let f := parseFloat s in
           let h := double_floor f in
           Ok (h, double_round (double_mul_Z (double_fraction f) 60))
         else Throw ("Unrecognized clock notation: " +:+ clockStr));
  let '(h, m) := hm in
  let h := if tnum_eqb h (Some 12) then Some 0 else h in
  let clockDeg := ((num_of_tnum h + num_of_tnum m / 60) * 30)%num in
  Ok ((clockDeg + CITY_ROTATION_DEG) mod 360)%num.

Definition order : string := "ABCDEFGHIJK".

Definition radiusFeetForRing (name : string) : result num :=
  let n := toUpperCase (trim name) in
  if String.eqb n "ESPLANADE" || String.eqb n "ESPL" then
    Ok (num_of_Z ESPL_RADIUS_FT)
  else
    match indexOf n order with
    | None => Throw ("Unknown ring: " +:+ name)
    | Some idx =>
        let r0 := (ESPL_RADIUS_FT + prop WIDTH "Esplanade" / 2)%num in
        Ok (fold_left
              (fun (r : num) (i : nat) =>
                 let L := charAt order i in
                 let r := (r + prop BLOCK L)%num in
                 (r + (if (i =? idx)%nat then prop WIDTH L / 2 else prop WIDTH L))%num)
              (seq 0 (S idx)) r0)
    end.

Definition destPoint (lat lon distanceM bearingDeg : num) : Coordinates :=
  let br := (bearingDeg * Math_PI / 180)%num in
  let phi1 := (lat * Math_PI / 180)%num in
  let lambda1 := (lon * Math_PI / 180)%num in
  let delta := (distanceM / R_earth)%num in
  let sinphi1 := Math_sin phi1 in
  let cosphi1 := Math_cos phi1 in
  let sindelta := Math_sin delta in
  let cosdelta := Math_cos delta in
  let cosbr := Math_cos br in
  let sinbr := Math_sin br in
  let sinphi2 := (sinphi1 * cosdelta + cosphi1 * sindelta * cosbr)%num in
  let phi2 := Math_asin sinphi2 in
  let lambda2 :=
    (lambda1 + Math_atan2 (sinbr * sindelta * cosphi1)
                          (cosdelta - sinphi1 * sinphi2))%num in
  {| lat := (phi2 * 180 / Math_PI)%num;
     lon := (((lambda2 * 180 / Math_PI + 540) mod 360) - 180)%num |}.

Definition haversineMeters (lat1 lon1 lat2 lon2 : num) : num :=
  let toRad (x : num) := (x * Math_PI / 180)%num in
  let dphi := toRad (lat2 - lat1)%num in
  let dlambda := toRad (lon2 - lon1)%num in
  let phi1 := toRad lat1 in
  let phi2 := toRad lat2 in
  let aa := (sqr (Math_sin (dphi / 2))
             + Math_cos phi1 * Math_cos phi2 * sqr (Math_sin (dlambda / 2)))%num in
  (2 * R_earth * Math_asin (Math_sqrt aa))%num.

(** The three lines that close every branch of [coordOf]:
    [r_m = radiusFeetForRing(ring) * FT2M], [bearing = bearingFromClock(clock)],
    [return destPoint(MAN.lat, MAN.lon, r_m, bearing)]. *)
Definition project (ring clock : string) : result Coordinates :=
  r_ft ← radiusFeetForRing ring;
  let r_m := (r_ft * FT2M)%num in
  bearing ← bearingFromClock clock;
  Ok (destPoint (lat MAN) (lon MAN) r_m bearing).

(** [/([A-K])\s+Plaza/i] tried at the head of [s]; the captured letter. *)
Definition ringMatch_at (s : string) : option string :=
  match s with
  | String c rest =>
      if ((65 <=? code (toUpper c)) && (code (toUpper c) <=? 75))%N
         && spacesThen true "PLAZA" rest
      then Some (String c EmptyString) else None
  | EmptyString => None
  end.

(** [/(\d{1,2}:\d{2}|\d{1,2})\s+Portal/] tried at the head of [s]: the first
    alternative with two digits, then with one, then the second alternative
    likewise; the captured clock.  [minutes_at] is the [:\d{2}\s+Portal] that
    follows the hour in the first alternative. *)
Definition minutes_at (rest : string) : option string :=
  match rest with
  | String c0 (String m1 (String m2 rest')) =>
      if Ascii.eqb c0 ":" && isDigit m1 && isDigit m2
         && spacesThen false "Portal" rest'
      then Some (String ":" (String m1 (String m2 EmptyString)))
      else None
  | _ => None
  end.

Definition clock_at (hourDigits : nat) (minutes : bool) (s : string)
  : option string :=
  match splitAt hourDigits s with
  | Some (hh, rest) =>
      if all isDigit hh then
        if minutes then option_map (String.append hh) (minutes_at rest)
        else if spacesThen false "Portal" rest then Some hh else None
      else None
  | None => None
  end.

Definition portalMatch_at (s : string) : option string :=
  match clock_at 2 true s with
  | Some c => Some c
  | None =>
      match clock_at 1 true s with
      | Some c => Some c
      | None =>
          match clock_at 2 false s with
          | Some c => Some c
          | None => clock_at 1 false s
          end
      end
  end.

(** [/:/.test(s) || /^\d{1,4}(\.\d+)?$/.test(s)] *)
Definition isClockish (s : string) : bool :=
  includes ":" s ||
  (let ip := takeDigits s in
   (1 <=? String.length ip)%nat && (String.length ip <=? 4)%nat &&
   match dropDigits s with
   | EmptyString => true
   | String "." fp => negb (isEmpty fp) && all isDigit fp
   | _ => false
   end).

(** [/^ESPL/i.test(s)] *)
Definition isEspl (s : string) : bool := startsWith "ESPL" (toUpperCase s).

(** The plaza formats; [None] when control falls through to the next block. *)
Definition coordOf_plaza (locationString : string) : option (result Coordinates) :=
  if includes "Plaza" locationString then
    if includes "Center Camp Plaza" locationString then
      Some (project "ESPLANADE" "6:00")
    else
      match map trim (split "@" locationString) with
      | [plazaPart; clockPart] =>
          match search ringMatch_at plazaPart with
          | Some ring => Some (project ring clockPart)
          | None => None
          end
      | _ => None
      end
  else None.

(** The portal formats; [None] when control falls through. *)
Definition coordOf_portal (locationString : string) : option (result Coordinates) :=
  if includes "Portal" locationString && negb (includes "&" locationString) then
    match search portalMatch_at locationString with
    | Some clock => Some (project "ESPLANADE" clock)
    | None => None
    end
  else None.

(** The standard intersection formats with "&". *)
Definition coordOf_intersection (locationString : string) : result Coordinates :=
  let parts := map trim (split "&" locationString) in
  let part1 := nth_error parts 0 in
  let part2 := nth_error parts 1 in
  if negb (truthy part1) || negb (truthy part2) then
    Throw ("Invalid location: " +:+ locationString)
  else
    let part1 := default "" part1 in
    let part2 := default "" part2 in
    if isClockish part1 && negb (isClockish part2) then project part2 part1
    else if isClockish part2 && negb (isClockish part1) then project part1 part2
    else if isEspl part1 && isClockish part2 then project part1 part2
    else if isEspl part2 && isClockish part1 then project part2 part1
    else Throw ("Ambiguous location format: " +:+ locationString).

Definition coordOf (locationString : string) : result Coordinates :=
  match coordOf_plaza locationString with
  | Some r => r
  | None =>
      match coordOf_portal locationString with
      | Some r => r
      | None => coordOf_intersection locationString
      end
  end.

End BrcGeo.

(* ===================================================================== *)
(** * The runtime: arrays *)
(* ===================================================================== *)

(** [String(n)] for an integer; both [formatCountdown]s print through it. *)
Definition digitChar (d : Z) : ascii := ascii_of_N (Z.to_N (48 + d)).

Fixpoint natToStringFrom (fuel : nat) (n : Z) (acc : string) : string :=
  match fuel with
  | O => acc
  | S fuel' =>
      let acc' := String (digitChar (n mod 10)) acc in
      if n <? 10 then acc' else natToStringFrom fuel' (n / 10) acc'
  end.

Definition Number_toString (z : Z) : string :=
  let body := natToStringFrom (S (Z.to_nat (Z.log2 (Z.abs z)))) (Z.abs z) "" in
  if z <? 0 then String "-" body else body.

(** [Array.prototype.sort(compare)].  The language asks for a stable sort;
    for a consistent comparator (one that orders the elements as a total
    preorder) that fixes the result, and it is the one this insertion gives:
    a result that is not greater than zero leaves the pair in place.  For a
    comparator that is not consistent, as one that returns [NaN] for some
    pairs only, the language leaves the order to the implementation; the
    insertion is then one of the orders it permits. *)
Fixpoint sort_insert {A : Type} (compare : A -> A -> num) (x : A) (l : list A)
  : list A :=
  match l with
  | [] => [x]
  | y :: l' =>
      if num_gt (compare x y) 0 then y :: sort_insert compare x l' else x :: l
  end.

Definition Array_sort {A : Type} (compare : A -> A -> num) (l : list A) : list A :=
  fold_right (sort_insert compare) [] l.

(** [arr.indexOf(x)] on an array of strings, -1 when absent. *)
Fixpoint Array_indexOf (x : string) (l : list string) : Z :=
  match l with
  | [] => -1
  | y :: l' =>
      if String.eqb y x then 0
      else let i := Array_indexOf x l' in if i <? 0 then -1 else i + 1
  end.

(** [arr.filter((x, index, arr) => arr.indexOf(x) === index)] *)
Fixpoint firstOccurrences (seen : list string) (l : list string) : list string :=
  match l with
  | [] => []
  | x :: l' =>
      if existsb (String.eqb x) seen then firstOccurrences seen l'
      else x :: firstOccurrences (x :: seen) l'
  end.

(** [arr.join(sep)] *)
Fixpoint Array_join (sep : string) (l : list string) : string :=
  match l with
  | [] => ""
  | [x] => x
  | x :: l' => x +:+ sep +:+ Array_join sep l'
  end.

(** A [for ... of] loop whose body pushes onto one output array, or throws. *)
Fixpoint for_of {A B : Type} (body : A -> result (list B)) (l : list A)
  : result (list B) :=
  match l with
  | [] => Ok []
  | x :: l' =>
      out ← body x;
      rest ← for_of body l';
      Ok (out ++ rest)%list
  end.

(* ===================================================================== *)
(** * [src/utils/timeUtils.ts] *)
(* ===================================================================== *)

Module TimeUtils.

Definition formatCountdown (minutes : Z) : string :=
  let absMinutes := Z.abs minutes in
  if absMinutes <? 60 then Number_toString absMinutes +:+ "m"
  else
    let hours := absMinutes / 60 in
    let remainingMinutes := Z.rem absMinutes 60 in
    if remainingMinutes =? 0 then Number_toString hours +:+ "h"
    else Number_toString hours +:+ "h " +:+ Number_toString remainingMinutes +:+ "m".

End TimeUtils.

(* ===================================================================== *)
(** * [src/constants/Theme.ts] and [src/types/events.ts] *)
(* ===================================================================== *)

Module AppConfig.
Definition defaultRadius : Z := 1000.
Definition defaultTimeWindow : Z := 90.
Definition defaultYear : Z := 2025.
End AppConfig.

Inductive EventStatus : Type := NOW | SOON | UPCOMING | ENDED.

#[global] Instance EventStatus_eq_dec : EqDecision EventStatus.
Proof. solve_decision. Defined.

Inductive SortType : Type :=
| by_default | by_distance | by_time | by_ending | by_type | by_title.

Inductive LocationSource : Type := art | camp | other | unknown.

Record EventType : Type := { label : string; abbr : string }.

Record EventOccurrence : Type :=
  { start_time : option string; end_time : option string }.

(** An absent [occurrence_set] behaves as the empty list ([|| []]). *)
Record RawEvent : Type :=
  { uid : string;
    title : string;
    description : option string;
    year : Z;
    event_type : option EventType;
    occurrence_set : list EventOccurrence;
    located_at_art : option string;
    hosted_by_camp : option string;
    other_location : option string;
    url : option string;
    contact_email : option string;
    all_day : option bool }.

Record ArtLocation : Type :=
  { gps_latitude : option num; gps_longitude : option num }.

Record ArtInstallation : Type :=
  { art_uid : string; art_name : option string; art_location : option ArtLocation }.

Record Camp : Type :=
  { camp_uid : string; camp_name : string; location_string : option string }.

Record LocationInfo : Type :=
  { li_lat : option num; li_lon : option num; li_label : string;
    li_source : LocationSource }.

Record ProcessedEvent : Type :=
  { pe_id : string;
    pe_eventUid : string;
    pe_title : string;
    pe_description : string;
    pe_type : string;
    pe_typeAbbr : string;
    pe_start : Date;
    pe_end : Date;
    pe_status : EventStatus;
    pe_distance : option num;
    pe_lat : option num;
    pe_lon : option num;
    pe_locLabel : string;
    pe_isRecurring : bool;
    pe_futureOccurrences : string;
    pe_url : option string;
    pe_contactEmail : option string;
    pe_allDay : option bool }.

(** Every field is optional; [processEvents] supplies the defaults. *)
Record SearchParams : Type :=
  { sp_lat : option num;
    sp_lon : option num;
    sp_radius : option num;
    sp_window : option Z;
    sp_year : option Z;
    sp_now : option Date;
    sp_eventTypes : option (list string);
    sp_showOnlyActive : option bool;
    sp_showOnlyUpcoming : option bool;
    sp_showOnlyFavorites : option bool }.

(** What a processing pass reads from outside: the data and favourites
    collaborators (each call may throw), and the platform: the [Date]
    constructor on a string, the wall clock behind [new Date()], the local
    time zone behind [getDay] (minutes to add to local time to reach UTC,
    as [getTimezoneOffset]), and the collation behind [localeCompare]. *)
Record Env : Type :=
  { loadEvents : Z -> result (list RawEvent);
    getArtMap : result (gmap string ArtInstallation);
    getCampMap : result (gmap string Camp);
    getFavoriteIds : result (gset string);
    Date_parse : string -> Date;
    Date_now : Z;
    getTimezoneOffset : Z -> Z;
    localeCompare : string -> string -> num }.

(* ===================================================================== *)
(** * [src/services/EventProcessor.ts] *)
(* ===================================================================== *)

Module EventProcessor.
Import BrcGeo.

(** The fields of the singleton; [processEvents] assigns all three before
    any helper reads them. *)
Record EventProcessor : Type :=
  { artMapCache : option (gmap string ArtInstallation);
    campMapCache : option (gmap string Camp);
    originalEvents : list RawEvent }.

(** 15 minutes in milliseconds *)
Definition buffer : Z := 15 * 60 * 1000.

Definition determineEventStatus (start end_ now : Date) : EventStatus :=
  if date_le start now && date_le now end_
     && tnum_ge (tnum_sub (getTime end_) (getTime now)) (Some buffer)
  then NOW
  else if date_lt now start then
    let timeUntilStart := tnum_sub (getTime start) (getTime now) in
    if tnum_le timeUntilStart (Some buffer) then SOON else UPCOMING
  else ENDED.

Definition passesTimeFilter (start end_ now upcomingCutoff : Date)
    (status : EventStatus) : bool :=
  let isActive :=
    date_le start now && date_le now end_
    && tnum_ge (tnum_sub (getTime end_) (getTime now)) (Some buffer) in
  let isUpcoming := date_lt now start && date_le start upcomingCutoff in
  isActive || isUpcoming.

Definition resolveEventLocation (self : EventProcessor) (event : RawEvent)
  : result LocationInfo :=
  let fromArt : option LocationInfo :=
    match located_at_art event, artMapCache self with
    | Some artUid, Some artMap =>
        if isEmpty artUid then None
        else
          match artMap !! artUid with
          | Some a =>
              let lat := art_location a ≫= gps_latitude in
              let lon := art_location a ≫= gps_longitude in
              let label :=
                if truthy (art_name a) then "@ " +:+ default "" (art_name a)
                else "Art Location" in
              Some {| li_lat := if from_option Number_isFinite false lat then lat else None;
                      li_lon := if from_option Number_isFinite false lon then lon else None;
                      li_label := label;
                      li_source := art |}
          | None => None
          end
    | _, _ => None
    end in
  match fromArt with
  | Some info => Ok info
  | None =>
      let fromCamp : option (result LocationInfo) :=
        match hosted_by_camp event, campMapCache self with
        | Some campUid, Some campMap =>
            if isEmpty campUid then None
            else
              match campMap !! campUid with
              | Some c =>
                  if truthy (location_string c) then
                    let location := default "" (location_string c) in
                    Some (try_catch
                            (coords ← coordOf location;
                             Ok {| li_lat := Some (lat coords);
                                   li_lon := Some (lon coords);
                                   li_label := "@ [" +:+ location +:+ "]";
                                   li_source := camp |})
                            (fun error =>
                               Ok {| li_lat := None;
                                     li_lon := None;
                                     li_label := "@ [" +:+ location +:+ "]";
                                     li_source := camp |}))
                  else None
              | None => None
              end
        | _, _ => None
        end in
      match fromCamp with
      | Some r => r
      | None =>
          if truthy (other_location event) then
            let location := default "" (other_location event) in
            try_catch
              (coords ← coordOf location;
               Ok {| li_lat := Some (lat coords);
                     li_lon := Some (lon coords);
                     li_label := location;
                     li_source := other |})
              (fun error =>
                 Ok {| li_lat := None;
                       li_lon := None;
                       li_label := location;
                       li_source := other |})
          else
            Ok {| li_lat := None;
                  li_lon := None;
                  li_label := "Location TBD";
                  li_source := unknown |}
      end
  end.

Definition weekdays : list string := ["Su"; "M"; "Tu"; "W"; "Th"; "F"; "S"].

(** [date.getDay()] of a valid date: the day of the week in local time,
    0 for Sunday; the epoch fell on a Thursday. *)
Definition getDay (env : Env) (t : Z) : Z :=
  ((t - getTimezoneOffset env t * 60000) / 86400000 + 4) mod 7.

(** [new Date(x)] for a string that may be [undefined]. *)
Definition new_Date (env : Env) (x : option string) : Date :=
  match x with
  | Some s => Date_parse env s
  | None => None
  end.

Definition getFutureOccurrences (env : Env) (self : EventProcessor)
    (eventUid : string) (currentStart : Date) : string :=
  match find (fun e => String.eqb (uid e) eventUid) (originalEvents self) with
  | None => ""
  | Some event =>
      if (length (occurrence_set event) <=? 1)%nat then ""
      else
        let now : Date := Some (Date_now env) in
        let currentTime := getTime currentStart in
        let future :=
          filter (fun occ =>
                    let occStart := new_Date env (start_time occ) in
                    tnum_gt (getTime occStart) (getTime now)
                    && negb (tnum_eqb (getTime occStart) currentTime))
                 (occurrence_set event) in
        let days :=
          map (fun occ =>
                 match new_Date env (start_time occ) with
                 | Some t => nth (Z.to_nat (getDay env t)) weekdays ""
                 | None => ""
                 end)
              future in
        let futureDays :=
          Array_sort (fun a b =>
                        num_of_Z (Array_indexOf a weekdays - Array_indexOf b weekdays))
                     (firstOccurrences [] days) in
        Array_join "," futureDays
  end.

Definition defaultEventTypes : list string :=
  ["prty"; "food"; "tea"; "arts"; "work"; "kid"; "adlt"; "othr"].

(** [x || d] on a string *)
Definition str_or (x : string) (d : string) : string :=
  if isEmpty x then d else x.

(** The body of the inner loop: [[]] where the source says [continue],
    one record where it pushes. *)
Definition processOccurrence (env : Env) (self : EventProcessor)
    (lat lon : option num) (radius : num) (now upcomingCutoff : Date)
    (eventTypes : list string)
    (showOnlyActive showOnlyUpcoming showOnlyFavorites : bool)
    (favoriteIds : option (gset string))
    (event : RawEvent) (occurrence : EventOccurrence)
  : result (list ProcessedEvent) :=
  let hasGPS :=
    from_option Number_isFinite false lat && from_option Number_isFinite false lon in
  let occurrences := occurrence_set event in
  let start : option Date :=
    if truthy (start_time occurrence)
    then Some (new_Date env (start_time occurrence)) else None in
  let end_ : option Date :=
    if truthy (end_time occurrence)
    then Some (new_Date env (end_time occurrence)) else None in
  match start, end_ with
  | Some start, Some end_ =>
      let status := determineEventStatus start end_ now in
      if negb (passesTimeFilter start end_ now upcomingCutoff status) then Ok []
      else
        locationInfo ← resolveEventLocation self event;
        let located :=
          hasGPS && from_option num_truthy false (li_lat locationInfo)
                 && from_option num_truthy false (li_lon locationInfo) in
        let distance : option num :=
          if located then
            Some (haversineMeters (default NaN lat) (default NaN lon)
                    (default NaN (li_lat locationInfo))
                    (default NaN (li_lon locationInfo)))
          else None in
        if located && num_gt (default NaN distance) radius then Ok []
        else
          let typeAbbr := str_or (from_option abbr "" (event_type event)) "othr" in
          if negb (existsb (String.eqb typeAbbr) eventTypes) then Ok []
          else if showOnlyActive && negb (bool_decide (status = NOW)) then Ok []
          else if showOnlyUpcoming
                  && (bool_decide (status = ENDED) || bool_decide (status = NOW))
          then Ok []
          else
            let eventId := uid event +:+ "_" +:+ default "" (start_time occurrence) in
            if showOnlyFavorites
               && negb (from_option (fun ids => bool_decide (eventId ∈ ids)) false
                                    favoriteIds)
            then Ok []
            else
              Ok [ {| pe_id := eventId;
                      pe_eventUid := uid event;
                      pe_title := str_or (title event) "Untitled Event";
                      pe_description := default "" (description event);
                      pe_type := str_or (from_option label "" (event_type event)) "Other";
                      pe_typeAbbr := typeAbbr;
                      pe_start := start;
                      pe_end := end_;
                      pe_status := status;
                      pe_distance := distance;
                      pe_lat := li_lat locationInfo;
                      pe_lon := li_lon locationInfo;
                      pe_locLabel := li_label locationInfo;
                      pe_isRecurring := (1 <? length occurrences)%nat;
                      pe_futureOccurrences :=
                        getFutureOccurrences env self (uid event) start;
                      pe_url := url event;
                      pe_contactEmail := contact_email event;
                      pe_allDay := all_day event |} ]
  | _, _ => Ok []
  end.

Definition processEvents (env : Env) (searchParams : SearchParams)
  : result (list ProcessedEvent) :=
  let lat := sp_lat searchParams in
  let lon := sp_lon searchParams in
  let radius := default (num_of_Z AppConfig.defaultRadius) (sp_radius searchParams) in
  let timeWindow := default AppConfig.defaultTimeWindow (sp_window searchParams) in
  let year := default AppConfig.defaultYear (sp_year searchParams) in
  let now : Date := default (Some (Date_now env)) (sp_now searchParams) in
  let eventTypes := default defaultEventTypes (sp_eventTypes searchParams) in
  let showOnlyActive := default false (sp_showOnlyActive searchParams) in
  let showOnlyUpcoming := default false (sp_showOnlyUpcoming searchParams) in
  let showOnlyFavorites := default false (sp_showOnlyFavorites searchParams) in
  events ← loadEvents env year;
  artMap ← getArtMap env;
  campMap ← getCampMap env;
  let self :=
    {| artMapCache := Some artMap; campMapCache := Some campMap;
       originalEvents := events |} in
  let upcomingCutoff : Date :=
    Date_of_time (tnum_add (getTime now) (Some (timeWindow * 60 * 1000))) in
  favoriteIds ← (if showOnlyFavorites then ids ← getFavoriteIds env; Ok (Some ids)
                 else Ok None);
  for_of (fun event =>
            for_of (processOccurrence env self lat lon radius now upcomingCutoff
                      eventTypes showOnlyActive showOnlyUpcoming showOnlyFavorites
                      favoriteIds event)
                   (occurrence_set event))
         events.

Definition statusPriority (s : EventStatus) : Z :=
  match s with
  | NOW => 0
  | SOON => 1
  | UPCOMING => 2
  | ENDED => 3
  end.

Definition is_NOW (s : EventStatus) : bool := bool_decide (s = NOW).

Definition time_diff (a b : Date) : num :=
  num_of_tnum (tnum_sub (getTime a) (getTime b)).

(** The comparator each [case] of [sortEvents] hands to [sort]. *)
Definition comparator (env : Env) (sortType : SortType) (a b : ProcessedEvent) : num :=
  match sortType with
  | by_distance =>
      match pe_distance a, pe_distance b with
      | None, None => num_of_Z 0
      | None, _ => num_of_Z 1
      | _, None => num_of_Z (-1)
      | Some da, Some db => (da - db)%num
      end
  | by_time => time_diff (pe_start a) (pe_start b)
  | by_ending =>
      if is_NOW (pe_status a) && is_NOW (pe_status b)
      then time_diff (pe_end a) (pe_end b)
      else if is_NOW (pe_status a) && negb (is_NOW (pe_status b)) then num_of_Z (-1)
      else if negb (is_NOW (pe_status a)) && is_NOW (pe_status b) then num_of_Z 1
      else time_diff (pe_start a) (pe_start b)
  | by_type =>
      if negb (String.eqb (pe_typeAbbr a) (pe_typeAbbr b))
      then localeCompare env (pe_typeAbbr a) (pe_typeAbbr b)
      else time_diff (pe_start a) (pe_start b)
  | by_title =>
      if negb (String.eqb (pe_title a) (pe_title b))
      then localeCompare env (pe_title a) (pe_title b)
      else time_diff (pe_start a) (pe_start b)
  | by_default =>
      let aPriority := statusPriority (pe_status a) in
      let bPriority := statusPriority (pe_status b) in
      if negb (aPriority =? bPriority) then num_of_Z (aPriority - bPriority)
      else if is_NOW (pe_status a) then time_diff (pe_end a) (pe_end b)
      else time_diff (pe_start a) (pe_start b)
  end.

Definition sortEvents (env : Env) (events : list ProcessedEvent) (sortType : SortType)
  : list ProcessedEvent :=
  let sortedEvents := events in
  Array_sort (comparator env sortType) sortedEvents.

Definition formatCountdown (minutes : Z) : string :=
  if Z.abs minutes <? 60 then Number_toString (Z.abs minutes) +:+ "m"
  else
    let hours := Z.abs minutes / 60 in
    let remainingMinutes := Z.rem (Z.abs minutes) 60 in
    let sign := if minutes <? 0 then "-" else "" in
    if remainingMinutes =? 0 then sign +:+ Number_toString hours +:+ "h"
    else sign +:+ Number_toString hours +:+ "h "
              +:+ Number_toString remainingMinutes +:+ "m".

End EventProcessor.

(* ===================================================================== *)
(** * The vocabulary of the specification *)
(* ===================================================================== *)

Import BrcGeo EventProcessor.

(** The three conditions of the status state machine, on valid time
    values. *)
Definition activeAt (start end_ now : Z) : Prop :=
  start <= now <= end_ /\ end_ - now >= buffer.
Definition soonAt (start end_ now : Z) : Prop :=
  now < start /\ start - now <= buffer.
Definition upcomingAt (start end_ now : Z) : Prop :=
  now < start /\ start - now > buffer.

(** The art installation and the camp an event links to, when the link is
    set and the record is found. *)
Definition linkedArt (self : EventProcessor) (event : RawEvent)
  : option ArtInstallation :=
  match located_at_art event, artMapCache self with
  | Some artUid, Some artMap => if isEmpty artUid then None else artMap !! artUid
  | _, _ => None
  end.

Definition linkedCamp (self : EventProcessor) (event : RawEvent) : option Camp :=
  match hosted_by_camp event, campMapCache self with
  | Some campUid, Some campMap => if isEmpty campUid then None else campMap !! campUid
  | _, _ => None
  end.

(** The address of a camp, when it has a non-empty one. *)
Definition campAddress (c : Camp) : option string :=
  if truthy (location_string c) then location_string c else None.

(** A location known by its label only: null coordinates. *)
Definition labelOnly (label : string) (source : LocationSource) : LocationInfo :=
  {| li_lat := None; li_lon := None; li_label := label; li_source := source |}.

(** Character classes: no white space; any character but [x]; the
    characters of a clock notation. *)
Definition nonSpace (ch : ascii) : bool := negb (isSpace ch).

Definition isNot (x : ascii) (ch : ascii) : bool := negb (Ascii.eqb ch x).

Definition clockChar (ch : ascii) : bool :=
  isDigit ch || Ascii.eqb ch ":" || Ascii.eqb ch ".".

(** A letter other than Z, in either case. *)
Definition ringChar (ch : ascii) : bool :=
  ((65 <=? code (toUpper ch)) && (code (toUpper ch) <=? 89))%N.

(** A ring letter, A to K, in either case. *)
Definition isRingLetter (ch : ascii) : bool :=
  ((65 <=? code (toUpper ch)) && (code (toUpper ch) <=? 75))%N.

(** What the parser must not meet inside a clock or a ring token: white
    space, the separators, and the letter that would spell "Plaza". *)
Definition tokenChar (ch : ascii) : bool :=
  nonSpace ch && isNot "&" ch && isNot "@" ch && isNot "z" ch.

(** The clock notations: "H" and "HMM" (one to four digits), "H:MM", and a
    decimal fraction of an hour. *)
Definition validClock (c : string) : bool :=
  let ip := takeDigits c in
  (1 <=? String.length ip)%nat &&
  match dropDigits c with
  | EmptyString => (String.length ip <=? 4)%nat
  | String ":" mm =>
      (String.length ip <=? 2)%nat && (String.length mm =? 2)%nat && all isDigit mm
  | String "." fp => negb (isEmpty fp) && all isDigit fp
  | _ => false
  end.

(** A ring name: one ring letter, or the Esplanade keyword, in either case. *)
Definition validRing (r : string) : bool :=
  match r with
  | String ch EmptyString => isRingLetter ch
  | _ => false
  end
  || String.eqb (toUpperCase r) "ESPLANADE" || String.eqb (toUpperCase r) "ESPL".

(** The three shapes a valid clock has: digits, hour and minutes around a
    colon, integer and fraction around a point. *)
Inductive ClockShape (c : string) : Prop :=
| shape_digits :
    all isDigit c = true -> (1 <= String.length c <= 4)%nat -> ClockShape c
| shape_colon ip mm :
    c = ip +:+ String ":" mm -> all isDigit ip = true ->
    (1 <= String.length ip <= 2)%nat ->
    all isDigit mm = true -> String.length mm = 2%nat -> ClockShape c
| shape_decimal ip fp :
    c = ip +:+ String "." fp -> all isDigit ip = true ->
    (1 <= String.length ip)%nat ->
    all isDigit fp = true -> fp <> "" -> ClockShape c.

(** The clocks the portal pattern captures whole: "H" and "H:MM", the hour
    of one or two digits. *)
Definition portalClock (c : string) : bool :=
  let ip := takeDigits c in
  (1 <=? String.length ip)%nat && (String.length ip <=? 2)%nat &&
  match dropDigits c with
  | EmptyString => true
  | String ch mm => Ascii.eqb ch ":" && (String.length mm =? 2)%nat && all isDigit mm
  end.

(** The four shapes of a portal clock: H, HH, H:MM and HH:MM. *)
Inductive PortalShape : string -> Prop :=
| portal_H a : isDigit a = true -> PortalShape (String a "")
| portal_HH a b : isDigit a = true -> isDigit b = true ->
    PortalShape (String a (String b ""))
| portal_H_MM a m1 m2 :
    isDigit a = true -> isDigit m1 = true -> isDigit m2 = true ->
    PortalShape (String a (String ":" (String m1 (String m2 ""))))
| portal_HH_MM a b m1 m2 :
    isDigit a = true -> isDigit b = true -> isDigit m1 = true -> isDigit m2 = true ->
    PortalShape (String a (String b (String ":" (String m1 (String m2 ""))))).

(** The latitude of the projected point, where the arc sine is defined. *)
Definition sinLat (la d b : R) : R :=
  (sin (la * PI / 180) * cos (d / 6371000)
   + cos (la * PI / 180) * sin (d / 6371000) * cos (b * PI / 180))%R.

(** The sign of a comparator result: [sort] swaps on a positive one. *)
Definition isPos (x : num) : bool := num_gt x (num_of_Z 0).

Definition isNeg (x : num) : bool := num_lt x (num_of_Z 0).

(** A comparator result that orders nothing: zero or [NaN]. *)
Definition isTie (x : num) : bool := negb (isPos x) && negb (isNeg x).

(** What the strategies by type and by title need of [localeCompare]. *)
Definition consistentCollation (env : Env) : Prop :=
  (forall x y, isPos (localeCompare env x y) = isNeg (localeCompare env y x)) /\
  (forall x y z,
     isNeg (localeCompare env x y) = true -> isNeg (localeCompare env y z) = true ->
     isNeg (localeCompare env x z) = true).

(** An element is not after another when the comparator does not ask for
    the swap; a list is ordered when no element is after a later one. *)
Definition notAfter {A : Type} (compare : A -> A -> num) (a b : A) : Prop :=
  isPos (compare a b) = false.

Inductive Ordered {A : Type} (compare : A -> A -> num) : list A -> Prop :=
| Ordered_nil : Ordered compare []
| Ordered_cons x l :
    (forall y, In y l -> notAfter compare x y) -> Ordered compare l ->
    Ordered compare (x :: l).

(* ===================================================================== *)
(** * A concrete platform for worked scenarios *)
(* ===================================================================== *)

Module Scenario.

(** [new Date(s)] on the ISO 8601 form [YYYY-MM-DDTHH:MM:SSZ], the format
    of the data set's timestamps in UTC; every other string is read as an
    Invalid Date. *)
Definition field (s : string) (i n : nat) : option Z :=
  let f := String.substring i n s in
  if (String.length f =? n)%nat && all isDigit f then Some (digitsValue f) else None.

Definition daysFromCivil (y m d : Z) : Z :=
  let y' := if m <=? 2 then y - 1 else y in
  let era := y' / 400 in
  let yoe := y' - era * 400 in
  let mp := if 2 <? m then m - 3 else m + 9 in
  let doy := (153 * mp + 2) / 5 + d - 1 in
  let doe := yoe * 365 + yoe / 4 - yoe / 100 + doy in
  era * 146097 + doe - 719468.

Definition isLeap (y : Z) : bool :=
  ((y mod 4 =? 0) && negb (y mod 100 =? 0)) || (y mod 400 =? 0).

Definition daysInMonth (y m : Z) : Z :=
  if m =? 2 then (if isLeap y then 29 else 28)
  else if (m =? 4) || (m =? 6) || (m =? 9) || (m =? 11) then 30 else 31.

Definition Date_parse_iso (s : string) : Date :=
  if (String.length s =? 20)%nat
     && String.eqb (String.substring 4 1 s) "-"
     && String.eqb (String.substring 7 1 s) "-"
     && String.eqb (String.substring 10 1 s) "T"
     && String.eqb (String.substring 13 1 s) ":"
     && String.eqb (String.substring 16 1 s) ":"
     && String.eqb (String.substring 19 1 s) "Z"
  then
    y ← field s 0 4; mo ← field s 5 2; d ← field s 8 2;
    h ← field s 11 2; mi ← field s 14 2; se ← field s 17 2;
    if (1 <=? mo) && (mo <=? 12) && (1 <=? d) && (d <=? daysInMonth y mo)
       && (h <=? 23) && (mi <=? 59) && (se <=? 59)
    then Some ((((daysFromCivil y mo d * 24 + h) * 60 + mi) * 60 + se) * 1000)
    else None
  else None.

(** Code-unit order, standing for [localeCompare] on the scenario's device. *)
Fixpoint compareCodeUnits (a b : string) : Z :=
  match a, b with
  | EmptyString, EmptyString => 0
  | EmptyString, String _ _ => -1
  | String _ _, EmptyString => 1
  | String x a', String y b' =>
      if (code x <? code y)%N then -1
      else if (code y <? code x)%N then 1
      else compareCodeUnits a' b'
  end.

(** A device in UTC whose collaborators never fail. *)
Definition device (events : list RawEvent)
    (arts : gmap string ArtInstallation) (camps : gmap string Camp)
    (favorites : gset string) (wallClock : Z) : Env :=
  {| loadEvents := fun _ => Ok events;
     getArtMap := Ok arts;
     getCampMap := Ok camps;
     getFavoriteIds := Ok favorites;
     Date_parse := Date_parse_iso;
     Date_now := wallClock;
     getTimezoneOffset := fun _ => 0;
     localeCompare := fun a b => num_of_Z (compareCodeUnits a b) |}.

Definition noParams : SearchParams :=
  {| sp_lat := None; sp_lon := None; sp_radius := None; sp_window := None;
     sp_year := None; sp_now := None; sp_eventTypes := None;
     sp_showOnlyActive := None; sp_showOnlyUpcoming := None;
     sp_showOnlyFavorites := None |}.

Definition at_ (now : string) (p : SearchParams) : SearchParams :=
  {| sp_lat := sp_lat p; sp_lon := sp_lon p; sp_radius := sp_radius p;
     sp_window := sp_window p; sp_year := sp_year p;
     sp_now := Some (Date_parse_iso now);
     sp_eventTypes := sp_eventTypes p;
     sp_showOnlyActive := sp_showOnlyActive p;
     sp_showOnlyUpcoming := sp_showOnlyUpcoming p;
     sp_showOnlyFavorites := sp_showOnlyFavorites p |}.

Definition occurrence (start end_ : string) : EventOccurrence :=
  {| start_time := Some start; end_time := Some end_ |}.

Definition event (uid title : string) (occurrences : list EventOccurrence) : RawEvent :=
  {| uid := uid; title := title; description := None; year := 2025;
     event_type := None; occurrence_set := occurrences;
     located_at_art := None; hosted_by_camp := None; other_location := None;
     url := None; contact_email := None; all_day := None |}.

End Scenario.

Definition sunsetYoga : RawEvent :=
  Scenario.event "e1" "Sunset Yoga"
    [Scenario.occurrence "2025-08-27T10:00:00Z" "2025-08-27T11:00:00Z"].

Definition sunsetYoga_processed : ProcessedEvent :=
  {| pe_id := "e1_2025-08-27T10:00:00Z";
     pe_eventUid := "e1";
     pe_title := "Sunset Yoga";
     pe_description := "";
     pe_type := "Other";
     pe_typeAbbr := "othr";
     pe_start := Some 1756288800000;
     pe_end := Some 1756292400000;
     pe_status := SOON;
     pe_distance := None;
     pe_lat := None;
     pe_lon := None;
     pe_locLabel := "Location TBD";
     pe_isRecurring := false;
     pe_futureOccurrences := "";
     pe_url := None;
     pe_contactEmail := None;
     pe_allDay := None |}.

Definition lostCamp : Camp :=
  {| camp_uid := "c1"; camp_name := "Lost Camp"; location_string := Some "somewhere out there" |}.

Definition campEvent : RawEvent :=
  {| uid := "e2"; title := "Tea"; description := None; year := 2025;
     event_type := None;
     occurrence_set := [Scenario.occurrence "2025-08-27T10:00:00Z" "2025-08-27T11:00:00Z"];
     located_at_art := None; hosted_by_camp := Some "c1";
     other_location := None; url := None; contact_email := None; all_day := None |}.

Definition walkInEvent : RawEvent :=
  {| uid := "e3"; title := "Walk"; description := None; year := 2025;
     event_type := None;
     occurrence_set := [Scenario.occurrence "2025-08-27T10:00:00Z" "2025-08-27T11:00:00Z"];
     located_at_art := None; hosted_by_camp := None;
     other_location := Some "Deep playa, look for the lights";
     url := None; contact_email := None; all_day := None |}.

Definition loaded : EventProcessor :=
  {| artMapCache := Some ∅; campMapCache := Some {[ "c1" := lostCamp ]};
     originalEvents := [campEvent; walkInEvent] |}.

(** A class that meets on Wednesday and on Friday. *)
Definition morningClass : RawEvent :=
  Scenario.event "e5" "Morning class"
    [Scenario.occurrence "2025-08-27T10:00:00Z" "2025-08-27T11:00:00Z";
     Scenario.occurrence "2025-08-29T10:00:00Z" "2025-08-29T11:00:00Z"].

Definition morningClass_wednesday (futureOccurrences : string) : ProcessedEvent :=
  {| pe_id := "e5_2025-08-27T10:00:00Z";
     pe_eventUid := "e5";
     pe_title := "Morning class";
     pe_description := "";
     pe_type := "Other";
     pe_typeAbbr := "othr";
     pe_start := Some 1756288800000;
     pe_end := Some 1756292400000;
     pe_status := SOON;
     pe_distance := None;
     pe_lat := None;
     pe_lon := None;
     pe_locLabel := "Location TBD";
     pe_isRecurring := true;
     pe_futureOccurrences := futureOccurrences;
     pe_url := None;
     pe_contactEmail := None;
     pe_allDay := None |}.

(** An art installation placed on the equator, due south of the viewer. *)
Definition equatorArt : ArtInstallation :=
  {| art_uid := "a1"; art_name := Some "Line in the sand";
     art_location :=
       Some {| gps_latitude := Some (Fin 0);
               gps_longitude := Some (Fin (-119.2137)) |} |}.

Definition artTour : RawEvent :=
  {| uid := "e4"; title := "Art tour"; description := None; year := 2025;
     event_type := None;
     occurrence_set :=
       [Scenario.occurrence "2025-08-27T10:00:00Z" "2025-08-27T11:00:00Z"];
     located_at_art := Some "a1"; hosted_by_camp := None;
     other_location := None; url := None; contact_email := None; all_day := None |}.

(** The viewer stands at the configured default coordinates, with the
    default radius of 1000 metres. *)
Definition viewerParams : SearchParams :=
  {| sp_lat := Some (Fin 40.7741); sp_lon := Some (Fin (-119.2137));
     sp_radius := Some (num_of_Z 1000); sp_window := None; sp_year := None;
     sp_now := Some (Some 1756288200000);
     sp_eventTypes := None; sp_showOnlyActive := None;
     sp_showOnlyUpcoming := None; sp_showOnlyFavorites := None |}.

Definition artTour_processed : ProcessedEvent :=
  {| pe_id := "e4_2025-08-27T10:00:00Z";
     pe_eventUid := "e4";
     pe_title := "Art tour";
     pe_description := "";
     pe_type := "Other";
     pe_typeAbbr := "othr";
     pe_start := Some 1756288800000;
     pe_end := Some 1756292400000;
     pe_status := SOON;
     pe_distance := None;
     pe_lat := Some (Fin 0);
     pe_lon := Some (Fin (-119.2137));
     pe_locLabel := "@ Line in the sand";
     pe_isRecurring := false;
     pe_futureOccurrences := "";
     pe_url := None;
     pe_contactEmail := None;
     pe_allDay := None |}.

Definition talk (id title : string) (start : Z) : ProcessedEvent :=
  {| pe_id := id;
     pe_eventUid := id;
     pe_title := title;
     pe_description := "";
     pe_type := "Other";
     pe_typeAbbr := "othr";
     pe_start := Some start;
     pe_end := Some (start + 3600000);
     pe_status := UPCOMING;
     pe_distance := None;
     pe_lat := None;
     pe_lon := None;
     pe_locLabel := "Location TBD";
     pe_isRecurring := false;
     pe_futureOccurrences := "";
     pe_url := None;
     pe_contactEmail := None;
     pe_allDay := None |}.

(* ===================================================================== *)
(** * The runtime: numbers of minutes, rounding *)
(* ===================================================================== *)

(** Integral numbers that may be [NaN]. *)

(** [Math.round(x / d)] for a positive constant [d]: the nearest integer,
    halves upwards. *)
Definition Math_round_div (x : tnum) (d : Z) : tnum :=
  match x with
  | Some z => Some ((2 * z + d) / (2 * d))
  | None => None
  end.

Definition tnum_abs (x : tnum) : tnum := option_map Z.abs x.
Definition tnum_neg (x : tnum) : tnum := option_map Z.opp x.

(** [Math.floor(x / d)] and [x % d], for a positive constant [d]. *)
Definition tnum_floor_div (x : tnum) (d : Z) : tnum := option_map (fun z => z / d) x.
Definition tnum_rem (x : tnum) (d : Z) : tnum := option_map (fun z => Z.rem z d) x.

(** A number inside a template literal. *)
Definition tnum_toString (x : tnum) : string :=
  match x with
  | Some z => Number_toString z
  | None => "NaN"
  end.

(** The minutes of a number of milliseconds, as [Math.round(ms / 60000)]
    gives them. *)
Definition minutesOf (ms : Z) : Z := (2 * ms + 60000) / 120000.

(** [Math.round]: the nearest integer, halves upwards. *)
Definition Math_round (a : num) : num :=
  match a with
  | Fin x => Fin (IZR (Int_part (x + / 2)))
  | NaN => NaN
  end.

Definition num_le (a b : num) : bool :=
  match a, b with
  | Fin x, Fin y => if Rle_dec x y then true else false
  | _, _ => false
  end.

(** [d || 0] on a distance that may be [null]. *)
Definition distance_or_0 (d : option num) : num :=
  match d with
  | Some x => if num_truthy x then x else num_of_Z 0
  | None => num_of_Z 0
  end.

(* ===================================================================== *)
(** * [src/utils/timeUtils.ts]: countdowns and durations *)
(* ===================================================================== *)

Module TimeUtilsDates.

(** [formatCountdown] as the functions below call it, on a number of
    minutes that is [NaN] when a date is invalid. *)
Definition formatCountdown (minutes : tnum) : string :=
  let absMinutes := tnum_abs minutes in
  if tnum_lt absMinutes (Some 60) then tnum_toString absMinutes +:+ "m"
  else
    let hours := tnum_floor_div absMinutes 60 in
    let remainingMinutes := tnum_rem absMinutes 60 in
    if tnum_eqb remainingMinutes (Some 0) then tnum_toString hours +:+ "h"
    else tnum_toString hours +:+ "h " +:+ tnum_toString remainingMinutes +:+ "m".

Record RelativeTime : Type :=
  { text : string; isPast : bool; isNear : bool }.

(** [referenceTime] defaults to [new Date()]. *)
Definition getRelativeTime (env : Env) (targetTime : Date)
    (referenceTime : option Date) : RelativeTime :=
  let referenceTime := default (Some (Date_now env)) referenceTime in
  let diffMs := tnum_sub (getTime targetTime) (getTime referenceTime) in
  let diffMinutes := Math_round_div diffMs 60000 in
  let isPast := tnum_lt diffMs (Some 0) in
  let isNear := tnum_le (tnum_abs diffMinutes) (Some 15) in
  let text :=
    if isPast then formatCountdown (tnum_neg diffMinutes) +:+ " ago"
    else "in " +:+ formatCountdown diffMinutes in
  {| text := text; isPast := isPast; isNear := isNear |}.

Record CountdownInfo : Type :=
  { minutesUntilStart : tnum;
    minutesUntilEnd : tnum;
    startsIn : RelativeTime;
    endsIn : RelativeTime;
    isStartingSoon : bool;
    isEndingSoon : bool;
    isActive : bool;
    hasStarted : bool;
    hasEnded : bool }.

Definition getCountdownInfo (env : Env) (start end_ : Date) (now : option Date)
  : CountdownInfo :=
  let now := default (Some (Date_now env)) now in
  let minutesToStart :=
    Math_round_div (tnum_sub (getTime start) (getTime now)) 60000 in
  let minutesToEnd :=
    Math_round_div (tnum_sub (getTime end_) (getTime now)) 60000 in
  {| minutesUntilStart := minutesToStart;
     minutesUntilEnd := minutesToEnd;
     startsIn := getRelativeTime env start (Some now);
     endsIn := getRelativeTime env end_ (Some now);
     isStartingSoon := tnum_gt minutesToStart (Some 0) && tnum_le minutesToStart (Some 15);
     isEndingSoon :=
       tnum_le minutesToStart (Some 0) && tnum_gt minutesToEnd (Some 0)
       && tnum_le minutesToEnd (Some 15);
     isActive := tnum_le minutesToStart (Some 0) && tnum_gt minutesToEnd (Some 0);
     hasStarted := tnum_le minutesToStart (Some 0);
     hasEnded := tnum_le minutesToEnd (Some 0) |}.

Definition formatDuration (startDate endDate : Date) : string :=
  let durationMs := tnum_sub (getTime endDate) (getTime startDate) in
  let durationMinutes := Math_round_div durationMs 60000 in
  if tnum_lt durationMinutes (Some 60) then tnum_toString durationMinutes +:+ "m"
  else
    let hours := tnum_floor_div durationMinutes 60 in
    let remainingMinutes := tnum_rem durationMinutes 60 in
    if tnum_ge hours (Some 24) then
      let days := tnum_floor_div hours 24 in
      let remainingHours := tnum_rem hours 24 in
      if tnum_eqb remainingHours (Some 0) then tnum_toString days +:+ "d"
      else tnum_toString days +:+ "d " +:+ tnum_toString remainingHours +:+ "h"
    else if tnum_eqb remainingMinutes (Some 0) then tnum_toString hours +:+ "h"
    else tnum_toString hours +:+ "h " +:+ tnum_toString remainingMinutes +:+ "m".

End TimeUtilsDates.

(* ===================================================================== *)
(** * [src/components/DesertThemeProvider.tsx]: the countdown timer *)
(* ===================================================================== *)

Module CountdownTimer.
Import TimeUtilsDates.

Definition getCountdownText (countdown : CountdownInfo) : string :=
  if isActive countdown then "Ends " +:+ text (endsIn countdown)
  else if hasStarted countdown && hasEnded countdown then "Ended"
  else "Starts " +:+ text (startsIn countdown).

End CountdownTimer.

(* ===================================================================== *)
(** * [src/services/EventProcessor.ts]: countdown and statistics *)
(* ===================================================================== *)

Module EventProcessorInfo.

Record CountdownInfo : Type :=
  { minutesUntilStart : tnum;
    minutesUntilEnd : tnum;
    isStartingSoon : bool;
    isEndingSoon : bool;
    isActive : bool;
    isEnded : bool }.

(** [currentTime] defaults to [new Date()]. *)
Definition getCountdownInfo (env : Env) (event : ProcessedEvent)
    (currentTime : option Date) : CountdownInfo :=
  let currentTime := default (Some (Date_now env)) currentTime in
  let minutesToStart :=
    Math_round_div (tnum_sub (getTime (pe_start event)) (getTime currentTime)) 60000 in
  let minutesToEnd :=
    Math_round_div (tnum_sub (getTime (pe_end event)) (getTime currentTime)) 60000 in
  {| minutesUntilStart := minutesToStart;
     minutesUntilEnd := minutesToEnd;
     isStartingSoon := tnum_gt minutesToStart (Some 0) && tnum_le minutesToStart (Some 15);
     isEndingSoon := bool_decide (pe_status event = NOW) && tnum_le minutesToEnd (Some 15);
     isActive := bool_decide (pe_status event = NOW);
     isEnded := bool_decide (pe_status event = ENDED) |}.

End EventProcessorInfo.

Module EventProcessorStats.

(** The names every object inherits from [Object.prototype]. *)
Definition Object_prototype_names : list string :=
  ["constructor"; "hasOwnProperty"; "isPrototypeOf"; "propertyIsEnumerable";
   "toLocaleString"; "toString"; "valueOf"; "__proto__";
   "__defineGetter__"; "__defineSetter__"; "__lookupGetter__"; "__lookupSetter__"].

Definition isOwnName (name : string) : bool :=
  negb (existsb (String.eqb name) Object_prototype_names).

(** [eventsByType] is an object used as a map from type abbreviations to
    counts.  The map holds what the object holds at every name that
    [Object.prototype] does not define; at an inherited name the code finds
    a function or an object where it expects a count, and the map says
    nothing of what it stores. *)
Record EventStats : Type :=
  { totalEvents : Z;
    activeEvents : Z;
    upcomingEvents : Z;
    eventsByType : gmap string Z;
    averageDistance : num;
    nearbyEvents : Z }.

Definition count {A : Type} (p : A -> bool) (l : list A) : Z :=
  Z.of_nat (length (List.filter p l)).

Definition getEventStats (events : list ProcessedEvent) (userRadius : option num)
  : EventStats :=
  let eventsByType :=
    fold_left (fun (byType : gmap string Z) event =>
                 let type := pe_typeAbbr event in
                 <[ type := default 0 (byType !! type) + 1 ]> byType)
              events ∅ in
  let eventsWithDistance :=
    List.filter (fun e => negb (bool_decide (pe_distance e = None))) events in
  let hasDistances := (0 <? length eventsWithDistance)%nat in
  let totalDistance :=
    fold_left (fun sum e => (sum + distance_or_0 (pe_distance e))%num)
              eventsWithDistance (num_of_Z 0) in
  {| totalEvents := Z.of_nat (length events);
     activeEvents := count (fun e => bool_decide (pe_status e = NOW)) events;
     upcomingEvents :=
       count (fun e => bool_decide (pe_status e = UPCOMING)
                       || bool_decide (pe_status e = SOON)) events;
     eventsByType := eventsByType;
     averageDistance :=
       if hasDistances
       then Math_round (totalDistance / num_of_Z (Z.of_nat (length eventsWithDistance)))
       else num_of_Z 0;
     nearbyEvents :=
       if hasDistances && from_option num_truthy false userRadius
       then count (fun e => num_le (distance_or_0 (pe_distance e))
                                   (default NaN userRadius))
                  eventsWithDistance
       else 0 |}.

(** One step of the count by type. *)
Definition tally (byType : gmap string Z) (event : ProcessedEvent) : gmap string Z :=
  <[ pe_typeAbbr event := default 0 (byType !! pe_typeAbbr event) + 1 ]> byType.

End EventProcessorStats.

(* ===================================================================== *)
(** * The vocabulary of a pass *)
(* ===================================================================== *)

(** The id and the type abbreviation [processEvents] gives the record of an
    occurrence. *)
Definition occurrenceId (event : RawEvent) (occurrence : EventOccurrence) : string :=
  uid event +:+ "_" +:+ default "" (start_time occurrence).

Definition typeAbbrOf (event : RawEvent) : string :=
  str_or (from_option abbr "" (event_type event)) "othr".

(** The parameters of a pass, with the defaults filled in. *)
Definition radiusOf (p : SearchParams) : num :=
  default (num_of_Z AppConfig.defaultRadius) (sp_radius p).
Definition windowOf (p : SearchParams) : Z :=
  default AppConfig.defaultTimeWindow (sp_window p).
Definition nowOf (env : Env) (p : SearchParams) : Date :=
  default (Some (Date_now env)) (sp_now p).
Definition eventTypesOf (p : SearchParams) : list string :=
  default defaultEventTypes (sp_eventTypes p).
Definition hasGPS (p : SearchParams) : bool :=
  from_option Number_isFinite false (sp_lat p)
  && from_option Number_isFinite false (sp_lon p).

(** The ids of all occurrences of a data set, in data order. *)
Definition occurrenceIds (events : list RawEvent) : list string :=
  flat_map (fun event => map (occurrenceId event) (occurrence_set event)) events.

Definition withWindow (p : SearchParams) (timeWindow : Z) : SearchParams :=
  {| sp_lat := sp_lat p; sp_lon := sp_lon p; sp_radius := sp_radius p;
     sp_window := Some timeWindow; sp_year := sp_year p; sp_now := sp_now p;
     sp_eventTypes := sp_eventTypes p;
     sp_showOnlyActive := sp_showOnlyActive p;
     sp_showOnlyUpcoming := sp_showOnlyUpcoming p;
     sp_showOnlyFavorites := sp_showOnlyFavorites p |}.

Definition yearOf (p : SearchParams) : Z := default AppConfig.defaultYear (sp_year p).
Definition cutoffOf (env : Env) (p : SearchParams) : Date :=
  Date_of_time (tnum_add (getTime (nowOf env p)) (Some (windowOf p * 60 * 1000))).
Definition flag (b : option bool) : bool := default false b.

(** A platform that differs in the favourites collaborator only. *)
Definition withFavorites (env : Env) (favorites : result (gset string)) : Env :=
  {| loadEvents := loadEvents env;
     getArtMap := getArtMap env;
     getCampMap := getCampMap env;
     getFavoriteIds := favorites;
     Date_parse := Date_parse env;
     Date_now := Date_now env;
     getTimezoneOffset := getTimezoneOffset env;
     localeCompare := localeCompare env |}.

(** A platform that differs in the wall clock only. *)
Definition withClock (env : Env) (wallClock : Z) : Env :=
  {| loadEvents := loadEvents env;
     getArtMap := getArtMap env;
     getCampMap := getCampMap env;
     getFavoriteIds := getFavoriteIds env;
     Date_parse := Date_parse env;
     Date_now := wallClock;
     getTimezoneOffset := getTimezoneOffset env;
     localeCompare := localeCompare env |}.

(** A record with another list of days in [futureOccurrences]. *)
Definition withFutureOccurrences (pe : ProcessedEvent) (days : string)
  : ProcessedEvent :=
  {| pe_id := pe_id pe;
     pe_eventUid := pe_eventUid pe;
     pe_title := pe_title pe;
     pe_description := pe_description pe;
     pe_type := pe_type pe;
     pe_typeAbbr := pe_typeAbbr pe;
     pe_start := pe_start pe;
     pe_end := pe_end pe;
     pe_status := pe_status pe;
     pe_distance := pe_distance pe;
     pe_lat := pe_lat pe;
     pe_lon := pe_lon pe;
     pe_locLabel := pe_locLabel pe;
     pe_isRecurring := pe_isRecurring pe;
     pe_futureOccurrences := days;
     pe_url := pe_url pe;
     pe_contactEmail := pe_contactEmail pe;
     pe_allDay := pe_allDay pe |}.

(** The record a pass over [events] gives for the same occurrence when the
    wall clock reads [wallClock]: step 10 of the pass is the only one that
    reads it. *)
Definition relisted (env : Env) (events : list RawEvent) (wallClock : Z)
    (pe : ProcessedEvent) : ProcessedEvent :=
  withFutureOccurrences pe
    (getFutureOccurrences (withClock env wallClock)
       {| artMapCache := None; campMapCache := None; originalEvents := events |}
       (pe_eventUid pe) (pe_start pe)).

(** The result of a call, with [f] applied to what it returns. *)
Definition result_map {A B : Type} (f : A -> B) (r : result A) : result B :=
  match r with
  | Ok a => Ok (f a)
  | Throw msg => Throw msg
  end.

(** Everything the loop body has checked when it pushes a record. *)
Record Emitted (env : Env) (self : EventProcessor) (lat lon : option num)
    (radius : num) (now upcomingCutoff : Date) (eventTypes : list string)
    (showOnlyActive showOnlyUpcoming showOnlyFavorites : bool)
    (favoriteIds : option (gset string))
    (event : RawEvent) (occurrence : EventOccurrence) (pe : ProcessedEvent) : Prop :=
  { em_start_given : truthy (start_time occurrence) = true;
    em_end_given : truthy (end_time occurrence) = true;
    em_start : pe_start pe = new_Date env (start_time occurrence);
    em_end : pe_end pe = new_Date env (end_time occurrence);
    em_status : pe_status pe = determineEventStatus (pe_start pe) (pe_end pe) now;
    em_window :
      passesTimeFilter (pe_start pe) (pe_end pe) now upcomingCutoff (pe_status pe) = true;
    em_location :
      exists li, resolveEventLocation self event = Ok li /\
                 pe_lat pe = li_lat li /\ pe_lon pe = li_lon li /\
                 pe_locLabel pe = li_label li;
    em_distance :
      match pe_distance pe with
      | Some d =>
          from_option Number_isFinite false lat = true /\
          from_option Number_isFinite false lon = true /\
          from_option num_truthy false (pe_lat pe) = true /\
          from_option num_truthy false (pe_lon pe) = true /\
          d = haversineMeters (default NaN lat) (default NaN lon)
                (default NaN (pe_lat pe)) (default NaN (pe_lon pe)) /\
          num_gt d radius = false
      | None =>
          from_option Number_isFinite false lat
          && from_option Number_isFinite false lon
          && from_option num_truthy false (pe_lat pe)
          && from_option num_truthy false (pe_lon pe) = false
      end;
    em_type : pe_typeAbbr pe = typeAbbrOf event;
    em_type_wanted : In (pe_typeAbbr pe) eventTypes;
    em_active : showOnlyActive = true -> pe_status pe = NOW;
    em_upcoming : showOnlyUpcoming = true -> pe_status pe <> ENDED /\ pe_status pe <> NOW;
    em_favorite :
      showOnlyFavorites = true ->
      exists ids, favoriteIds = Some ids /\ pe_id pe ∈ ids;
    em_id : pe_id pe = occurrenceId event occurrence;
    em_uid : pe_eventUid pe = uid event;
    em_recurring : pe_isRecurring pe = (1 <? length (occurrence_set event))%nat }.

(* ===================================================================== *)
(** * The vocabulary of the sorted lists *)
(* ===================================================================== *)

(** The comparator [getFutureOccurrences] sorts the days by. *)
Definition byWeekday (a b : string) : num :=
  num_of_Z (Array_indexOf a weekdays - Array_indexOf b weekdays).

(** The key a strategy sorts by, for the four strategies that compare
    numbers: a group, and a number inside the group.  A record has no key
    when the number it would be sorted by is [NaN]. *)
Definition timeKey (d : Date) : option R := option_map IZR d.

Definition sortKey (sortType : SortType) (pe : ProcessedEvent) : option (Z * R) :=
  match sortType with
  | by_default =>
      x ← timeKey (if is_NOW (pe_status pe) then pe_end pe else pe_start pe);
      Some (statusPriority (pe_status pe), x)
  | by_distance =>
      match pe_distance pe with
      | None => Some (1, 0%R)
      | Some (Fin d) => Some (0, d)
      | Some NaN => None
      end
  | by_time => x ← timeKey (pe_start pe); Some (0, x)
  | by_ending =>
      x ← timeKey (if is_NOW (pe_status pe) then pe_end pe else pe_start pe);
      Some (if is_NOW (pe_status pe) then 0 else 1, x)
  | by_type | by_title => None
  end.

(** Keys are ordered by group, then by number. *)
Definition keyLe (k1 k2 : Z * R) : Prop :=
  fst k1 < fst k2 \/ (fst k1 = fst k2 /\ (snd k1 <= snd k2)%R).

Definition inKeyOrder (sortType : SortType) (a b : ProcessedEvent) : Prop :=
  match sortKey sortType a, sortKey sortType b with
  | Some ka, Some kb => keyLe ka kb
  | _, _ => False
  end.

(* ===================================================================== *)
(** * [src/utils/brcGeo.ts]: the exported helpers *)
(* ===================================================================== *)

(** The distance from a GPS coordinate to an address: what [coordOf]
    throws is not caught. *)
Definition distanceMetersToAddress (lat lon : num) (address : string) : result num :=
  coords ← coordOf address;
  Ok (haversineMeters lat lon (BrcGeo.lat coords) (BrcGeo.lon coords)).

(** An address is valid when [coordOf] returns, whatever it returns. *)
Definition isValidBRCAddress (address : string) : bool :=
  match coordOf address with
  | Ok _ => true
  | Throw _ => false
  end.

(** The bearing of a clock position, in degrees: thirty degrees to the hour
    from twelve o'clock, turned by the rotation of the city. *)
Definition clockBearing (h m : Z) : R :=
  Rrem ((IZR (if h =? 12 then 0 else h) + IZR m / 60) * 30 + 45) 360.

(** The characters that may come before the ring letter of a plaza, and
    the characters other than "@" and "n". *)
Definition plazaLead (ch : ascii) : bool := clockChar ch || isSpace ch.
Definition plainChar (ch : ascii) : bool :=
  isNot "@" ch && isNot "n" ch.

(* ===================================================================== *)
(** * [src/services/FavoritesService.ts] *)
(* ===================================================================== *)

Module FavoritesService.

Record FavoriteEvent : Type :=
  { fav_id : string;
    fav_eventUid : string;
    fav_title : string;
    fav_start : string;
    fav_end : string;
    fav_type : string;
    fav_typeAbbr : string;
    fav_locLabel : string;
    fav_addedAt : string }.

(** The argument of [addFavorite] and [toggleFavorite]. *)
Record EventArg : Type :=
  { arg_id : string;
    arg_eventUid : string;
    arg_title : string;
    arg_start : Date;
    arg_end : Date;
    arg_type : string;
    arg_typeAbbr : string;
    arg_locLabel : string }.

(** What the service does not decide during one call: whether
    [AsyncStorage.getItem] and [setItem] reject (each method awaits each of
    them at most once), whether the notification service rejects, the clock
    of [new Date()], the text [JSON.stringify] writes, what [JSON.parse]
    reads back, and the text of [toISOString] on a valid time.  [JSON_parse]
    reads the text at the declared type [FavoriteEvent[]]; it throws on a
    text that is not JSON, and on one whose value the [map] of [initialize]
    throws on. *)
Record Platform : Type :=
  { getItem_rejects : option string;
    setItem_rejects : option string;
    scheduleEventNotification_rejects : option string;
    cancelEventNotification_rejects : option string;
    clock : Z;
    JSON_stringify : list FavoriteEvent -> string;
    JSON_parse : string -> result (list FavoriteEvent);
    isoString : Z -> string }.

(** The fields of the singleton, and the value stored under
    [FAVORITES_STORAGE_KEY]. *)
Record State : Type :=
  { favorites : gset string;
    favoriteEvents : list FavoriteEvent;
    isInitialized : bool;
    storage : option string }.

(** [new FavoritesService()], over a given storage. *)
Definition new_FavoritesService (stored : option string) : State :=
  {| favorites := ∅; favoriteEvents := []; isInitialized := false;
     storage := stored |}.

(** An asynchronous method, awaited to its end: it returns or throws, and
    leaves a state either way. *)
Definition M (A : Type) : Type := State -> result A * State.

Definition ret {A : Type} (a : A) : M A := fun w => (Ok a, w).
Definition throw {A : Type} (msg : string) : M A := fun w => (Throw msg, w).
Definition bind {A B : Type} (m : M A) (k : A -> M B) : M B :=
  fun w =>
    match m w with
    | (Ok a, w') => k a w'
    | (Throw msg, w') => (Throw msg, w')
    end.
Definition try_catch {A : Type} (body : M A) (handler : string -> M A) : M A :=
  fun w =>
    match body w with
    | (Ok a, w') => (Ok a, w')
    | (Throw msg, w') => handler msg w'
    end.
Definition get : M State := fun w => (Ok w, w).
Definition modify (f : State -> State) : M unit := fun w => (Ok tt, f w).
Definition lift {A : Type} (r : result A) : M A := fun w => (r, w).

Notation "'let*' x := m 'in' k" := (bind m (fun x => k))
  (at level 10, x name, m at level 100, k at level 200).
Notation "m ;; k" := (bind m (fun _ => k))
  (at level 100, k at level 200, right associativity).

Definition set_favorites (s : gset string) (w : State) : State :=
  {| favorites := s; favoriteEvents := favoriteEvents w;
     isInitialized := isInitialized w; storage := storage w |}.
Definition set_favoriteEvents (l : list FavoriteEvent) (w : State) : State :=
  {| favorites := favorites w; favoriteEvents := l;
     isInitialized := isInitialized w; storage := storage w |}.
Definition set_isInitialized (b : bool) (w : State) : State :=
  {| favorites := favorites w; favoriteEvents := favoriteEvents w;
     isInitialized := b; storage := storage w |}.
Definition set_storage (s : option string) (w : State) : State :=
  {| favorites := favorites w; favoriteEvents := favoriteEvents w;
     isInitialized := isInitialized w; storage := s |}.

(** [AsyncStorage.getItem(FAVORITES_STORAGE_KEY)] *)
Definition AsyncStorage_getItem (pf : Platform) : M (option string) :=
  match getItem_rejects pf with
  | Some msg => throw msg
  | None => let* w := get in ret (storage w)
  end.

(** [AsyncStorage.setItem(FAVORITES_STORAGE_KEY, value)] *)
Definition AsyncStorage_setItem (pf : Platform) (value : string) : M unit :=
  match setItem_rejects pf with
  | Some msg => throw msg
  | None => modify (set_storage (Some value))
  end.

(** [date.toISOString()]: a [RangeError] on the Invalid Date. *)
Definition toISOString (pf : Platform) (d : Date) : result string :=
  match d with
  | Some t => Ok (isoString pf t)
  | None => Throw "Invalid time value"
  end.

Definition scheduleEventNotification (pf : Platform) (favorite : FavoriteEvent)
  : M unit :=
  match scheduleEventNotification_rejects pf with
  | Some msg => throw msg
  | None => ret tt
  end.

Definition cancelEventNotification (pf : Platform) (eventId : string) : M unit :=
  match cancelEventNotification_rejects pf with
  | Some msg => throw msg
  | None => ret tt
  end.

(** [new Set(favoriteEvents.map(fav => fav.id))] *)
Definition idsOf (l : list FavoriteEvent) : gset string :=
  list_to_set (map fav_id l).

Definition has (eventId : string) (s : gset string) : bool :=
  bool_decide (eventId ∈ s).

Definition initialize (pf : Platform) : M unit :=
  let* w := get in
  if isInitialized w then ret tt
  else
    try_catch
      (let* storedFavorites := AsyncStorage_getItem pf in
       (match storedFavorites with
        | Some text =>
            if isEmpty text then ret tt
            else
              let* parsed := lift (JSON_parse pf text) in
              modify (set_favoriteEvents parsed);;
              modify (set_favorites (idsOf parsed))
        | None => ret tt
        end);;
       modify (set_isInitialized true))
      (fun error =>
         modify (set_favoriteEvents []);;
         modify (set_favorites ∅);;
         modify (set_isInitialized true)).

Definition saveFavorites (pf : Platform) : M unit :=
  try_catch
    (let* w := get in
     AsyncStorage_setItem pf (JSON_stringify pf (favoriteEvents w)))
    (fun error => throw "Failed to save favorites").

Definition addFavorite (pf : Platform) (event : EventArg) : M unit :=
  initialize pf;;
  let* w := get in
  if has (arg_id event) (favorites w) then ret tt
  else
    let* start := lift (toISOString pf (arg_start event)) in
    let* end_ := lift (toISOString pf (arg_end event)) in
    let* addedAt := lift (toISOString pf (Some (clock pf))) in
    let favorite :=
      {| fav_id := arg_id event;
         fav_eventUid := arg_eventUid event;
         fav_title := arg_title event;
         fav_start := start;
         fav_end := end_;
         fav_type := arg_type event;
         fav_typeAbbr := arg_typeAbbr event;
         fav_locLabel := arg_locLabel event;
         fav_addedAt := addedAt |} in
    modify (fun w => set_favoriteEvents (favoriteEvents w ++ [favorite]) w);;
    modify (fun w => set_favorites ({[arg_id event]} ∪ favorites w) w);;
    saveFavorites pf;;
    try_catch (scheduleEventNotification pf favorite) (fun error => ret tt).

Definition removeFavorite (pf : Platform) (eventId : string) : M unit :=
  initialize pf;;
  let* w := get in
  if negb (has eventId (favorites w)) then ret tt
  else
    modify (fun w =>
              set_favoriteEvents
                (List.filter (fun fav => negb (String.eqb (fav_id fav) eventId))
                   (favoriteEvents w)) w);;
    modify (fun w => set_favorites (favorites w ∖ {[eventId]}) w);;
    saveFavorites pf;;
    try_catch (cancelEventNotification pf eventId) (fun error => ret tt).

Definition toggleFavorite (pf : Platform) (event : EventArg) : M bool :=
  initialize pf;;
  let* w := get in
  if has (arg_id event) (favorites w) then
    removeFavorite pf (arg_id event);; ret false
  else
    addFavorite pf event;; ret true.

Definition isFavorite (pf : Platform) (eventId : string) : M bool :=
  initialize pf;;
  let* w := get in
  ret (has eventId (favorites w)).

Definition getFavoritesCount (pf : Platform) : M Z :=
  initialize pf;;
  let* w := get in
  ret (Z.of_nat (List.length (favoriteEvents w))).

Definition getFavoriteIds (pf : Platform) : M (gset string) :=
  initialize pf;;
  let* w := get in
  ret (favorites w).

Definition clearAllFavorites (pf : Platform) : M unit :=
  modify (set_favoriteEvents []);;
  modify (set_favorites ∅);;
  saveFavorites pf.

Definition getFavoritesByType (pf : Platform) (typeAbbr : string)
  : M (list FavoriteEvent) :=
  initialize pf;;
  let* w := get in
  ret (List.filter (fun fav => String.eqb (fav_typeAbbr fav) typeAbbr)
         (favoriteEvents w)).

(** One call of a client on the service. *)
Inductive Call : Type :=
| call_initialize
| call_addFavorite (event : EventArg)
| call_removeFavorite (eventId : string)
| call_toggleFavorite (event : EventArg)
| call_isFavorite (eventId : string)
| call_getFavoritesCount
| call_getFavoriteIds
| call_clearAllFavorites
| call_getFavoritesByType (typeAbbr : string).

(** The state a call leaves, whether it returns or throws. *)
Definition after (pf : Platform) (c : Call) (w : State) : State :=
  match c with
  | call_initialize => snd (initialize pf w)
  | call_addFavorite event => snd (addFavorite pf event w)
  | call_removeFavorite eventId => snd (removeFavorite pf eventId w)
  | call_toggleFavorite event => snd (toggleFavorite pf event w)
  | call_isFavorite eventId => snd (isFavorite pf eventId w)
  | call_getFavoritesCount => snd (getFavoritesCount pf w)
  | call_getFavoriteIds => snd (getFavoriteIds pf w)
  | call_clearAllFavorites => snd (clearAllFavorites pf w)
  | call_getFavoritesByType typeAbbr => snd (getFavoritesByType pf typeAbbr w)
  end.

(** A session: calls awaited one after the other, each under its own
    platform behaviour. *)
Definition session (calls : list (Platform * Call)) (w : State) : State :=
  fold_left (fun w pc => after (fst pc) (snd pc) w) calls w.

(** The state [addFavorite] reaches once the favourite is built and
    pushed, and the state [removeFavorite] reaches once the favourite is
    filtered out. *)
Definition pushed (favorite : FavoriteEvent) (w : State) : State :=
  set_favorites ({[fav_id favorite]} ∪ favorites w)
    (set_favoriteEvents (favoriteEvents w ++ [favorite]) w).

Definition dropped (eventId : string) (w : State) : State :=
  set_favorites (favorites w ∖ {[eventId]})
    (set_favoriteEvents
       (List.filter (fun fav => negb (String.eqb (fav_id fav) eventId))
          (favoriteEvents w)) w).

(** The set of ids mirrors the list of favourites. *)
Definition consistent (w : State) : Prop :=
  favorites w = idsOf (favoriteEvents w).

(** The favourite [addFavorite] builds from its argument. *)
Definition favoriteOf (pf : Platform) (event : EventArg) (start end_ : Z)
  : FavoriteEvent :=
  {| fav_id := arg_id event;
     fav_eventUid := arg_eventUid event;
     fav_title := arg_title event;
     fav_start := isoString pf start;
     fav_end := isoString pf end_;
     fav_type := arg_type event;
     fav_typeAbbr := arg_typeAbbr event;
     fav_locLabel := arg_locLabel event;
     fav_addedAt := isoString pf (clock pf) |}.

End FavoritesService.

(** A phone for worked scenarios.  Its texts are abbreviated: a list of
    favourites is written as the list of its ids, a time as its number of
    milliseconds, and no stored text is read back.  Notifications are not
    permitted on it. *)
Definition phone (setItem_rejects : option string) : FavoritesService.Platform :=
  {| FavoritesService.getItem_rejects := None;
     FavoritesService.setItem_rejects := setItem_rejects;
     FavoritesService.scheduleEventNotification_rejects :=
       Some "Notifications are not permitted";
     FavoritesService.cancelEventNotification_rejects := None;
     FavoritesService.clock := 1756288200000;
     FavoritesService.JSON_stringify :=
       fun l => "[" +:+ Array_join "," (map FavoritesService.fav_id l) +:+ "]";
     FavoritesService.JSON_parse := fun _ => Throw "Unexpected token";
     FavoritesService.isoString := Number_toString |}.

Definition sunsetYoga_arg : FavoritesService.EventArg :=
  {| FavoritesService.arg_id := "e1_2025-08-27T10:00:00Z";
     FavoritesService.arg_eventUid := "e1";
     FavoritesService.arg_title := "Sunset Yoga";
     FavoritesService.arg_start := Some 1756288800000;
     FavoritesService.arg_end := Some 1756292400000;
     FavoritesService.arg_type := "Other";
     FavoritesService.arg_typeAbbr := "othr";
     FavoritesService.arg_locLabel := "Location TBD" |}.

Definition favoritesOnly (now : string) : SearchParams :=
  {| sp_lat := None; sp_lon := None; sp_radius := None; sp_window := None;
     sp_year := None; sp_now := Some (Scenario.Date_parse_iso now);
     sp_eventTypes := None; sp_showOnlyActive := None;
     sp_showOnlyUpcoming := None; sp_showOnlyFavorites := Some true |}.

(** A briefing of ten minutes. *)
Definition briefing : RawEvent :=
  Scenario.event "e6" "Briefing"
    [Scenario.occurrence "2025-08-27T09:50:00Z" "2025-08-27T10:00:00Z"].

(** A tea that names an art installation, a camp and a free-text place. *)
Definition lineTea : RawEvent :=
  {| uid := "e7"; title := "Tea at the line"; description := None; year := 2025;
     event_type := None;
     occurrence_set := [Scenario.occurrence "2025-08-27T10:00:00Z" "2025-08-27T11:00:00Z"];
     located_at_art := Some "a1"; hosted_by_camp := Some "c1";
     other_location := Some "Deep playa, look for the lights";
     url := None; contact_email := None; all_day := None |}.

(** The same tea without the art installation. *)
Definition campTea : RawEvent :=
  {| uid := "e8"; title := "Tea at the camp"; description := None; year := 2025;
     event_type := None;
     occurrence_set := [Scenario.occurrence "2025-08-27T10:00:00Z" "2025-08-27T11:00:00Z"];
     located_at_art := None; hosted_by_camp := Some "c1";
     other_location := Some "Deep playa, look for the lights";
     url := None; contact_email := None; all_day := None |}.

Definition loadedWithArt : EventProcessor :=
  {| artMapCache := Some {[ "a1" := equatorArt ]};
     campMapCache := Some {[ "c1" := lostCamp ]};
     originalEvents := [lineTea; campTea] |}.

(** An art installation at the viewer's coordinates, and a visit to it. *)
Definition oasisArt : ArtInstallation :=
  {| art_uid := "a2"; art_name := Some "Oasis";
     art_location :=
       Some {| gps_latitude := Some (Fin 40.7741);
               gps_longitude := Some (Fin (-119.2137)) |} |}.

Definition oasisVisit : RawEvent :=
  {| uid := "e9"; title := "Oasis visit"; description := None; year := 2025;
     event_type := None;
     occurrence_set :=
       [Scenario.occurrence "2025-08-27T10:00:00Z" "2025-08-27T11:00:00Z"];
     located_at_art := Some "a2"; hosted_by_camp := None;
     other_location := None; url := None; contact_email := None; all_day := None |}.

Definition oasisVisit_processed : ProcessedEvent :=
  {| pe_id := "e9_2025-08-27T10:00:00Z";
     pe_eventUid := "e9";
     pe_title := "Oasis visit";
     pe_description := "";
     pe_type := "Other";
     pe_typeAbbr := "othr";
     pe_start := Some 1756288800000;
     pe_end := Some 1756292400000;
     pe_status := SOON;
     pe_distance := Some (Fin 0);
     pe_lat := Some (Fin 40.7741);
     pe_lon := Some (Fin (-119.2137));
     pe_locLabel := "@ Oasis";
     pe_isRecurring := false;
     pe_futureOccurrences := "";
     pe_url := None;
     pe_contactEmail := None;
     pe_allDay := None |}.

(* ===================================================================== *)
(** * Properties *)
(* ===================================================================== *)

(** ** Exceptions *)

Lemma bind_Ok {A B : Type} (m : result A) (f : A -> result B) (b : B) :
  m ≫= f = Ok b <-> exists a, m = Ok a /\ f a = Ok b.
Proof.
  destruct m as [a|msg]; simpl; split.
  - intros H. exists a. split; [reflexivity | exact H].
  - intros (a' & Ha & Hf). injection Ha as ->. exact Hf.
  - discriminate.
  - intros (a' & Ha & _). discriminate Ha.
Qed.

Lemma try_catch_returns {A : Type} (body : result A) (handler : string -> result A) :
  (forall msg, returns (handler msg)) -> returns (try_catch body handler).
Proof.
  intros H. destruct body as [a|msg]; simpl; [exists a; reflexivity | apply H].
Qed.

(** ** The status state machine and the time-window prefilter *)

Section TimeLogic.
Variables start end_ now : Z.

Lemma isActive_spec :
  date_le (Some start) (Some now) && date_le (Some now) (Some end_)
  && tnum_ge (tnum_sub (getTime (Some end_)) (getTime (Some now))) (Some buffer)
  = true <-> activeAt start end_ now.
Proof.
  unfold activeAt, date_le, tnum_ge, tnum_le, tnum_sub, getTime.
  rewrite !andb_true_iff, !Z.leb_le. lia.
Qed.

Lemma status_NOW_iff :
  determineEventStatus (Some start) (Some end_) (Some now) = NOW <-> activeAt start end_ now.
Proof.
  unfold determineEventStatus. rewrite <- isActive_spec.
  destruct (date_le (Some start) (Some now) && date_le (Some now) (Some end_)
            && tnum_ge _ _); [tauto|].
  split; [|discriminate].
  destruct (date_lt _ _); [destruct (tnum_le _ _)|]; discriminate.
Qed.

Lemma status_not_active :
  ~ activeAt start end_ now ->
  determineEventStatus (Some start) (Some end_) (Some now) =
  if now <? start then (if start - now <=? buffer then SOON else UPCOMING) else ENDED.
Proof.
  intros Hn. unfold determineEventStatus.
  destruct (date_le (Some start) (Some now) && date_le (Some now) (Some end_)
            && tnum_ge _ _) eqn:E.
  - apply isActive_spec in E. contradiction.
  - reflexivity.
Qed.

Lemma activeAt_dec : activeAt start end_ now \/ ~ activeAt start end_ now.
Proof. unfold activeAt. lia. Qed.

Lemma status_SOON_iff :
  determineEventStatus (Some start) (Some end_) (Some now) = SOON <-> soonAt start end_ now.
Proof.
  unfold soonAt. split.
  - intros H. destruct activeAt_dec as [Ha|Ha].
    + apply status_NOW_iff in Ha. congruence.
    + rewrite (status_not_active Ha) in H.
      destruct (now <? start) eqn:E1; [|discriminate].
      destruct (start - now <=? buffer) eqn:E2; [|discriminate]. lia.
  - intros [H1 H2]. rewrite status_not_active by (unfold activeAt; lia).
    apply Z.ltb_lt in H1. apply Z.leb_le in H2. rewrite H1, H2. reflexivity.
Qed.

Lemma status_UPCOMING_iff :
  determineEventStatus (Some start) (Some end_) (Some now) = UPCOMING <-> upcomingAt start end_ now.
Proof.
  unfold upcomingAt. split.
  - intros H. destruct activeAt_dec as [Ha|Ha].
    + apply status_NOW_iff in Ha. congruence.
    + rewrite (status_not_active Ha) in H.
      destruct (now <? start) eqn:E1; [|discriminate].
      destruct (start - now <=? buffer) eqn:E2; [discriminate|]. lia.
  - intros [H1 H2]. rewrite status_not_active by (unfold activeAt; lia).
    apply Z.ltb_lt in H1. rewrite H1.
    destruct (start - now <=? buffer) eqn:E2; [lia | reflexivity].
Qed.

Lemma status_ENDED_iff :
  determineEventStatus (Some start) (Some end_) (Some now) = ENDED
  <-> ~ activeAt start end_ now /\ ~ soonAt start end_ now /\ ~ upcomingAt start end_ now.
Proof.
  split.
  - intros H. repeat split; intros Hc.
    + apply status_NOW_iff in Hc. congruence.
    + apply status_SOON_iff in Hc. congruence.
    + apply status_UPCOMING_iff in Hc. congruence.
  - intros (Ha & Hs & Hu). rewrite (status_not_active Ha).
    destruct (now <? start) eqn:E1; [|reflexivity].
    unfold soonAt, upcomingAt in *. lia.
Qed.
End TimeLogic.

(** C2.  The status function is the four-case definition with a buffer of
    fifteen minutes: NOW iff [start <= now <= end] and [end - now >= buffer];
    SOON iff [now < start] and [start - now <= buffer]; UPCOMING iff
    [now < start] and [start - now > buffer]; ENDED in every other case.  An
    occurrence that has started and ends at [now + 15 min] is NOW; one that
    ends at [now + 14 min] is ENDED. *)
Theorem determineEventStatus_four_cases (start end_ now : Z) :
  let status := determineEventStatus (Some start) (Some end_) (Some now) in
  buffer = 15 * 60000 /\
  (status = NOW <-> start <= now <= end_ /\ end_ - now >= buffer) /\
  (status = SOON <-> now < start /\ start - now <= buffer) /\
  (status = UPCOMING <-> now < start /\ start - now > buffer) /\
  (status = ENDED <->
     ~ (start <= now <= end_ /\ end_ - now >= buffer) /\
     ~ (now < start /\ start - now <= buffer) /\
     ~ (now < start /\ start - now > buffer)) /\
  (start <= now ->
     determineEventStatus (Some start) (Some (now + 15 * 60000)) (Some now) = NOW) /\
  (start <= now ->
     determineEventStatus (Some start) (Some (now + 14 * 60000)) (Some now) = ENDED).
Proof.
  cbv zeta. split; [reflexivity|].
  split; [apply status_NOW_iff|].
  split; [apply status_SOON_iff|].
  split; [apply status_UPCOMING_iff|].
  split; [apply status_ENDED_iff|].
  split; intros Hs.
  - apply status_NOW_iff. unfold activeAt, buffer. lia.
  - apply status_ENDED_iff. unfold activeAt, soonAt, upcomingAt, buffer. lia.
Qed.

(** The prefilter with the cutoff [processEvents] builds: the second
    alternative needs the cutoff to be a date. *)
Lemma passesTimeFilter_spec (start end_ now timeWindow : Z) (status : EventStatus) :
  passesTimeFilter (Some start) (Some end_) (Some now)
    (Date_of_time (tnum_add (getTime (Some now)) (Some (timeWindow * 60 * 1000))))
    status = true
  <-> (start <= now <= end_ /\ end_ - now >= 15 * 60000)
      \/ (now < start /\ start <= now + timeWindow * 60000
          /\ Z.abs (now + timeWindow * 60000) <= maxTime).
Proof.
  unfold passesTimeFilter. rewrite orb_true_iff, isActive_spec.
  unfold activeAt, buffer, date_lt, date_le, tnum_lt, tnum_le, tnum_add,
    Date_of_time, TimeClip, getTime.
  replace (now + timeWindow * 60 * 1000) with (now + timeWindow * 60000) by lia.
  destruct (Z.leb_spec (Z.abs (now + timeWindow * 60000)) maxTime) as [Hc|Hc].
  - rewrite andb_true_iff, Z.ltb_lt, Z.leb_le. lia.
  - rewrite andb_false_r. split; [intros [H|H]; [left; lia | discriminate H]|].
    intros [H|H]; [left; lia | lia].
Qed.

(** An occurrence the prefilter rejects yields nothing, whatever the
    location, the distance, the type and the other filters would say. *)
Lemma processOccurrence_prefilter env self lat lon radius now upcomingCutoff
    eventTypes showOnlyActive showOnlyUpcoming showOnlyFavorites favoriteIds
    event occurrence s1 s2 :
  start_time occurrence = Some s1 -> end_time occurrence = Some s2 ->
  passesTimeFilter (Date_parse env s1) (Date_parse env s2) now upcomingCutoff
    (determineEventStatus (Date_parse env s1) (Date_parse env s2) now) = false ->
  processOccurrence env self lat lon radius now upcomingCutoff eventTypes
    showOnlyActive showOnlyUpcoming showOnlyFavorites favoriteIds event occurrence
  = Ok [].
Proof.
  intros H1 H2 Hf. unfold processOccurrence. rewrite H1, H2. simpl.
  destruct (isEmpty s1); simpl; [reflexivity|].
  destruct (isEmpty s2); simpl; [reflexivity|].
  rewrite Hf. reflexivity.
Qed.

(** ** No emitted record is ENDED *)

Lemma passesTimeFilter_not_ENDED (start end_ now upcomingCutoff : Date) status :
  passesTimeFilter start end_ now upcomingCutoff status = true ->
  determineEventStatus start end_ now <> ENDED.
Proof.
  unfold passesTimeFilter, determineEventStatus.
  destruct (date_le start now && date_le now end_ && tnum_ge _ _); [discriminate|].
  simpl. intros H. apply andb_true_iff in H as [H _]. rewrite H.
  destruct (tnum_le _ _); discriminate.
Qed.

Lemma for_of_In {A B : Type} (body : A -> result (list B)) (l : list A) out y :
  for_of body l = Ok out -> In y out ->
  exists x o, In x l /\ body x = Ok o /\ In y o.
Proof.
  revert out. induction l as [|x l IH]; simpl; intros out H Hy.
  - injection H as <-. destruct Hy.
  - apply bind_Ok in H as (o & Ho & H).
    apply bind_Ok in H as (rest & Hrest & H). injection H as <-.
    apply in_app_or in Hy as [Hy|Hy].
    + exists x, o. auto.
    + destruct (IH rest Hrest Hy) as (x' & o' & Hin & Hb & Hy').
      exists x', o'. auto.
Qed.

Lemma for_of_returns {A B : Type} (body : A -> result (list B)) (l : list A) :
  (forall x, In x l -> returns (body x)) -> returns (for_of body l).
Proof.
  induction l as [|x l IH]; simpl; intros H.
  - exists []. reflexivity.
  - destruct (H x (or_introl eq_refl)) as [o ->].
    destruct IH as [rest ->]; [intros; apply H; right; assumption|].
    simpl. eexists. reflexivity.
Qed.

(** What the loop body emits: at most one record, whose status is the one
    computed from the parsed dates, which passed the prefilter. *)
Lemma processOccurrence_emits env self lat lon radius now upcomingCutoff
    eventTypes showOnlyActive showOnlyUpcoming showOnlyFavorites favoriteIds
    event occurrence out pe :
  processOccurrence env self lat lon radius now upcomingCutoff eventTypes
    showOnlyActive showOnlyUpcoming showOnlyFavorites favoriteIds event occurrence
  = Ok out ->
  In pe out ->
  exists start end_,
    pe_start pe = start /\ pe_end pe = end_ /\
    pe_status pe = determineEventStatus start end_ now /\
    passesTimeFilter start end_ now upcomingCutoff (pe_status pe) = true.
Proof.
  unfold processOccurrence. intros H Hin.
  destruct (truthy (start_time occurrence));
    [|injection H as <-; destruct Hin].
  destruct (truthy (end_time occurrence));
    [|injection H as <-; destruct Hin].
  destruct (passesTimeFilter _ _ _ _ _) eqn:Hp; simpl in H;
    [|injection H as <-; destruct Hin].
  apply bind_Ok in H as (li & _ & H).
  repeat match type of H with
         | (if ?b then Ok [] else _) = Ok _ =>
             destruct b; [injection H as <-; destruct Hin|]
         end.
  injection H as <-. destruct Hin as [<-|[]]. simpl.
  eexists _, _. repeat split. exact Hp.
Qed.

(** C10.  Every record [processEvents] returns has status NOW, SOON or
    UPCOMING; none is ENDED, for every data set and every choice of
    parameters. *)
Theorem processEvents_never_ENDED env searchParams out pe :
  processEvents env searchParams = Ok out ->
  In pe out ->
  pe_status pe = NOW \/ pe_status pe = SOON \/ pe_status pe = UPCOMING.
Proof.
  unfold processEvents. intros H Hin.
  apply bind_Ok in H as (events & _ & H).
  apply bind_Ok in H as (artMap & _ & H).
  apply bind_Ok in H as (campMap & _ & H).
  apply bind_Ok in H as (favoriteIds & _ & H).
  destruct (for_of_In _ _ _ _ H Hin) as (event & o & _ & Ho & Hino).
  destruct (for_of_In _ _ _ _ Ho Hino) as (occ & o' & _ & Ho' & Hino').
  destruct (processOccurrence_emits _ _ _ _ _ _ _ _ _ _ _ _ _ _ _ _ Ho' Hino')
    as (start & end_ & _ & _ & Hst & Hp).
  apply passesTimeFilter_not_ENDED in Hp. rewrite <- Hst in Hp.
  destruct (pe_status pe); auto. contradiction.
Qed.

Example iso_epoch : Scenario.Date_parse_iso "1970-01-01T00:00:00Z" = Some 0.
Proof. reflexivity. Qed.

Example iso_2025 :
  Scenario.Date_parse_iso "2025-08-27T10:00:00Z" = Some 1756288800000.
Proof. reflexivity. Qed.

Example iso_malformed : Scenario.Date_parse_iso "bad" = None.
Proof. reflexivity. Qed.

Lemma processEvents_never_ENDED_witness :
  processEvents (Scenario.device [sunsetYoga] ∅ ∅ ∅ 0)
    (Scenario.at_ "2025-08-27T09:50:00Z" Scenario.noParams)
  = Ok [sunsetYoga_processed]
  /\ (pe_status sunsetYoga_processed = NOW
      \/ pe_status sunsetYoga_processed = SOON
      \/ pe_status sunsetYoga_processed = UPCOMING).
Proof.
  split; [vm_compute; reflexivity|].
  apply (processEvents_never_ENDED
           (Scenario.device [sunsetYoga] ∅ ∅ ∅ 0)
           (Scenario.at_ "2025-08-27T09:50:00Z" Scenario.noParams)
           [sunsetYoga_processed]).
  - vm_compute. reflexivity.
  - left. reflexivity.
Defined.

(** ** The two countdown formatters *)

Lemma formatCountdown_nonneg_hours (minutes : Z) :
  (-60 < minutes) -> EventProcessor.formatCountdown minutes = TimeUtils.formatCountdown minutes.
Proof.
  intros H. unfold EventProcessor.formatCountdown, TimeUtils.formatCountdown.
  destruct (Z.abs minutes <? 60) eqn:E; [reflexivity|].
  apply Z.ltb_ge in E.
  assert (Hm : (minutes <? 0) = false) by (apply Z.ltb_ge; lia).
  rewrite Hm. cbv zeta. reflexivity.
Qed.

Lemma formatCountdown_negative_hours (minutes : Z) :
  (minutes <= -60) ->
  EventProcessor.formatCountdown minutes = "-" +:+ TimeUtils.formatCountdown minutes.
Proof.
  intros H. unfold EventProcessor.formatCountdown, TimeUtils.formatCountdown.
  assert (E : (Z.abs minutes <? 60) = false) by (apply Z.ltb_ge; lia).
  assert (Hm : (minutes <? 0) = true) by (apply Z.ltb_lt; lia).
  rewrite E, Hm. cbv zeta.
  destruct (Z.rem (Z.abs minutes) 60 =? 0); reflexivity.
Qed.

(** C9, as the code has it.  The two formatters agree on every input above
    minus one hour; from minus one hour downwards the processor's formatter
    prints a leading minus sign that the time utilities' formatter omits. *)
Theorem formatCountdown_agreement (minutes : Z) :
  ((-60 < minutes) ->
   EventProcessor.formatCountdown minutes = TimeUtils.formatCountdown minutes) /\
  ((minutes <= -60) ->
   EventProcessor.formatCountdown minutes
   = "-" +:+ TimeUtils.formatCountdown minutes).
Proof.
  split; [apply formatCountdown_nonneg_hours | apply formatCountdown_negative_hours].
Qed.

Lemma formatCountdown_agreement_witness :
  EventProcessor.formatCountdown (-45) = TimeUtils.formatCountdown (-45)
  /\ EventProcessor.formatCountdown (-150) = "-" +:+ TimeUtils.formatCountdown (-150).
Proof.
  split.
  - apply (proj1 (formatCountdown_agreement (-45))). lia.
  - apply (proj2 (formatCountdown_agreement (-150))). lia.
Defined.

(** C9 as stated fails: at minus ninety minutes the two formatters print
    different strings. *)
Lemma formatCountdown_differ :
  EventProcessor.formatCountdown (-90) = "-1h 30m"
  /\ TimeUtils.formatCountdown (-90) = "1h 30m"
  /\ EventProcessor.formatCountdown (-90) <> TimeUtils.formatCountdown (-90).
Proof.
  split; [reflexivity|]. split; [reflexivity|]. discriminate.
Qed.

(** ** Location resolution never lets a parse error out *)

Lemma resolveEventLocation_no_art self event :
  linkedArt self event = None ->
  resolveEventLocation self event =
  match linkedCamp self event ≫= campAddress with
  | Some location =>
      try_catch
        (coords ← coordOf location;
         Ok {| li_lat := Some (lat coords); li_lon := Some (lon coords);
               li_label := "@ [" +:+ location +:+ "]"; li_source := camp |})
        (fun _ => Ok (labelOnly ("@ [" +:+ location +:+ "]") camp))
  | None =>
      if truthy (other_location event) then
        let location := default "" (other_location event) in
        try_catch
          (coords ← coordOf location;
           Ok {| li_lat := Some (lat coords); li_lon := Some (lon coords);
                 li_label := location; li_source := other |})
          (fun _ => Ok (labelOnly location other))
      else Ok (labelOnly "Location TBD" unknown)
  end.
Proof.
  unfold linkedArt, linkedCamp, resolveEventLocation, campAddress. intros Ha.
  destruct (located_at_art event) as [artUid|], (artMapCache self) as [artMap|];
    try (destruct (isEmpty artUid)); try (rewrite Ha); try discriminate Ha;
    (destruct (hosted_by_camp event) as [campUid|],
       (campMapCache self) as [campMap|]; simpl; try reflexivity;
     destruct (isEmpty campUid); simpl; try reflexivity;
     destruct (campMap !! campUid) as [c|]; simpl; try reflexivity;
     destruct (location_string c) as [loc|]; simpl; try reflexivity;
     destruct (isEmpty loc); simpl; reflexivity).
Qed.

Lemma resolveEventLocation_returns self event :
  returns (resolveEventLocation self event).
Proof.
  destruct (linkedArt self event) as [a|] eqn:Ha.
  - unfold linkedArt in Ha. unfold resolveEventLocation.
    destruct (located_at_art event) as [artUid|], (artMapCache self) as [artMap|];
      try discriminate Ha.
    destruct (isEmpty artUid); [discriminate Ha|]. rewrite Ha.
    eexists. reflexivity.
  - rewrite (resolveEventLocation_no_art _ _ Ha).
    destruct (linkedCamp self event ≫= campAddress) as [location|].
    + apply try_catch_returns. intros _. eexists. reflexivity.
    + destruct (truthy (other_location event)).
      * apply try_catch_returns. intros _. eexists. reflexivity.
      * eexists. reflexivity.
Qed.

Lemma processOccurrence_returns env self lat lon radius now upcomingCutoff
    eventTypes showOnlyActive showOnlyUpcoming showOnlyFavorites favoriteIds
    event occurrence :
  returns (processOccurrence env self lat lon radius now upcomingCutoff eventTypes
             showOnlyActive showOnlyUpcoming showOnlyFavorites favoriteIds
             event occurrence).
Proof.
  unfold processOccurrence.
  destruct (truthy (start_time occurrence)); [|eexists; reflexivity].
  destruct (truthy (end_time occurrence)); [|eexists; reflexivity].
  destruct (passesTimeFilter _ _ _ _ _); simpl; [|eexists; reflexivity].
  destruct (resolveEventLocation_returns self event) as [li ->]. simpl.
  repeat match goal with
         | |- returns (if ?b then Ok [] else _) =>
             destruct b; [eexists; reflexivity|]
         end.
  eexists. reflexivity.
Qed.

Lemma processEvents_returns env searchParams :
  (forall year, returns (loadEvents env year)) ->
  returns (getArtMap env) -> returns (getCampMap env) ->
  returns (getFavoriteIds env) ->
  returns (processEvents env searchParams).
Proof.
  intros He [artMap Ha] [campMap Hc] [ids Hf]. unfold processEvents.
  destruct (He (default AppConfig.defaultYear (sp_year searchParams)))
    as [events Hev].
  rewrite Hev, Ha, Hc. simpl.
  assert (Hfav : returns
            (if default false (sp_showOnlyFavorites searchParams)
             then ids ← getFavoriteIds env; Ok (Some ids) else Ok None)).
  { destruct (default false _); [rewrite Hf|]; eexists; reflexivity. }
  destruct Hfav as [favoriteIds ->]. simpl.
  apply for_of_returns. intros event _.
  apply for_of_returns. intros occurrence _.
  apply processOccurrence_returns.
Qed.

(** C5, as the code has it.  No parse error of the address resolver
    leaves location resolution.  Resolution always returns.  When no art
    installation resolves and the linked camp is found with an address that
    does not parse, the result is the label-only record of source camp; when
    neither art nor a camp address resolves and the free-text location is
    not empty and does not parse, the result is that string as label, of
    source other, both with null coordinates.  With its collaborators
    returning, [processEvents] returns. *)
Theorem parse_errors_are_caught (self : EventProcessor) (event : RawEvent) :
  returns (resolveEventLocation self event) /\
  (forall c location,
     linkedArt self event = None ->
     linkedCamp self event = Some c ->
     campAddress c = Some location ->
     throws (coordOf location) ->
     resolveEventLocation self event
     = Ok (labelOnly ("@ [" +:+ location +:+ "]") camp)) /\
  (forall location,
     linkedArt self event = None ->
     linkedCamp self event ≫= campAddress = None ->
     other_location event = Some location -> location <> "" ->
     throws (coordOf location) ->
     resolveEventLocation self event = Ok (labelOnly location other)) /\
  (forall env searchParams,
     (forall year, returns (loadEvents env year)) ->
     returns (getArtMap env) -> returns (getCampMap env) ->
     returns (getFavoriteIds env) ->
     returns (processEvents env searchParams)).
Proof.
  split; [apply resolveEventLocation_returns|].
  split; [|split].
  - intros c location Ha Hc Hl [msg Hthrow].
    rewrite (resolveEventLocation_no_art _ _ Ha), Hc. simpl. rewrite Hl, Hthrow.
    reflexivity.
  - intros location Ha Hc Ho Hne [msg Hthrow].
    rewrite (resolveEventLocation_no_art _ _ Ha), Hc, Ho. simpl.
    destruct location as [|ch location]; [contradiction|]. simpl.
    rewrite Hthrow. reflexivity.
  - intros env searchParams. apply processEvents_returns.
Qed.

Lemma parse_errors_are_caught_witness :
  resolveEventLocation loaded campEvent
  = Ok (labelOnly "@ [somewhere out there]" camp)
  /\ resolveEventLocation loaded walkInEvent
     = Ok (labelOnly "Deep playa, look for the lights" other)
  /\ returns (processEvents
                (Scenario.device [campEvent; walkInEvent] ∅
                   {[ "c1" := lostCamp ]} ∅ 0)
                (Scenario.at_ "2025-08-27T09:50:00Z" Scenario.noParams)).
Proof.
  split; [|split].
  - apply (proj1 (proj2 (parse_errors_are_caught loaded campEvent)) lostCamp
             "somewhere out there");
      [reflexivity | vm_compute; reflexivity | reflexivity
      | eexists; vm_compute; reflexivity].
  - apply (proj1 (proj2 (proj2 (parse_errors_are_caught loaded walkInEvent)))
             "Deep playa, look for the lights");
      [reflexivity | vm_compute; reflexivity | reflexivity | discriminate
      | eexists; vm_compute; reflexivity].
  - apply (proj2 (proj2 (proj2 (parse_errors_are_caught loaded campEvent))));
      [intros year | | | ]; eexists; reflexivity.
Defined.

(** C5 as stated fails where an earlier link of the event resolves: the
    camp of the first tea is found and its address does not parse, yet the
    location is the art installation's, with coordinates and of source art;
    the free-text place of the second tea does not parse, yet the location
    is the camp's label, of source camp. *)
Lemma earlier_link_wins :
  linkedCamp loadedWithArt lineTea = Some lostCamp
  /\ campAddress lostCamp = Some "somewhere out there"
  /\ coordOf "somewhere out there" = Throw "Invalid location: somewhere out there"
  /\ resolveEventLocation loadedWithArt lineTea
     = Ok {| li_lat := Some (Fin 0); li_lon := Some (Fin (-119.2137));
             li_label := "@ Line in the sand"; li_source := art |}
  /\ other_location campTea = Some "Deep playa, look for the lights"
  /\ coordOf "Deep playa, look for the lights"
     = Throw "Invalid location: Deep playa, look for the lights"
  /\ resolveEventLocation loadedWithArt campTea
     = Ok (labelOnly "@ [somewhere out there]" camp).
Proof.
  repeat split; vm_compute; reflexivity.
Qed.

(** ** Determinism, and the wall clock *)

(** C7 as stated fails.  The same data, the same parameters and the same
    [now] override (Wednesday 09:50), processed on a device whose clock
    reads Thursday and on one whose clock reads Saturday: the two outputs
    differ in [futureOccurrences], because [getFutureOccurrences] compares
    with [new Date()] and not with the override. *)
Lemma processEvents_reads_wall_clock :
  let searchParams := Scenario.at_ "2025-08-27T09:50:00Z" Scenario.noParams in
  let thursday := 1756339200000 in
  let saturday := 1756512000000 in
  processEvents (Scenario.device [morningClass] ∅ ∅ ∅ thursday) searchParams
  = Ok [morningClass_wednesday "F"]
  /\ processEvents (Scenario.device [morningClass] ∅ ∅ ∅ saturday) searchParams
     = Ok [morningClass_wednesday ""]
  /\ Scenario.Date_parse_iso "2025-08-28T00:00:00Z" = Some thursday
  /\ Scenario.Date_parse_iso "2025-08-30T00:00:00Z" = Some saturday
  /\ processEvents (Scenario.device [morningClass] ∅ ∅ ∅ thursday) searchParams
     <> processEvents (Scenario.device [morningClass] ∅ ∅ ∅ saturday) searchParams.
Proof.
  cbv zeta.
  assert (H1 : processEvents (Scenario.device [morningClass] ∅ ∅ ∅ 1756339200000)
                 (Scenario.at_ "2025-08-27T09:50:00Z" Scenario.noParams)
               = Ok [morningClass_wednesday "F"]) by (vm_compute; reflexivity).
  assert (H2 : processEvents (Scenario.device [morningClass] ∅ ∅ ∅ 1756512000000)
                 (Scenario.at_ "2025-08-27T09:50:00Z" Scenario.noParams)
               = Ok [morningClass_wednesday ""]) by (vm_compute; reflexivity).
  repeat split; try assumption; try reflexivity.
  rewrite H1, H2. discriminate.
Qed.

(** Sorting reads nothing but the list, the strategy and the collation. *)
Lemma sortEvents_ignores_clock env1 env2 events sortType :
  localeCompare env1 = localeCompare env2 ->
  sortEvents env1 events sortType = sortEvents env2 events sortType.
Proof.
  intros H. unfold sortEvents. f_equal.
  unfold comparator. rewrite H. reflexivity.
Qed.

Lemma for_of_map {A B : Type} (f : B -> B) (body body' : A -> result (list B))
    (l : list A) :
  (forall x, body' x = result_map (map f) (body x)) ->
  for_of body' l = result_map (map f) (for_of body l).
Proof.
  intros Hb. induction l as [|x l IH]; simpl; [reflexivity|].
  rewrite Hb, IH. destruct (body x) as [o|msg]; simpl; [|reflexivity].
  destruct (for_of body l) as [rest|msg]; simpl; [|reflexivity].
  rewrite map_app. reflexivity.
Qed.

(** The loop body at another wall clock: the same record, but for its
    list of days. *)
Lemma processOccurrence_clock env t1 t2 artMap campMap events lat lon radius now
    upcomingCutoff eventTypes showOnlyActive showOnlyUpcoming showOnlyFavorites
    favoriteIds event occurrence :
  let self := {| artMapCache := Some artMap; campMapCache := Some campMap;
                 originalEvents := events |} in
  processOccurrence (withClock env t2) self lat lon radius now upcomingCutoff
    eventTypes showOnlyActive showOnlyUpcoming showOnlyFavorites favoriteIds
    event occurrence
  = result_map (map (relisted env events t2))
      (processOccurrence (withClock env t1) self lat lon radius now upcomingCutoff
         eventTypes showOnlyActive showOnlyUpcoming showOnlyFavorites favoriteIds
         event occurrence).
Proof.
  intros self. unfold processOccurrence.
  destruct (truthy (start_time occurrence)); [|reflexivity].
  destruct (truthy (end_time occurrence)); [|reflexivity].
  change (new_Date (withClock env t2)) with (new_Date (withClock env t1)).
  destruct (negb (passesTimeFilter _ _ _ _ _)); [reflexivity|].
  destruct (resolveEventLocation self event) as [li|msg]; [|reflexivity].
  cbn [mbind result_bind].
  repeat match goal with
         | |- (if ?b then Ok [] else _) = result_map _ (if ?b then Ok [] else _) =>
             destruct b; [reflexivity|]
         end.
  reflexivity.
Qed.

Lemma withoutDays_relisted env events t (out : list ProcessedEvent) :
  map (fun pe => withFutureOccurrences pe "") (map (relisted env events t) out)
  = map (fun pe => withFutureOccurrences pe "") out.
Proof. rewrite map_map. reflexivity. Qed.

Lemma processEvents_clock env p now t1 t2 :
  sp_now p = Some now ->
  processEvents (withClock env t2) p
  = match loadEvents env (yearOf p) with
    | Ok events =>
        result_map (map (relisted env events t2)) (processEvents (withClock env t1) p)
    | Throw msg => Throw msg
    end.
Proof.
  intros Hnow. unfold processEvents. rewrite Hnow.
  cbn [default from_option Datatypes.id withClock loadEvents getArtMap getCampMap
       getFavoriteIds].
  fold (yearOf p).
  destruct (loadEvents env (yearOf p)) as [events|msg]; [|reflexivity].
  cbn [mbind result_bind].
  destruct (getArtMap env) as [artMap|msg]; [|reflexivity].
  cbn [mbind result_bind].
  destruct (getCampMap env) as [campMap|msg]; [|reflexivity].
  cbn [mbind result_bind].
  destruct (default false (sp_showOnlyFavorites p));
    [destruct (getFavoriteIds env) as [ids|msg]; [|reflexivity]|];
    cbn [mbind result_bind];
    apply for_of_map; intros event; apply for_of_map; intros occurrence;
    apply (processOccurrence_clock env t1 t2).
Qed.

(** C7, as the code has it.  With the data, the parameters and the [now]
    override fixed, two runs of [processEvents] at different wall-clock
    times throw the same error or return both, and the second result is the
    first with the [futureOccurrences] of each record listed again against
    the second clock, as step 10 of the pass prescribes; so the two results
    agree record by record in every other field.  [sortEvents] reads no
    clock: two runs return the same list. *)
Theorem processEvents_fixed_now env p (now : Date) (t1 t2 : Z) :
  sp_now p = Some now ->
  (forall msg,
     processEvents (withClock env t1) p = Throw msg ->
     processEvents (withClock env t2) p = Throw msg) /\
  (forall out1,
     processEvents (withClock env t1) p = Ok out1 ->
     exists events out2,
       loadEvents env (yearOf p) = Ok events /\
       processEvents (withClock env t2) p = Ok out2 /\
       out2 = map (relisted env events t2) out1 /\
       map (fun pe => withFutureOccurrences pe "") out2
       = map (fun pe => withFutureOccurrences pe "") out1) /\
  (forall events sortType,
     sortEvents (withClock env t1) events sortType
     = sortEvents (withClock env t2) events sortType).
Proof.
  intros Hnow. pose proof (processEvents_clock env p now t1 t2 Hnow) as Hc.
  split; [|split].
  - intros msg H. rewrite Hc, H.
    destruct (loadEvents env (yearOf p)) as [events|msg'] eqn:E; [reflexivity|].
    unfold processEvents in H. cbn [withClock loadEvents] in H.
    fold (yearOf p) in H. rewrite E in H. cbn in H. congruence.
  - intros out1 H. rewrite H in Hc.
    destruct (loadEvents env (yearOf p)) as [events|msg'] eqn:E.
    + exists events, (map (relisted env events t2) out1).
      split; [reflexivity|]. split; [exact Hc|]. split; [reflexivity|].
      apply withoutDays_relisted.
    + unfold processEvents in H. cbn [withClock loadEvents] in H.
      fold (yearOf p) in H. rewrite E in H. discriminate H.
  - intros events sortType. apply sortEvents_ignores_clock. reflexivity.
Qed.

Lemma processEvents_fixed_now_witness :
  exists events out2,
    loadEvents (Scenario.device [morningClass] ∅ ∅ ∅ 0) 2025 = Ok events /\
    processEvents
      (withClock (Scenario.device [morningClass] ∅ ∅ ∅ 0) 1756512000000)
      (Scenario.at_ "2025-08-27T09:50:00Z" Scenario.noParams) = Ok out2 /\
    out2 = map (relisted (Scenario.device [morningClass] ∅ ∅ ∅ 0) events 1756512000000)
             [morningClass_wednesday "F"] /\
    map (fun pe => withFutureOccurrences pe "") out2
    = map (fun pe => withFutureOccurrences pe "") [morningClass_wednesday "F"].
Proof.
  apply (proj1 (proj2 (processEvents_fixed_now
                         (Scenario.device [morningClass] ∅ ∅ ∅ 0)
                         (Scenario.at_ "2025-08-27T09:50:00Z" Scenario.noParams)
                         (Some 1756288200000) 1756339200000 1756512000000
                         eq_refl))).
  vm_compute. reflexivity.
Defined.

(** ** The distance filter *)

Local Open Scope R_scope.

Lemma num_gt_Fin (x y : R) : num_gt (Fin x) (Fin y) = true <-> y < x.
Proof.
  unfold num_gt, num_lt. destruct (Rlt_dec y x); split; intros H;
    try reflexivity; try assumption; try discriminate; contradiction.
Qed.

Lemma num_truthy_zero : num_truthy (Fin 0) = false.
Proof. unfold num_truthy. destruct (Req_dec_T 0 0); [reflexivity | contradiction]. Qed.

Lemma num_truthy_Fin (x : R) : x <> 0 -> num_truthy (Fin x) = true.
Proof. intros H. unfold num_truthy. destruct (Req_dec_T x 0); [contradiction | reflexivity]. Qed.

(** Divisions and remainders by the non-zero constants of the source. *)
Ltac constant_divisors :=
  repeat (simpl;
          match goal with
          | |- context [Req_dec_T ?y 0] =>
              destruct (Req_dec_T y 0) as [?Hz|?Hnz]; [exfalso; lra|]
          end).

Lemma PI_gt_3 : 3 < PI.
Proof. pose proof PI2_3_2. lra. Qed.

(** The haversine formula on finite arguments, when the square root and the
    arc sine are defined. *)
Lemma haversineMeters_Fin (a b c d : R) :
  let aa :=
    sin ((c - a) * PI / 180 / 2) * sin ((c - a) * PI / 180 / 2)
    + cos (a * PI / 180) * cos (c * PI / 180)
      * (sin ((d - b) * PI / 180 / 2) * sin ((d - b) * PI / 180 / 2)) in
  0 <= aa -> sqrt aa <= 1 ->
  haversineMeters (Fin a) (Fin b) (Fin c) (Fin d)
  = Fin (2 * 6371000 * asin (sqrt aa)).
Proof.
  intros aa H0 H1. unfold haversineMeters, sqr, Math_sin, Math_cos, Math_PI, R_earth.
  constant_divisors. simpl. fold aa. destruct (Rle_dec 0 aa); [|contradiction].
  unfold Math_asin.
  destruct (Rle_dec (-1) (sqrt aa)) as [_|Hn];
    [|exfalso; apply Hn; pose proof (sqrt_pos aa); lra].
  destruct (Rle_dec (sqrt aa) 1); [|contradiction].
  reflexivity.
Qed.

(** Due south along a meridian the distance is the arc between the
    latitudes. *)
Lemma haversineMeters_to_equator (a l : R) :
  0 <= a <= 90 ->
  haversineMeters (Fin a) (Fin l) (Fin 0) (Fin l)
  = Fin (2 * 6371000 * (a * PI / 360)).
Proof.
  intros Ha. pose proof PI_gt_3 as Hpi.
  set (x := a * PI / 360).
  assert (Hx : 0 <= x <= PI / 2) by (unfold x; split; nra).
  assert (Hs : 0 <= sin x) by (apply sin_ge_0; lra).
  assert (Haa :
    sin ((0 - a) * PI / 180 / 2) * sin ((0 - a) * PI / 180 / 2)
    + cos (a * PI / 180) * cos (0 * PI / 180)
      * (sin ((l - l) * PI / 180 / 2) * sin ((l - l) * PI / 180 / 2))
    = sin x * sin x).
  { replace ((0 - a) * PI / 180 / 2) with (- x) by (unfold x; field).
    replace ((l - l) * PI / 180 / 2) with 0 by field.
    rewrite sin_neg, sin_0. ring. }
  rewrite haversineMeters_Fin; rewrite Haa.
  - rewrite sqrt_square by assumption. rewrite asin_sin by lra. reflexivity.
  - nra.
  - rewrite sqrt_square by assumption. pose proof (SIN_bound x). lra.
Qed.

Local Close Scope R_scope.

(** The part of the distance step that holds: an occurrence without a
    resolved coordinate is emitted or not whatever the radius is, and then
    with a null distance. *)
Lemma unresolved_never_distance_filtered env self lat lon radius radius' now
    upcomingCutoff eventTypes showOnlyActive showOnlyUpcoming showOnlyFavorites
    favoriteIds event occurrence li :
  resolveEventLocation self event = Ok li ->
  li_lat li = None \/ li_lon li = None ->
  processOccurrence env self lat lon radius now upcomingCutoff eventTypes
    showOnlyActive showOnlyUpcoming showOnlyFavorites favoriteIds event occurrence
  = processOccurrence env self lat lon radius' now upcomingCutoff eventTypes
      showOnlyActive showOnlyUpcoming showOnlyFavorites favoriteIds event occurrence
  /\ forall out pe,
       processOccurrence env self lat lon radius now upcomingCutoff eventTypes
         showOnlyActive showOnlyUpcoming showOnlyFavorites favoriteIds
         event occurrence = Ok out ->
       In pe out -> pe_distance pe = None.
Proof.
  intros Hli Hnone. unfold processOccurrence. rewrite Hli.
  assert (Hloc : from_option Number_isFinite false lat
                 && from_option Number_isFinite false lon
                 && from_option num_truthy false (li_lat li)
                 && from_option num_truthy false (li_lon li) = false).
  { destruct Hnone as [-> | ->]; simpl; rewrite ?andb_false_r; reflexivity. }
  destruct (truthy (start_time occurrence)); [|split; [reflexivity|]];
    [|intros out pe H; injection H as <-; intros []].
  destruct (truthy (end_time occurrence)); [|split; [reflexivity|]];
    [|intros out pe H; injection H as <-; intros []].
  destruct (passesTimeFilter _ _ _ _ _); cbn [negb];
    [|split; [reflexivity|intros out pe H; injection H as <-; intros []]].
  cbn [mbind result_bind]. rewrite Hloc. cbn [andb].
  split; [reflexivity|]. intros out pe H Hin.
  repeat match type of H with
         | (if ?b then Ok [] else _) = Ok _ =>
             destruct b; [injection H as <-; destruct Hin|]
         end.
  injection H as <-. destruct Hin as [<-|[]]. reflexivity.
Qed.

(** With a viewer and a resolved coordinate whose latitude and longitude
    are both non-zero, the occurrence is dropped exactly when the haversine
    distance exceeds the radius, and otherwise carries that distance. *)
Lemma located_distance_filter env self radius now upcomingCutoff eventTypes
    showOnlyActive showOnlyUpcoming showOnlyFavorites favoriteIds event occurrence
    li (vlat vlon clat clon : R) :
  resolveEventLocation self event = Ok li ->
  li_lat li = Some (Fin clat) -> li_lon li = Some (Fin clon) ->
  clat <> 0%R -> clon <> 0%R ->
  let distance := haversineMeters (Fin vlat) (Fin vlon) (Fin clat) (Fin clon) in
  let run :=
    processOccurrence env self (Some (Fin vlat)) (Some (Fin vlon)) radius now
      upcomingCutoff eventTypes showOnlyActive showOnlyUpcoming showOnlyFavorites
      favoriteIds event occurrence in
  (num_gt distance radius = true -> run = Ok []) /\
  (forall out pe, run = Ok out -> In pe out ->
     pe_distance pe = Some distance /\ num_gt distance radius = false).
Proof.
  intros Hli Hlat Hlon Hclat Hclon distance run. unfold run, processOccurrence.
  destruct (truthy (start_time occurrence));
    [|split; [reflexivity|intros out pe H; injection H as <-; intros []]].
  destruct (truthy (end_time occurrence));
    [|split; [reflexivity|intros out pe H; injection H as <-; intros []]].
  destruct (passesTimeFilter _ _ _ _ _); cbn [negb];
    [|split; [reflexivity|intros out pe H; injection H as <-; intros []]].
  rewrite Hli. cbn [mbind result_bind]. rewrite Hlat, Hlon.
  unfold from_option, Datatypes.id. cbn [Number_isFinite andb].
  rewrite (num_truthy_Fin clat Hclat), (num_truthy_Fin clon Hclon). cbn [andb].
  fold distance.
  destruct (num_gt distance radius) eqn:E.
  - split; [reflexivity|intros out pe H; injection H as <-; intros []].
  - split; [discriminate|]. intros out pe H Hin.
    repeat match type of H with
           | (if ?b then Ok [] else _) = Ok _ =>
               destruct b; [injection H as <-; destruct Hin|]
           end.
    injection H as <-. destruct Hin as [<-|[]]. split; reflexivity.
Qed.

(** C4, at a failing input.  The viewer location is supplied and the art
    installation resolves to the coordinate (0, -119.2137), more than 1000
    metres away; the occurrence is nevertheless kept, with a null distance,
    because the distance step tests the latitude for truthiness and zero is
    falsy. *)
Theorem distance_filter_skips_zero_latitude :
  resolveEventLocation
    {| artMapCache := Some {[ "a1" := equatorArt ]}; campMapCache := Some ∅;
       originalEvents := [artTour] |} artTour
  = Ok {| li_lat := Some (Fin 0); li_lon := Some (Fin (-119.2137));
          li_label := "@ Line in the sand"; li_source := art |}
  /\ num_gt (haversineMeters (Fin 40.7741) (Fin (-119.2137))
                             (Fin 0) (Fin (-119.2137)))
            (num_of_Z 1000) = true
  /\ processEvents (Scenario.device [artTour] {[ "a1" := equatorArt ]} ∅ ∅ 0)
       viewerParams
     = Ok [artTour_processed].
Proof.
  split; [|split].
  - unfold resolveEventLocation. simpl. rewrite lookup_singleton_eq. reflexivity.
  - rewrite haversineMeters_to_equator by lra.
    apply num_gt_Fin. pose proof PI_gt_3. nra.
  - unfold processEvents, Scenario.device, viewerParams. simpl.
    unfold processOccurrence. simpl.
    replace (Scenario.Date_parse_iso "2025-08-27T10:00:00Z")
      with (Some 1756288800000) by (vm_compute; reflexivity).
    replace (Scenario.Date_parse_iso "2025-08-27T11:00:00Z")
      with (Some 1756292400000) by (vm_compute; reflexivity).
    simpl. unfold resolveEventLocation. simpl.
    rewrite lookup_singleton_eq. simpl.
    destruct (Req_dec_T 0 0) as [_|Hn]; [|contradiction]. simpl.
    reflexivity.
Qed.

(** ** Facts about the string runtime *)

Lemma append_cons ch a b : String ch a +:+ b = String ch (a +:+ b).
Proof. reflexivity. Qed.

Lemma append_nil b : "" +:+ b = b.
Proof. reflexivity. Qed.

Lemma all_app p a b : all p (a +:+ b) = all p a && all p b.
Proof.
  induction a as [|ch a IH]; simpl; [reflexivity|].
  rewrite IH. apply andb_assoc.
Qed.

Lemma all_impl (p q : ascii -> bool) s :
  (forall ch, p ch = true -> q ch = true) -> all p s = true -> all q s = true.
Proof.
  intros Hpq. induction s as [|ch s IH]; simpl; [reflexivity|].
  intros H. apply andb_true_iff in H as [H1 H2].
  rewrite (Hpq _ H1), (IH H2). reflexivity.
Qed.

Lemma prefix_all p sub s :
  all p s = true -> startsWith sub s = true -> all p sub = true.
Proof.
  revert s. induction sub as [|a sub IH]; intros s Hs Hp; simpl; [reflexivity|].
  destruct s as [|b s]; simpl in Hp; [discriminate|].
  apply andb_true_iff in Hp as [Hab Hp]. apply Ascii.eqb_eq in Hab as ->.
  simpl in Hs. apply andb_true_iff in Hs as [Hb Hs].
  rewrite Hb. simpl. exact (IH s Hs Hp).
Qed.

Lemma includes_all p sub s :
  all p s = true -> includes sub s = true -> all p sub = true.
Proof.
  induction s as [|b s IH]; intros Hs Hi.
  - simpl in Hi. rewrite orb_false_r in Hi. exact (prefix_all p sub _ Hs Hi).
  - cbn [includes] in Hi. apply orb_true_iff in Hi as [Hi|Hi].
    + exact (prefix_all p sub _ Hs Hi).
    + simpl in Hs. apply andb_true_iff in Hs as [_ Hs]. exact (IH Hs Hi).
Qed.

Lemma includes_excluded p sub s :
  all p s = true -> all p sub = false -> includes sub s = false.
Proof.
  intros Hs Hsub. destruct (includes sub s) eqn:E; [|reflexivity].
  rewrite (includes_all p sub s Hs E) in Hsub. discriminate.
Qed.

Lemma includes_skip sub a s : includes sub s = true -> includes sub (a +:+ s) = true.
Proof.
  intros H. induction a as [|ch a IH]; simpl; [exact H|].
  rewrite IH. apply orb_true_r.
Qed.

Lemma prefix_app sub b : startsWith sub (sub +:+ b) = true.
Proof.
  induction sub as [|a sub IH]; simpl; [reflexivity|].
  rewrite Ascii.eqb_refl. exact IH.
Qed.

Lemma includes_of_prefix sub s : startsWith sub s = true -> includes sub s = true.
Proof. intros H. destruct s; cbn [includes]; rewrite H; reflexivity. Qed.

Lemma includes_here sub b : includes sub (sub +:+ b) = true.
Proof. apply includes_of_prefix, prefix_app. Qed.

Lemma split_none sep s : all (isNot sep) s = true -> split sep s = [s].
Proof.
  induction s as [|ch s IH]; simpl; [reflexivity|].
  intros H. apply andb_true_iff in H as [H1 H2].
  unfold isNot in H1. apply negb_true_iff in H1. rewrite H1, (IH H2). reflexivity.
Qed.

Lemma split_app sep a b :
  all (isNot sep) a = true -> split sep (a +:+ String sep b) = a :: split sep b.
Proof.
  induction a as [|ch a IH]; simpl.
  - intros _. rewrite Ascii.eqb_refl. reflexivity.
  - intros H. apply andb_true_iff in H as [H1 H2].
    unfold isNot in H1. apply negb_true_iff in H1. rewrite H1, (IH H2). reflexivity.
Qed.

Lemma trimStart_nonSpace s : all nonSpace s = true -> trimStart s = s.
Proof.
  destruct s as [|ch s]; simpl; [reflexivity|].
  intros H. apply andb_true_iff in H as [H1 _].
  unfold nonSpace in H1. apply negb_true_iff in H1. rewrite H1. reflexivity.
Qed.

Lemma trimStart_spaces w a :
  all isSpace w = true -> all nonSpace a = true -> trimStart (w +:+ a) = a.
Proof.
  intros Hw Ha. induction w as [|ch w IH]; simpl.
  - apply trimStart_nonSpace, Ha.
  - simpl in Hw. apply andb_true_iff in Hw as [H1 H2]. rewrite H1. exact (IH H2).
Qed.

Lemma trimEnd_spaces w : all isSpace w = true -> trimEnd w = "".
Proof.
  induction w as [|ch w IH]; simpl; [reflexivity|].
  intros H. apply andb_true_iff in H as [H1 H2].
  rewrite (IH H2), H1. reflexivity.
Qed.

Lemma trimEnd_app a w :
  all nonSpace a = true -> all isSpace w = true -> trimEnd (a +:+ w) = a.
Proof.
  intros Ha Hw. induction a as [|ch a IH]; simpl.
  - apply trimEnd_spaces, Hw.
  - simpl in Ha. apply andb_true_iff in Ha as [H1 H2].
    unfold nonSpace in H1. apply negb_true_iff in H1.
    rewrite (IH H2), H1. reflexivity.
Qed.

Lemma trim_padded_right a w :
  all nonSpace a = true -> all isSpace w = true -> trim (a +:+ w) = a.
Proof.
  intros Ha Hw. unfold trim.
  destruct a as [|ch a].
  - simpl. clear Ha. induction w as [|x w IH]; simpl; [reflexivity|].
    simpl in Hw. apply andb_true_iff in Hw as [H1 H2]. rewrite H1. exact (IH H2).
  - replace (trimStart (String ch a +:+ w)) with (String ch a +:+ w).
    + apply trimEnd_app; assumption.
    + simpl in *. apply andb_true_iff in Ha as [H1 _].
      unfold nonSpace in H1. apply negb_true_iff in H1. rewrite H1. reflexivity.
Qed.

Lemma trimEnd_nonSpace a : all nonSpace a = true -> trimEnd a = a.
Proof.
  induction a as [|ch a IH]; simpl; [reflexivity|].
  intros H. apply andb_true_iff in H as [H1 H2].
  unfold nonSpace in H1. apply negb_true_iff in H1. rewrite (IH H2), H1. reflexivity.
Qed.

Lemma trim_padded_left w a :
  all isSpace w = true -> all nonSpace a = true -> trim (w +:+ a) = a.
Proof.
  intros Hw Ha. unfold trim. rewrite trimStart_spaces by assumption.
  apply trimEnd_nonSpace, Ha.
Qed.

Lemma trim_nonSpace a : all nonSpace a = true -> trim a = a.
Proof. intros Ha. exact (trim_padded_left "" a eq_refl Ha). Qed.

Lemma takeDigits_dropDigits s : takeDigits s +:+ dropDigits s = s.
Proof.
  induction s as [|ch s IH]; simpl; [reflexivity|].
  destruct (isDigit ch); [rewrite append_cons, IH|]; reflexivity.
Qed.

Lemma takeDigits_all s : all isDigit (takeDigits s) = true.
Proof.
  induction s as [|ch s IH]; simpl; [reflexivity|].
  destruct (isDigit ch) eqn:E; simpl; [rewrite E, IH|]; reflexivity.
Qed.

Lemma takeDigits_digits s : all isDigit s = true -> takeDigits s = s.
Proof.
  induction s as [|ch s IH]; simpl; [reflexivity|].
  intros H. apply andb_true_iff in H as [H1 H2]. rewrite H1, (IH H2). reflexivity.
Qed.

Lemma dropDigits_digits s : all isDigit s = true -> dropDigits s = "".
Proof.
  induction s as [|ch s IH]; simpl; [reflexivity|].
  intros H. apply andb_true_iff in H as [H1 H2]. rewrite H1. exact (IH H2).
Qed.

Lemma removeSpaces_nonSpace s : all nonSpace s = true -> removeSpaces s = s.
Proof.
  induction s as [|ch s IH]; simpl; [reflexivity|].
  intros H. apply andb_true_iff in H as [H1 H2].
  unfold nonSpace in H1. apply negb_true_iff in H1. rewrite H1, (IH H2). reflexivity.
Qed.

Lemma toUpperCase_fixed s :
  all (fun ch => Ascii.eqb (toUpper ch) ch) s = true -> toUpperCase s = s.
Proof.
  induction s as [|ch s IH]; simpl; [reflexivity|].
  intros H. apply andb_true_iff in H as [H1 H2].
  apply Ascii.eqb_eq in H1. rewrite H1, (IH H2). reflexivity.
Qed.

Lemma all_toUpperCase q s : all (fun ch => q (toUpper ch)) s = all q (toUpperCase s).
Proof. induction s as [|ch s IH]; simpl; [|rewrite IH]; reflexivity. Qed.

Lemma search_head {A : Type} (at_ : string -> option A) s x :
  at_ s = Some x -> search at_ s = Some x.
Proof. intros H. destruct s; simpl; rewrite H; reflexivity. Qed.

Lemma append_assoc a b c : (a +:+ b) +:+ c = a +:+ (b +:+ c).
Proof.
  induction a as [|ch a IH]; [reflexivity|].
  rewrite !append_cons, IH. reflexivity.
Qed.

Lemma length_append a b :
  String.length (a +:+ b) = (String.length a + String.length b)%nat.
Proof.
  induction a as [|ch a IH]; [reflexivity|].
  rewrite append_cons. simpl. rewrite IH. reflexivity.
Qed.

Lemma takeDigits_app ip ch rest :
  all isDigit ip = true -> isDigit ch = false ->
  takeDigits (ip +:+ String ch rest) = ip.
Proof.
  intros Hip Hch. induction ip as [|d ip IH].
  - simpl. rewrite Hch. reflexivity.
  - simpl in Hip. apply andb_true_iff in Hip as [Hd Hip].
    rewrite append_cons. simpl. rewrite Hd, (IH Hip). reflexivity.
Qed.

Lemma dropDigits_app ip ch rest :
  all isDigit ip = true -> isDigit ch = false ->
  dropDigits (ip +:+ String ch rest) = String ch rest.
Proof.
  intros Hip Hch. induction ip as [|d ip IH].
  - simpl. rewrite Hch. reflexivity.
  - simpl in Hip. apply andb_true_iff in Hip as [Hd Hip].
    rewrite append_cons. simpl. rewrite Hd. exact (IH Hip).
Qed.

(** ** Character classes *)

Ltac each_ascii ch := destruct ch as [[|] [|] [|] [|] [|] [|] [|] [|]].

Lemma clockChar_tokenChar ch : clockChar ch = true -> tokenChar ch = true.
Proof. each_ascii ch; vm_compute; intros H; first [reflexivity | discriminate H]. Qed.

Lemma clockChar_upper ch : clockChar ch = true -> Ascii.eqb (toUpper ch) ch = true.
Proof. each_ascii ch; vm_compute; intros H; first [reflexivity | discriminate H]. Qed.

Lemma ringChar_tokenChar ch : ringChar ch = true -> tokenChar ch = true.
Proof. each_ascii ch; vm_compute; intros H; first [reflexivity | discriminate H]. Qed.

Lemma ringChar_notClock ch :
  ringChar ch = true -> isDigit ch = false /\ isNot ":" ch = true.
Proof.
  each_ascii ch; vm_compute; intros H;
    first [split; reflexivity | discriminate H].
Qed.

Lemma isRingLetter_ringChar ch : isRingLetter ch = true -> ringChar ch = true.
Proof. each_ascii ch; vm_compute; intros H; first [reflexivity | discriminate H]. Qed.

Lemma isDigit_clockChar ch : isDigit ch = true -> clockChar ch = true.
Proof. unfold clockChar. intros ->. reflexivity. Qed.

Lemma isSpace_plain ch :
  isSpace ch = true -> isNot "&" ch = true /\ isNot "z" ch = true.
Proof.
  each_ascii ch; vm_compute; intros H;
    first [split; reflexivity | discriminate H].
Qed.

Lemma tokenChar_nonSpace ch : tokenChar ch = true -> nonSpace ch = true.
Proof. unfold tokenChar. rewrite !andb_true_iff. tauto. Qed.

Lemma tokenChar_notAmp ch : tokenChar ch = true -> isNot "&" ch = true.
Proof. unfold tokenChar. rewrite !andb_true_iff. tauto. Qed.

Lemma tokenChar_notZ ch : tokenChar ch = true -> isNot "z" ch = true.
Proof. unfold tokenChar. rewrite !andb_true_iff. tauto. Qed.

(** ** The shapes of the clock notations and of the ring names *)

Lemma validClock_shape c : validClock c = true -> ClockShape c.
Proof.
  unfold validClock. intros H.
  pose proof (takeDigits_dropDigits c) as Hsplit.
  pose proof (takeDigits_all c) as Hip.
  apply andb_true_iff in H as [H1 H2]. apply Nat.leb_le in H1.
  destruct (dropDigits c) as [|ch rest] eqn:Hrest.
  - apply Nat.leb_le in H2. apply shape_digits.
    + rewrite <- Hsplit. rewrite all_app, Hip. reflexivity.
    + rewrite <- Hsplit, length_append. simpl. lia.
  - destruct (Ascii.eqb ch ":") eqn:Ecolon.
    + apply Ascii.eqb_eq in Ecolon as ->.
      apply andb_true_iff in H2 as [H2 H4]. apply andb_true_iff in H2 as [H2 H3].
      apply Nat.leb_le in H2. apply Nat.eqb_eq in H3.
      apply (shape_colon c (takeDigits c) rest); auto.
    + destruct (Ascii.eqb ch ".") eqn:Edot.
      * apply Ascii.eqb_eq in Edot as ->.
        apply andb_true_iff in H2 as [H2 H3].
        apply (shape_decimal c (takeDigits c) rest); auto.
        destruct rest; [discriminate H2 | discriminate].
      * exfalso. clear -H2 Ecolon Edot.
        each_ascii ch; first [discriminate H2 | discriminate Ecolon | discriminate Edot].
Qed.

Lemma ClockShape_chars c : ClockShape c -> all clockChar c = true.
Proof.
  intros [Hd _ | ip mm -> Hip _ Hmm _ | ip fp -> Hip _ Hfp _].
  - exact (all_impl _ _ _ isDigit_clockChar Hd).
  - rewrite all_app. simpl.
    rewrite (all_impl _ _ _ isDigit_clockChar Hip),
      (all_impl _ _ _ isDigit_clockChar Hmm). reflexivity.
  - rewrite all_app. simpl.
    rewrite (all_impl _ _ _ isDigit_clockChar Hip),
      (all_impl _ _ _ isDigit_clockChar Hfp). reflexivity.
Qed.

Lemma ClockShape_nonempty c : ClockShape c -> isEmpty c = false.
Proof.
  intros [_ Hl | ip mm -> _ Hl _ _ | ip fp -> _ Hl _ _];
    [destruct c | destruct ip | destruct ip]; simpl in *; try reflexivity; lia.
Qed.

Lemma validRing_chars r : validRing r = true -> all ringChar r = true.
Proof.
  unfold validRing. intros H.
  apply orb_true_iff in H as [H|H]; [apply orb_true_iff in H as [H|H]|].
  - destruct r as [|ch [|? ?]]; try discriminate H.
    simpl. rewrite (isRingLetter_ringChar _ H). reflexivity.
  - apply String.eqb_eq in H.
    change (all (fun ch => (fun u => ((65 <=? code u) && (code u <=? 89))%N)
                             (toUpper ch)) r = true).
    rewrite all_toUpperCase, H. reflexivity.
  - apply String.eqb_eq in H.
    change (all (fun ch => (fun u => ((65 <=? code u) && (code u <=? 89))%N)
                             (toUpper ch)) r = true).
    rewrite all_toUpperCase, H. reflexivity.
Qed.

Lemma validRing_nonempty r : validRing r = true -> isEmpty r = false.
Proof. destruct r; [intros H; discriminate H | reflexivity]. Qed.

(** ** The intersection grammar *)

Lemma plaza_skipped s : all (isNot "z") s = true -> coordOf_plaza s = None.
Proof.
  intros H. unfold coordOf_plaza.
  rewrite (includes_excluded (isNot "z") "Plaza" s H eq_refl). reflexivity.
Qed.

Lemma portal_skipped s : includes "&" s = true -> coordOf_portal s = None.
Proof.
  intros H. unfold coordOf_portal. rewrite H, andb_false_r. reflexivity.
Qed.

Lemma intersection_string_assoc a w1 w2 b :
  a +:+ w1 +:+ "&" +:+ w2 +:+ b = (a +:+ w1) +:+ String "&" (w2 +:+ b).
Proof. rewrite append_assoc. reflexivity. Qed.

Lemma intersection_parts a w1 w2 b :
  all tokenChar a = true -> all tokenChar b = true ->
  all isSpace w1 = true -> all isSpace w2 = true ->
  map trim (split "&" (a +:+ w1 +:+ "&" +:+ w2 +:+ b)) = [a; b].
Proof.
  intros Ha Hb Hw1 Hw2.
  rewrite intersection_string_assoc, split_app, split_none.
  - simpl. rewrite trim_padded_right, trim_padded_left; try assumption;
      try (eapply all_impl; [apply tokenChar_nonSpace | assumption]).
    reflexivity.
  - rewrite all_app.
    rewrite (all_impl _ _ _ (fun ch H => proj1 (isSpace_plain ch H)) Hw2),
      (all_impl _ _ _ tokenChar_notAmp Hb). reflexivity.
  - rewrite all_app.
    rewrite (all_impl _ _ _ tokenChar_notAmp Ha),
      (all_impl _ _ _ (fun ch H => proj1 (isSpace_plain ch H)) Hw1). reflexivity.
Qed.

Lemma intersection_string_quiet a w1 w2 b :
  all tokenChar a = true -> all tokenChar b = true ->
  all isSpace w1 = true -> all isSpace w2 = true ->
  all (isNot "z") (a +:+ w1 +:+ "&" +:+ w2 +:+ b) = true
  /\ includes "&" (a +:+ w1 +:+ "&" +:+ w2 +:+ b) = true.
Proof.
  intros Ha Hb Hw1 Hw2. split.
  - rewrite !all_app.
    rewrite (all_impl _ _ _ tokenChar_notZ Ha), (all_impl _ _ _ tokenChar_notZ Hb),
      (all_impl _ _ _ (fun ch H => proj2 (isSpace_plain ch H)) Hw1),
      (all_impl _ _ _ (fun ch H => proj2 (isSpace_plain ch H)) Hw2).
    reflexivity.
  - apply includes_skip, includes_skip, includes_here.
Qed.

Lemma isClockish_clock c :
  ClockShape c -> (String.length (takeDigits c) <= 4)%nat -> isClockish c = true.
Proof.
  intros [Hd Hl | ip mm -> Hip Hl Hmm _ | ip fp -> Hip Hl Hfp Hne] H4; unfold isClockish.
  - rewrite (takeDigits_digits _ Hd), (dropDigits_digits _ Hd).
    destruct Hl as [Hl1 Hl2]. apply Nat.leb_le in Hl1, Hl2. rewrite Hl1, Hl2.
    apply orb_true_r.
  - rewrite includes_skip; [reflexivity|].
    apply (includes_here ":" mm).
  - rewrite takeDigits_app in H4 |- * by (assumption || reflexivity).
    rewrite dropDigits_app by (assumption || reflexivity).
    apply Nat.leb_le in Hl, H4. rewrite Hl, H4, Hfp.
    destruct fp; [contradiction|]. apply orb_true_r.
Qed.

Lemma isClockish_ring r : validRing r = true -> isClockish r = false.
Proof.
  intros Hr. pose proof (validRing_chars r Hr) as Hch.
  pose proof (validRing_nonempty r Hr) as Hne.
  unfold isClockish.
  rewrite (includes_excluded (isNot ":") ":" r); [|  | reflexivity].
  - destruct r as [|ch r]; [discriminate Hne|].
    simpl in Hch. apply andb_true_iff in Hch as [Hc _].
    simpl. rewrite (proj1 (ringChar_notClock ch Hc)). reflexivity.
  - exact (all_impl _ _ _ (fun ch H => proj2 (ringChar_notClock ch H)) Hch).
Qed.

Lemma coordOf_intersection_parts s part1 part2 rest :
  map trim (split "&" s) = part1 :: part2 :: rest ->
  isEmpty part1 = false -> isEmpty part2 = false ->
  coordOf_intersection s =
  if isClockish part1 && negb (isClockish part2) then project part2 part1
  else if isClockish part2 && negb (isClockish part1) then project part1 part2
  else if isEspl part1 && isClockish part2 then project part1 part2
  else if isEspl part2 && isClockish part1 then project part2 part1
  else Throw ("Ambiguous location format: " +:+ s).
Proof.
  intros Hparts H1 H2. unfold coordOf_intersection. rewrite Hparts. simpl.
  rewrite H1, H2. reflexivity.
Qed.

(** ** Every notation and every ring name is accepted by the math layer *)

Lemma bearingFromClock_accepts clockStr :
  let s := removeSpaces (toUpperCase (trim clockStr)) in
  includes ":" s = true
  \/ all isDigit s && (1 <=? String.length s)%nat && (String.length s <=? 4)%nat = true
  \/ negb (isEmpty (takeDigits s)) &&
     match dropDigits s with
     | EmptyString => true
     | String "." fp => negb (isEmpty fp) && all isDigit fp
     | _ => false
     end = true ->
  returns (bearingFromClock clockStr).
Proof.
  intros s H. unfold bearingFromClock. fold s.
  destruct (includes ":" s).
  - destruct (split ":" s); eexists; reflexivity.
  - destruct (all isDigit s && (1 <=? String.length s)%nat
              && (String.length s <=? 4)%nat).
    + destruct (String.length s <=? 2)%nat; eexists; reflexivity.
    + destruct H as [H|[H|H]]; try discriminate H.
      rewrite H. eexists. reflexivity.
Qed.

Lemma clock_normal c : all clockChar c = true -> removeSpaces (toUpperCase (trim c)) = c.
Proof.
  intros H.
  assert (Hns : all nonSpace c = true).
  { eapply all_impl; [|exact H]. intros ch Hc.
    apply tokenChar_nonSpace, clockChar_tokenChar, Hc. }
  rewrite (trim_nonSpace _ Hns).
  rewrite (toUpperCase_fixed c (all_impl _ _ _ clockChar_upper H)).
  apply removeSpaces_nonSpace, Hns.
Qed.

Lemma bearingFromClock_returns c : ClockShape c -> returns (bearingFromClock c).
Proof.
  intros Hs. apply bearingFromClock_accepts.
  rewrite (clock_normal c (ClockShape_chars c Hs)).
  destruct Hs as [Hd Hl | ip mm -> Hip Hl Hmm _ | ip fp -> Hip Hl Hfp Hne].
  - right. left. destruct Hl as [Hl1 Hl2]. apply Nat.leb_le in Hl1, Hl2.
    rewrite Hd, Hl1, Hl2. reflexivity.
  - left. apply includes_skip. apply (includes_here ":" mm).
  - right. right.
    rewrite takeDigits_app, dropDigits_app by (assumption || reflexivity).
    rewrite Hfp. destruct ip; [simpl in Hl; lia|].
    destruct fp; [contradiction | reflexivity].
Qed.

Lemma radiusFeetForRing_returns r : validRing r = true -> returns (radiusFeetForRing r).
Proof.
  intros Hr. pose proof (validRing_chars r Hr) as Hch.
  assert (Hns : all nonSpace r = true).
  { eapply all_impl; [|exact Hch]. intros ch Hc.
    apply tokenChar_nonSpace, ringChar_tokenChar, Hc. }
  unfold radiusFeetForRing. rewrite (trim_nonSpace _ Hns).
  destruct (String.eqb (toUpperCase r) "ESPLANADE" || String.eqb (toUpperCase r) "ESPL")
    eqn:Ekw; [eexists; reflexivity|].
  unfold validRing in Hr. rewrite <- orb_assoc, Ekw, orb_false_r in Hr.
  destruct r as [|ch [|? ?]]; try discriminate Hr.
  assert (Hidx : indexOf (toUpperCase (String ch "")) order <> None).
  { clear -Hr. each_ascii ch; vm_compute in Hr; try discriminate Hr;
      vm_compute; discriminate. }
  destruct (indexOf (toUpperCase (String ch "")) order); [|contradiction].
  eexists. reflexivity.
Qed.

Lemma project_Ok ring clock radiusFeet bearing :
  radiusFeetForRing ring = Ok radiusFeet -> bearingFromClock clock = Ok bearing ->
  project ring clock
  = Ok (destPoint (lat MAN) (lon MAN) (radiusFeet * FT2M)%num bearing).
Proof. intros Hr Hb. unfold project. rewrite Hr. simpl. rewrite Hb. reflexivity. Qed.

Lemma coordOf_clock_ring c r w1 w2 :
  ClockShape c -> (String.length (takeDigits c) <= 4)%nat -> validRing r = true ->
  all isSpace w1 = true -> all isSpace w2 = true ->
  coordOf (c +:+ w1 +:+ "&" +:+ w2 +:+ r) = project r c
  /\ coordOf (r +:+ w1 +:+ "&" +:+ w2 +:+ c) = project r c.
Proof.
  intros Hs H4 Hr Hw1 Hw2.
  assert (Hc : all tokenChar c = true)
    by exact (all_impl _ _ _ clockChar_tokenChar (ClockShape_chars c Hs)).
  assert (Hrc : all tokenChar r = true)
    by exact (all_impl _ _ _ ringChar_tokenChar (validRing_chars r Hr)).
  pose proof (isClockish_clock c Hs H4) as Hck.
  pose proof (isClockish_ring r Hr) as Hrk.
  pose proof (ClockShape_nonempty c Hs) as Hcn.
  pose proof (validRing_nonempty r Hr) as Hrn.
  split; unfold coordOf.
  - destruct (intersection_string_quiet c w1 w2 r Hc Hrc Hw1 Hw2) as [Hz Hamp].
    rewrite (plaza_skipped _ Hz), (portal_skipped _ Hamp).
    rewrite (coordOf_intersection_parts _ c r []
               (intersection_parts c w1 w2 r Hc Hrc Hw1 Hw2) Hcn Hrn).
    rewrite Hck, Hrk. reflexivity.
  - destruct (intersection_string_quiet r w1 w2 c Hrc Hc Hw1 Hw2) as [Hz Hamp].
    rewrite (plaza_skipped _ Hz), (portal_skipped _ Hamp).
    rewrite (coordOf_intersection_parts _ r c []
               (intersection_parts r w1 w2 c Hrc Hc Hw1 Hw2) Hrn Hcn).
    rewrite Hck, Hrk. reflexivity.
Qed.

(** C1, as the code has it.  For every valid clock string with at most
    four digits before the colon or the decimal point, and every ring name
    (a ring letter or the Esplanade keyword), the intersection string made of
    the two around "&", in either order and with any white space around the
    "&", resolves to [destPoint(MAN, radiusFeetForRing(r) * FT2M,
    bearingFromClock(c))], and both of these calls return. *)
Theorem intersection_resolves (c r w1 w2 : string) :
  validClock c = true -> (String.length (takeDigits c) <= 4)%nat ->
  validRing r = true ->
  all isSpace w1 = true -> all isSpace w2 = true ->
  exists radiusFeet bearing,
    radiusFeetForRing r = Ok radiusFeet /\
    bearingFromClock c = Ok bearing /\
    coordOf (c +:+ w1 +:+ "&" +:+ w2 +:+ r)
    = Ok (destPoint (lat MAN) (lon MAN) (radiusFeet * FT2M)%num bearing) /\
    coordOf (r +:+ w1 +:+ "&" +:+ w2 +:+ c)
    = Ok (destPoint (lat MAN) (lon MAN) (radiusFeet * FT2M)%num bearing).
Proof.
  intros Hc H4 Hr Hw1 Hw2. apply validClock_shape in Hc.
  destruct (radiusFeetForRing_returns r Hr) as [radiusFeet Hrf].
  destruct (bearingFromClock_returns c Hc) as [bearing Hb].
  exists radiusFeet, bearing.
  destruct (coordOf_clock_ring c r w1 w2 Hc H4 Hr Hw1 Hw2) as [H1 H2].
  rewrite H1, H2, (project_Ok r c radiusFeet bearing Hrf Hb). auto.
Qed.

Lemma intersection_resolves_witness :
  exists radiusFeet bearing,
    radiusFeetForRing "D" = Ok radiusFeet /\
    bearingFromClock "6:00" = Ok bearing /\
    coordOf "6:00 & D"
    = Ok (destPoint (lat MAN) (lon MAN) (radiusFeet * FT2M)%num bearing) /\
    coordOf "D & 6:00"
    = Ok (destPoint (lat MAN) (lon MAN) (radiusFeet * FT2M)%num bearing).
Proof.
  apply (intersection_resolves "6:00" "D" " " " ");
    [reflexivity | simpl; lia | reflexivity | reflexivity | reflexivity].
Defined.

(** C1 as stated fails: "12345.5" is a decimal fraction of an hour that
    [bearingFromClock] accepts, "D" is a ring letter, and the intersection
    of the two is refused. *)
Lemma intersection_refuses_long_clock :
  validClock "12345.5" = true
  /\ validRing "D" = true
  /\ returns (bearingFromClock "12345.5")
  /\ returns (radiusFeetForRing "D")
  /\ coordOf "12345.5 & D" = Throw "Ambiguous location format: 12345.5 & D"
  /\ coordOf "D & 12345.5" = Throw "Ambiguous location format: D & 12345.5".
Proof.
  split; [reflexivity|]. split; [reflexivity|].
  split; [apply bearingFromClock_returns, validClock_shape; reflexivity|].
  split; [apply radiusFeetForRing_returns; reflexivity|].
  split; vm_compute; reflexivity.
Qed.

(** ** The portal grammar *)

Lemma portalClock_shape c : portalClock c = true -> PortalShape c.
Proof.
  unfold portalClock. intros H.
  pose proof (takeDigits_dropDigits c) as Hsplit.
  pose proof (takeDigits_all c) as Hip.
  apply andb_true_iff in H as [H H3]. apply andb_true_iff in H as [H1 H2].
  apply Nat.leb_le in H1, H2.
  destruct (takeDigits c) as [|a [|b [|? ?]]]; simpl in H1, H2; try lia;
    simpl in Hip; rewrite ?andb_true_r in Hip.
  - destruct (dropDigits c) as [|ch mm]; rewrite <- Hsplit.
    + apply portal_H, Hip.
    + apply andb_true_iff in H3 as [H3 H5]. apply andb_true_iff in H3 as [H3 H4].
      apply Ascii.eqb_eq in H3 as ->. apply Nat.eqb_eq in H4.
      destruct mm as [|m1 [|m2 [|? ?]]]; try discriminate H4.
      simpl in H5. rewrite andb_true_r in H5. apply andb_true_iff in H5 as [? ?].
      apply portal_H_MM; assumption.
  - apply andb_true_iff in Hip as [Ha Hb].
    destruct (dropDigits c) as [|ch mm]; rewrite <- Hsplit.
    + apply portal_HH; assumption.
    + apply andb_true_iff in H3 as [H3 H5]. apply andb_true_iff in H3 as [H3 H4].
      apply Ascii.eqb_eq in H3 as ->. apply Nat.eqb_eq in H4.
      destruct mm as [|m1 [|m2 [|? ?]]]; try discriminate H4.
      simpl in H5. rewrite andb_true_r in H5. apply andb_true_iff in H5 as [? ?].
      apply portal_HH_MM; assumption.
Qed.

Lemma PortalShape_valid c : PortalShape c -> ClockShape c.
Proof.
  intros [a Ha | a b Ha Hb | a m1 m2 Ha H1 H2 | a b m1 m2 Ha Hb H1 H2].
  - apply shape_digits; simpl; [rewrite Ha; reflexivity | lia].
  - apply shape_digits; simpl; [rewrite Ha, Hb; reflexivity | lia].
  - apply (shape_colon _ (String a "") (String m1 (String m2 "")));
      simpl; rewrite ?Ha, ?H1, ?H2; auto; lia.
  - apply (shape_colon _ (String a (String b "")) (String m1 (String m2 "")));
      simpl; rewrite ?Ha, ?Hb, ?H1, ?H2; auto; lia.
Qed.

Lemma isSpace_notClock ch :
  isSpace ch = true -> isDigit ch = false /\ Ascii.eqb ch ":" = false.
Proof.
  each_ascii ch; vm_compute; intros H;
    first [split; reflexivity | discriminate H].
Qed.

Lemma isDigit_notColon ch : isDigit ch = true -> Ascii.eqb ch ":" = false.
Proof. each_ascii ch; vm_compute; intros H; first [reflexivity | discriminate H]. Qed.

Lemma spacesThen_Portal sp w :
  isSpace sp = true -> all isSpace w = true ->
  spacesThen false "Portal" (String sp (w +:+ "Portal")) = true.
Proof.
  intros Hsp Hw. unfold spacesThen. rewrite Hsp.
  rewrite (trimStart_spaces w "Portal" Hw eq_refl). reflexivity.
Qed.

Lemma minutes_at_not_colon ch rest :
  Ascii.eqb ch ":" = false -> minutes_at (String ch rest) = None.
Proof.
  intros H. unfold minutes_at.
  destruct rest as [|m1 [|m2 rest']]; try reflexivity. rewrite H. reflexivity.
Qed.

Lemma minutes_at_Portal m1 m2 sp w :
  isDigit m1 = true -> isDigit m2 = true ->
  isSpace sp = true -> all isSpace w = true ->
  minutes_at (String ":" (String m1 (String m2 (String sp (w +:+ "Portal")))))
  = Some (String ":" (String m1 (String m2 ""))).
Proof.
  intros H1 H2 Hsp Hw. unfold minutes_at.
  rewrite H1, H2, (spacesThen_Portal sp w Hsp Hw). reflexivity.
Qed.

(** The pattern, tried at the head of ["<c><spaces>Portal"], captures [c]. *)
Lemma portalMatch_at_head c sp w :
  PortalShape c -> isSpace sp = true -> all isSpace w = true ->
  portalMatch_at (c +:+ String sp (w +:+ "Portal")) = Some c.
Proof.
  intros Hs Hsp Hw.
  pose proof (spacesThen_Portal sp w Hsp Hw) as HP.
  destruct (isSpace_notClock sp Hsp) as [Hspd Hspc].
  destruct Hs as [a Ha | a b Ha Hb | a m1 m2 Ha H1 H2 | a b m1 m2 Ha Hb H1 H2];
    unfold portalMatch_at, clock_at; rewrite !append_cons, append_nil;
    cbn [splitAt all option_map].
  - rewrite Ha, Hspd, (minutes_at_not_colon sp _ Hspc), HP. reflexivity.
  - rewrite Ha, Hb, (minutes_at_not_colon sp _ Hspc),
      (minutes_at_not_colon b _ (isDigit_notColon b Hb)), HP.
    reflexivity.
  - rewrite Ha, (minutes_at_Portal m1 m2 sp w H1 H2 Hsp Hw). reflexivity.
  - rewrite Ha, Hb, (minutes_at_Portal m1 m2 sp w H1 H2 Hsp Hw). reflexivity.
Qed.

Lemma coordOf_portal_clock c sp w :
  PortalShape c -> isSpace sp = true -> all isSpace w = true ->
  coordOf (c +:+ String sp (w +:+ "Portal")) = project "ESPLANADE" c.
Proof.
  intros Hs Hsp Hw.
  pose proof (ClockShape_chars c (PortalShape_valid c Hs)) as Hc.
  assert (Hct : all tokenChar c = true)
    by exact (all_impl _ _ _ clockChar_tokenChar Hc).
  set (s := c +:+ String sp (w +:+ "Portal")).
  assert (Hz : all (isNot "z") s = true).
  { unfold s. rewrite all_app. cbn [all]. rewrite all_app.
    rewrite (all_impl _ _ _ tokenChar_notZ Hct), (proj2 (isSpace_plain sp Hsp)),
      (all_impl _ _ _ (fun ch H => proj2 (isSpace_plain ch H)) Hw).
    reflexivity. }
  assert (Hamp : includes "&" s = false).
  { apply (includes_excluded (isNot "&")); [|reflexivity].
    unfold s. rewrite all_app. cbn [all]. rewrite all_app.
    rewrite (all_impl _ _ _ tokenChar_notAmp Hct), (proj1 (isSpace_plain sp Hsp)),
      (all_impl _ _ _ (fun ch H => proj1 (isSpace_plain ch H)) Hw).
    reflexivity. }
  assert (HP : includes "Portal" s = true).
  { unfold s. apply includes_skip.
    apply (includes_skip "Portal" (String sp w)).
    apply (includes_here "Portal" ""). }
  unfold coordOf. rewrite (plaza_skipped _ Hz).
  unfold coordOf_portal. rewrite HP, Hamp. cbn [negb andb]. unfold s.
  rewrite (search_head _ _ _ (portalMatch_at_head c sp w Hs Hsp Hw)).
  reflexivity.
Qed.

Lemma radiusFeetForRing_ESPLANADE :
  radiusFeetForRing "ESPLANADE" = Ok (num_of_Z ESPL_RADIUS_FT).
Proof. reflexivity. Qed.

(** C8, as the code has it.  For every clock of the form "H" or "H:MM"
    (an hour of one or two digits), the string ["<c> Portal"], with any
    white space between the two, resolves to the point at the Esplanade
    radius with bearing [bearingFromClock(c)]; no error is thrown. *)
Theorem portal_resolves (c w : string) :
  portalClock c = true -> w <> "" -> all isSpace w = true ->
  exists bearing,
    bearingFromClock c = Ok bearing /\
    coordOf (c +:+ w +:+ "Portal")
    = Ok (destPoint (lat MAN) (lon MAN) (num_of_Z ESPL_RADIUS_FT * FT2M)%num bearing).
Proof.
  intros Hc Hne Hw. apply portalClock_shape in Hc.
  destruct (bearingFromClock_returns c (PortalShape_valid c Hc)) as [bearing Hb].
  exists bearing. split; [exact Hb|].
  destruct w as [|sp w]; [contradiction|].
  simpl in Hw. apply andb_true_iff in Hw as [Hsp Hw].
  rewrite append_cons, (coordOf_portal_clock c sp w Hc Hsp Hw).
  exact (project_Ok _ _ _ _ radiusFeetForRing_ESPLANADE Hb).
Qed.

Lemma portal_resolves_witness :
  exists bearing,
    bearingFromClock "7:30" = Ok bearing /\
    coordOf "7:30 Portal"
    = Ok (destPoint (lat MAN) (lon MAN) (num_of_Z ESPL_RADIUS_FT * FT2M)%num bearing).
Proof.
  apply (portal_resolves "7:30" " "); [reflexivity | discriminate | reflexivity].
Defined.

(** ** Where the portal pattern captures only the tail of a clock *)

Local Open Scope R_scope.

Lemma Rrem_small (x y : R) : 0 <= x < y -> Rrem x y = x.
Proof.
  intros [H0 Hy]. unfold Rrem, Rtrunc.
  assert (Hq : 0 <= x / y < 1).
  { split.
    - apply Rmult_le_pos; [exact H0 | left; apply Rinv_0_lt_compat; lra].
    - apply (Rmult_lt_reg_r y); [lra|]. unfold Rdiv.
      rewrite Rmult_assoc, Rinv_l by lra. lra. }
  destruct (Rle_dec 0 (x / y)) as [_|Hn]; [|lra].
  rewrite <- (Int_part_spec (x / y) 0) by (simpl; lra).
  simpl. ring.
Qed.

Lemma sinLat_bound la d b : -1 <= sinLat la d b <= 1.
Proof.
  unfold sinLat.
  set (a := la * PI / 180). set (e := d / 6371000). set (t := cos (b * PI / 180)).
  pose proof (COS_bound (b * PI / 180)) as Ht. fold t in Ht.
  pose proof (SIN_bound (a + e)) as H1. pose proof (SIN_bound (a - e)) as H2.
  rewrite sin_plus in H1. rewrite sin_minus in H2.
  assert (A1 : 0 <= (1 + t) * (1 - (sin a * cos e + cos a * sin e)))
    by (apply Rmult_le_pos; lra).
  assert (A2 : 0 <= (1 - t) * (1 - (sin a * cos e - cos a * sin e)))
    by (apply Rmult_le_pos; lra).
  assert (A3 : 0 <= (1 + t) * (1 + (sin a * cos e + cos a * sin e)))
    by (apply Rmult_le_pos; lra).
  assert (A4 : 0 <= (1 - t) * (1 + (sin a * cos e - cos a * sin e)))
    by (apply Rmult_le_pos; lra).
  split; lra.
Qed.

Lemma destPoint_lat la lo d b :
  lat (destPoint (Fin la) (Fin lo) (Fin d) (Fin b))
  = Fin (asin (sinLat la d b) * 180 / PI).
Proof.
  pose proof PI_RGT_0 as Hpi. pose proof (sinLat_bound la d b) as [Hlo Hhi].
  unfold destPoint, Math_sin, Math_cos, Math_PI, R_earth, lat.
  constant_divisors. simpl. fold (sinLat la d b).
  destruct (Rle_dec (-1) (sinLat la d b)); [|contradiction].
  destruct (Rle_dec (sinLat la d b) 1); [|contradiction].
  constant_divisors. reflexivity.
Qed.

Lemma asin_injective x y : -1 <= x <= 1 -> -1 <= y <= 1 -> asin x = asin y -> x = y.
Proof.
  intros Hx Hy H. rewrite <- (sin_asin x Hx), <- (sin_asin y Hy), H. reflexivity.
Qed.

(** From the Man, at the Esplanade radius, the points at bearings 45 and
    225 degrees lie at different latitudes. *)
Lemma esplanade_45_225 :
  destPoint (lat MAN) (lon MAN) (Fin (2500 * 0.3048)) (Fin 45)
  <> destPoint (lat MAN) (lon MAN) (Fin (2500 * 0.3048)) (Fin 225).
Proof.
  intros H. apply (f_equal lat) in H. unfold MAN in H. cbn [lat lon] in H.
  rewrite !destPoint_lat in H. injection H as H.
  pose proof PI_RGT_0 as Hpi. pose proof PI_gt_3 as Hpi3.
  assert (Ha : asin (sinLat 40.786958 (2500 * 0.3048) 45)
               = asin (sinLat 40.786958 (2500 * 0.3048) 225)).
  { apply (Rmult_eq_reg_r (180 / PI)).
    - unfold Rdiv in *. rewrite <- !Rmult_assoc. exact H.
    - apply Rgt_not_eq. apply Rdiv_lt_0_compat; lra. }
  apply asin_injective in Ha; try apply sinLat_bound.
  unfold sinLat in Ha.
  replace (225 * PI / 180) with (45 * PI / 180 + PI) in Ha by field.
  rewrite neg_cos in Ha.
  assert (Hc : 0 < cos (40.786958 * PI / 180)) by (apply cos_gt_0; lra).
  assert (Hs : 0 < sin (2500 * 0.3048 / 6371000)) by (apply sin_gt_0; lra).
  assert (Ht : 0 < cos (45 * PI / 180)) by (apply cos_gt_0; lra).
  assert (Hp : 0 < cos (40.786958 * PI / 180) * sin (2500 * 0.3048 / 6371000)
                   * cos (45 * PI / 180))
    by (apply Rmult_lt_0_compat; [apply Rmult_lt_0_compat|]; assumption).
  lra.
Qed.

Lemma bearing_value (h m : Z) :
  (((num_of_tnum (Some h) + num_of_tnum (Some m) / num_of_Z 60) * num_of_Z 30
    + num_of_Z CITY_ROTATION_DEG) mod num_of_Z 360)%num
  = Fin (Rrem ((IZR h + IZR m / 60) * 30 + 45) 360).
Proof. unfold num_of_tnum, num_of_Z, CITY_ROTATION_DEG. constant_divisors. reflexivity. Qed.

Lemma bearingFromClock_00 : bearingFromClock "00" = Ok (Fin 45).
Proof.
  change (bearingFromClock "00")
    with (Ok (A := num)
            (((num_of_tnum (Some 0%Z) + num_of_tnum (Some 0%Z) / num_of_Z 60)
              * num_of_Z 30 + num_of_Z CITY_ROTATION_DEG) mod num_of_Z 360)%num).
  rewrite bearing_value. f_equal. f_equal.
  replace ((0 + 0 / 60) * 30 + 45) with 45 by field.
  apply Rrem_small. lra.
Qed.

Lemma bearingFromClock_600 : bearingFromClock "600" = Ok (Fin 225).
Proof.
  change (bearingFromClock "600")
    with (Ok (A := num)
            (((num_of_tnum (Some 6%Z) + num_of_tnum (Some 0%Z) / num_of_Z 60)
              * num_of_Z 30 + num_of_Z CITY_ROTATION_DEG) mod num_of_Z 360)%num).
  rewrite bearing_value. f_equal. f_equal.
  replace ((6 + 0 / 60) * 30 + 45) with 225 by field.
  apply Rrem_small. lra.
Qed.

Local Close Scope R_scope.

(** C8 as stated fails: "600" is a valid clock ("HMM", six o'clock, bearing
    225 degrees), but in "600 Portal" the pattern captures "00", so the
    point returned is the one at bearing 45 degrees, and that is a different
    point; likewise "6.5 Portal" is read as the five o'clock portal. *)
Lemma portal_captures_tail :
  validClock "600" = true
  /\ bearingFromClock "600" = Ok (Fin 225)
  /\ search portalMatch_at "600 Portal" = Some "00"
  /\ coordOf "600 Portal"
     = Ok (destPoint (lat MAN) (lon MAN) (num_of_Z ESPL_RADIUS_FT * FT2M)%num (Fin 45))
  /\ coordOf "600 Portal"
     <> Ok (destPoint (lat MAN) (lon MAN) (num_of_Z ESPL_RADIUS_FT * FT2M)%num (Fin 225))
  /\ validClock "6.5" = true
  /\ search portalMatch_at "6.5 Portal" = Some "5".
Proof.
  assert (H : coordOf "600 Portal"
              = Ok (destPoint (lat MAN) (lon MAN)
                      (num_of_Z ESPL_RADIUS_FT * FT2M)%num (Fin 45))).
  { change (coordOf "600 Portal") with (project "ESPLANADE" "00").
    exact (project_Ok _ _ _ _ radiusFeetForRing_ESPLANADE bearingFromClock_00). }
  split; [reflexivity|]. split; [exact bearingFromClock_600|].
  split; [vm_compute; reflexivity|]. split; [exact H|].
  split; [|split; [reflexivity | vm_compute; reflexivity]].
  rewrite H. intros E. apply esplanade_45_225.
  exact (f_equal (fun r => match r with Ok p => p | Throw _ => MAN end) E).
Qed.

(** ** Sorting: what [Array.prototype.sort] returns *)

Lemma isPos_isNeg_exclusive x : isPos x = true -> isNeg x = true -> False.
Proof.
  unfold isPos, isNeg, num_gt, num_lt, num_of_Z. destruct x as [|x]; [discriminate|].
  destruct (Rlt_dec 0 x), (Rlt_dec x 0); try discriminate. lra.
Qed.

Section StableSort.
Context {A : Type} (compare : A -> A -> num).

(** The comparator is consistent: reversing the arguments reverses the
    sign, and "before" is transitive. *)
Hypothesis compare_antisym : forall a b, isPos (compare a b) = isNeg (compare b a).
Hypothesis compare_trans : forall a b c,
  isNeg (compare a b) = true -> isNeg (compare b c) = true ->
  isNeg (compare a c) = true.

Lemma sort_insert_perm x l : Permutation (x :: l) (sort_insert compare x l).
Proof.
  induction l as [|y l IH]; cbn [sort_insert]; [apply Permutation_refl|].
  destruct (num_gt (compare x y) 0); [|apply Permutation_refl].
  eapply perm_trans; [apply perm_swap|]. apply perm_skip, IH.
Qed.

Lemma Array_sort_perm l : Permutation l (Array_sort compare l).
Proof.
  induction l as [|x l IH]; cbn [Array_sort fold_right]; [apply perm_nil|].
  eapply perm_trans; [apply perm_skip, IH|]. apply sort_insert_perm.
Qed.

(** On a domain where only equal elements tie, [notAfter] is a total
    order. *)
Section NoTies.
Variable dom : A -> Prop.
Hypothesis no_ties : forall a b,
  dom a -> dom b -> isTie (compare a b) = true -> a = b.

Lemma notAfter_total a b : notAfter compare a b \/ notAfter compare b a.
Proof.
  unfold notAfter. destruct (isPos (compare a b)) eqn:E; [right|left; reflexivity].
  destruct (isPos (compare b a)) eqn:E'; [|reflexivity].
  rewrite compare_antisym in E'. destruct (isPos_isNeg_exclusive _ E E').
Qed.

Lemma notAfter_cases a b :
  dom a -> dom b -> notAfter compare a b -> isNeg (compare a b) = true \/ a = b.
Proof.
  intros Ha Hb H. unfold notAfter in H.
  destruct (isNeg (compare a b)) eqn:E; [left; reflexivity|right].
  apply (no_ties a b Ha Hb). unfold isTie. rewrite H, E. reflexivity.
Qed.

Lemma notAfter_trans a b c :
  dom a -> dom b -> dom c -> notAfter compare a b -> notAfter compare b c -> notAfter compare a c.
Proof.
  intros Ha Hb Hc Hab Hbc.
  destruct (notAfter_cases a b Ha Hb Hab) as [Nab| ->]; [|exact Hbc].
  destruct (notAfter_cases b c Hb Hc Hbc) as [Nbc| <-]; [|exact Hab].
  pose proof (compare_trans a b c Nab Nbc) as Nac.
  unfold notAfter. destruct (isPos (compare a c)) eqn:E; [|reflexivity].
  destruct (isPos_isNeg_exclusive _ E Nac).
Qed.

Lemma notAfter_antisym a b :
  dom a -> dom b -> notAfter compare a b -> notAfter compare b a -> a = b.
Proof.
  intros Ha Hb Hab Hba. apply (no_ties a b Ha Hb).
  unfold notAfter in *. unfold isTie.
  rewrite Hab. rewrite compare_antisym in Hba. rewrite Hba. reflexivity.
Qed.

Lemma sort_insert_In x l y : In y (sort_insert compare x l) -> y = x \/ In y l.
Proof.
  intros H. apply (Permutation_in y (Permutation_sym (sort_insert_perm x l))) in H.
  destruct H as [->|H]; auto.
Qed.

Lemma sort_insert_Ordered x l :
  dom x -> (forall y, In y l -> dom y) -> Ordered compare l ->
  Ordered compare (sort_insert compare x l).
Proof.
  intros Hx Hl Ho. induction Ho as [|y l Hy Ho IH]; cbn [sort_insert].
  - constructor; [intros y []|constructor].
  - assert (Hdy : dom y) by (apply Hl; left; reflexivity).
    assert (Hdl : forall z, In z l -> dom z) by (intros z Hz; apply Hl; right; exact Hz).
    destruct (num_gt (compare x y) 0) eqn:E.
    + constructor; [|exact (IH Hdl)].
      intros z Hz. apply sort_insert_In in Hz as [->|Hz]; [|exact (Hy z Hz)].
      destruct (notAfter_total y x) as [H|H]; [exact H|].
      unfold notAfter, isPos in H. rewrite H in E. discriminate E.
    + constructor; [|constructor; assumption].
      intros z [<-|Hz]; [exact E|].
      apply (notAfter_trans x y z Hx Hdy (Hdl z Hz) E (Hy z Hz)).
Qed.

Lemma Array_sort_Ordered l : (forall y, In y l -> dom y) -> Ordered compare (Array_sort compare l).
Proof.
  induction l as [|x l IH]; intros Hl; cbn [Array_sort fold_right]; [constructor|].
  apply sort_insert_Ordered.
  - apply Hl. left. reflexivity.
  - intros y Hy. apply Hl. right.
    exact (Permutation_in y (Permutation_sym (Array_sort_perm l)) Hy).
  - apply IH. intros y Hy. apply Hl. right. exact Hy.
Qed.

Lemma Ordered_unique l1 l2 :
  (forall y, In y l1 -> dom y) ->
  Ordered compare l1 -> Ordered compare l2 -> Permutation l1 l2 -> l1 = l2.
Proof.
  intros Hd H1. revert l2. induction H1 as [|x l1 Hx H1 IH]; intros l2 H2 Hp.
  - apply Permutation_nil in Hp. symmetry. exact Hp.
  - destruct H2 as [|y l2 Hy H2].
    + apply Permutation_sym, Permutation_nil in Hp. discriminate Hp.
    + assert (Hdx : dom x) by (apply Hd; left; reflexivity).
      assert (Hdy : dom y).
      { apply Hd. apply (Permutation_in y (Permutation_sym Hp)). left. reflexivity. }
      assert (Hxy : x = y).
      { assert (Ix : In x (y :: l2)) by (apply (Permutation_in x Hp); left; reflexivity).
        assert (Iy : In y (x :: l1))
          by (apply (Permutation_in y (Permutation_sym Hp)); left; reflexivity).
        destruct Ix as [->|Ix]; [reflexivity|].
        destruct Iy as [->|Iy]; [reflexivity|].
        exact (notAfter_antisym x y Hdx Hdy (Hx y Iy) (Hy x Ix)). }
      subst y. f_equal. apply IH; [|exact H2|exact (Permutation_cons_inv Hp)].
      intros z Hz. apply Hd. right. exact Hz.
Qed.

Lemma Array_sort_unique l l' :
  (forall y, In y l -> dom y) -> Permutation l l' ->
  Array_sort compare l = Array_sort compare l'.
Proof.
  intros Hd Hp.
  assert (Hd' : forall y, In y l' -> dom y)
    by (intros y Hy; apply Hd; exact (Permutation_in y (Permutation_sym Hp) Hy)).
  apply Ordered_unique.
  - intros y Hy. apply Hd.
    exact (Permutation_in y (Permutation_sym (Array_sort_perm l)) Hy).
  - exact (Array_sort_Ordered l Hd).
  - exact (Array_sort_Ordered l' Hd').
  - eapply perm_trans; [apply Permutation_sym, Array_sort_perm|].
    eapply perm_trans; [exact Hp|]. apply Array_sort_perm.
Qed.

End NoTies.
End StableSort.

(** ** The six comparators of [sortEvents] *)

Lemma isPos_Fin (x : R) : isPos (Fin x) = true <-> (0 < x)%R.
Proof.
  unfold isPos, num_gt, num_lt, num_of_Z.
  destruct (Rlt_dec 0 x); split; intros H; try reflexivity; try assumption;
    try discriminate; contradiction.
Qed.

Lemma isNeg_Fin (x : R) : isNeg (Fin x) = true <-> (x < 0)%R.
Proof.
  unfold isNeg, num_lt, num_of_Z.
  destruct (Rlt_dec x 0); split; intros H; try reflexivity; try assumption;
    try discriminate; contradiction.
Qed.

Lemma bool_eq_iff (a b : bool) : (a = true <-> b = true) -> a = b.
Proof. destruct a, b; intros [H1 H2]; try reflexivity; [symmetry|]; auto. Qed.

Lemma isPos_Z (z : Z) : isPos (num_of_Z z) = (0 <? z).
Proof.
  apply bool_eq_iff. unfold num_of_Z. rewrite isPos_Fin, Z.ltb_lt. split.
  - intros H. apply lt_IZR. exact H.
  - intros H. apply IZR_lt. exact H.
Qed.

Lemma isNeg_Z (z : Z) : isNeg (num_of_Z z) = (z <? 0).
Proof.
  apply bool_eq_iff. unfold num_of_Z. rewrite isNeg_Fin, Z.ltb_lt. split.
  - intros H. apply lt_IZR. exact H.
  - intros H. apply IZR_lt. exact H.
Qed.

Lemma isPos_time_diff (a b : Date) : isPos (time_diff a b) = tnum_lt (getTime b) (getTime a).
Proof.
  unfold time_diff, getTime. destruct a as [s|], b as [t|]; try reflexivity.
  cbn [num_of_tnum tnum_sub tnum_lt]. rewrite isPos_Z. apply bool_eq_iff. rewrite !Z.ltb_lt. lia.
Qed.

Lemma isNeg_time_diff (a b : Date) : isNeg (time_diff a b) = tnum_lt (getTime a) (getTime b).
Proof.
  unfold time_diff, getTime. destruct a as [s|], b as [t|]; try reflexivity.
  cbn [num_of_tnum tnum_sub tnum_lt]. rewrite isNeg_Z. apply bool_eq_iff. rewrite !Z.ltb_lt. lia.
Qed.

Lemma isPos_sub (x y : num) : isPos (x - y)%num = num_lt y x.
Proof.
  destruct x as [|x], y as [|y]; try reflexivity.
  apply bool_eq_iff. change (Fin x - Fin y)%num with (Fin (x - y)).
  rewrite isPos_Fin. unfold num_lt.
  destruct (Rlt_dec y x); split; intros H; try reflexivity; try discriminate; lra.
Qed.

Lemma isNeg_sub (x y : num) : isNeg (x - y)%num = num_lt x y.
Proof.
  destruct x as [|x], y as [|y]; try reflexivity.
  apply bool_eq_iff. change (Fin x - Fin y)%num with (Fin (x - y)).
  rewrite isNeg_Fin. unfold num_lt.
  destruct (Rlt_dec x y); split; intros H; try reflexivity; try discriminate; lra.
Qed.

Lemma num_lt_trans (x y z : num) :
  num_lt x y = true -> num_lt y z = true -> num_lt x z = true.
Proof.
  destruct x as [|x], y as [|y], z as [|z]; try discriminate. unfold num_lt.
  destruct (Rlt_dec x y), (Rlt_dec y z), (Rlt_dec x z); try discriminate;
    try reflexivity. lra.
Qed.

Lemma tnum_lt_trans (x y z : tnum) :
  tnum_lt x y = true -> tnum_lt y z = true -> tnum_lt x z = true.
Proof.
  destruct x, y, z; try discriminate. unfold tnum_lt. rewrite !Z.ltb_lt. lia.
Qed.

#[local] Arguments time_diff : simpl never.
#[local] Arguments isPos : simpl never.
#[local] Arguments isNeg : simpl never.
#[local] Arguments num_of_Z : simpl never.
#[local] Arguments nsub : simpl never.

Ltac sign_facts :=
  rewrite ?isPos_Z, ?isNeg_Z, ?isPos_time_diff, ?isNeg_time_diff,
    ?isPos_sub, ?isNeg_sub in *.

Lemma keyed_antisym env (key : ProcessedEvent -> string) a b :
  consistentCollation env ->
  isPos (if negb (String.eqb (key a) (key b))
         then localeCompare env (key a) (key b)
         else time_diff (pe_start a) (pe_start b))
  = isNeg (if negb (String.eqb (key b) (key a))
           then localeCompare env (key b) (key a)
           else time_diff (pe_start b) (pe_start a)).
Proof.
  intros [Hanti _]. rewrite (String.eqb_sym (key b) (key a)).
  destruct (String.eqb (key a) (key b)); simpl; [sign_facts; reflexivity|apply Hanti].
Qed.

Lemma comparator_antisym env sortType a b :
  consistentCollation env ->
  isPos (comparator env sortType a b) = isNeg (comparator env sortType b a).
Proof.
  intros Hc. destruct sortType; unfold comparator.
  - destruct (pe_status a), (pe_status b); simpl; sign_facts; reflexivity.
  - destruct (pe_distance a), (pe_distance b); sign_facts; reflexivity.
  - sign_facts. reflexivity.
  - destruct (is_NOW (pe_status a)), (is_NOW (pe_status b)); simpl; sign_facts;
      reflexivity.
  - apply (keyed_antisym env pe_typeAbbr a b Hc).
  - apply (keyed_antisym env pe_title a b Hc).
Qed.

Lemma keyed_trans env (key : ProcessedEvent -> string) a b c :
  consistentCollation env ->
  isNeg (if negb (String.eqb (key a) (key b))
         then localeCompare env (key a) (key b)
         else time_diff (pe_start a) (pe_start b)) = true ->
  isNeg (if negb (String.eqb (key b) (key c))
         then localeCompare env (key b) (key c)
         else time_diff (pe_start b) (pe_start c)) = true ->
  isNeg (if negb (String.eqb (key a) (key c))
         then localeCompare env (key a) (key c)
         else time_diff (pe_start a) (pe_start c)) = true.
Proof.
  intros [Hanti Htrans].
  destruct (String.eqb (key a) (key b)) eqn:Eab;
    destruct (String.eqb (key b) (key c)) eqn:Ebc; simpl; intros H1 H2.
  - apply String.eqb_eq in Eab, Ebc. rewrite Eab, Ebc, String.eqb_refl. simpl.
    sign_facts. exact (tnum_lt_trans _ _ _ H1 H2).
  - apply String.eqb_eq in Eab. rewrite Eab, Ebc. exact H2.
  - apply String.eqb_eq in Ebc. rewrite <- Ebc, Eab. exact H1.
  - destruct (String.eqb (key a) (key c)) eqn:Eac; simpl.
    + apply String.eqb_eq in Eac. rewrite <- Eac in H2.
      rewrite <- Hanti in H2. destruct (isPos_isNeg_exclusive _ H2 H1).
    + exact (Htrans _ _ _ H1 H2).
Qed.

Lemma comparator_trans env sortType a b c :
  consistentCollation env ->
  isNeg (comparator env sortType a b) = true ->
  isNeg (comparator env sortType b c) = true ->
  isNeg (comparator env sortType a c) = true.
Proof.
  intros Hc. destruct sortType; unfold comparator.
  - destruct (pe_status a), (pe_status b), (pe_status c); simpl; sign_facts;
      intros H1 H2; try discriminate; try reflexivity;
      exact (tnum_lt_trans _ _ _ H1 H2).
  - destruct (pe_distance a), (pe_distance b), (pe_distance c); sign_facts;
      intros H1 H2; try discriminate; try reflexivity;
      exact (num_lt_trans _ _ _ H1 H2).
  - sign_facts. apply tnum_lt_trans.
  - destruct (is_NOW (pe_status a)), (is_NOW (pe_status b)),
      (is_NOW (pe_status c)); simpl; sign_facts;
      intros H1 H2; try discriminate; try reflexivity;
      exact (tnum_lt_trans _ _ _ H1 H2).
  - apply (keyed_trans env pe_typeAbbr a b c Hc).
  - apply (keyed_trans env pe_title a b c Hc).
Qed.

(** C6, as the code has it.  For every strategy, when the collation is
    consistent and the strategy's comparator ties no two different events of
    the list (it returns neither zero nor NaN for them), [sortEvents] gives
    every permutation of the list the same output sequence. *)
Theorem sortEvents_permutation env sortType (events events' : list ProcessedEvent) :
  consistentCollation env ->
  (forall a b, In a events -> In b events ->
               isTie (comparator env sortType a b) = true -> a = b) ->
  Permutation events events' ->
  sortEvents env events sortType = sortEvents env events' sortType.
Proof.
  intros Hc Hties Hp. unfold sortEvents.
  apply (Array_sort_unique (comparator env sortType)
           (fun a b => comparator_antisym env sortType a b Hc)
           (fun a b c => comparator_trans env sortType a b c Hc)
           (fun x => In x events) Hties events events'); [auto | exact Hp].
Qed.

Lemma Array_sort_pair {A : Type} (compare : A -> A -> num) a b :
  Array_sort compare [a; b] = if isPos (compare a b) then [b; a] else [a; b].
Proof. reflexivity. Qed.

Lemma compareCodeUnits_antisym x y :
  Scenario.compareCodeUnits y x = - Scenario.compareCodeUnits x y.
Proof.
  revert y. induction x as [|a x IH]; destruct y as [|b y]; simpl; try reflexivity.
  destruct (code a <? code b)%N eqn:E1, (code b <? code a)%N eqn:E2;
    try reflexivity; [|apply IH].
  apply N.ltb_lt in E1, E2. lia.
Qed.

Lemma compareCodeUnits_trans x y z :
  Scenario.compareCodeUnits x y < 0 -> Scenario.compareCodeUnits y z < 0 ->
  Scenario.compareCodeUnits x z < 0.
Proof.
  revert y z. induction x as [|a x IH]; destruct y as [|b y], z as [|c z];
    simpl; try lia.
  destruct (code a <? code b)%N eqn:E1, (code b <? code a)%N eqn:E2,
    (code b <? code c)%N eqn:E3, (code c <? code b)%N eqn:E4,
    (code a <? code c)%N eqn:E5, (code c <? code a)%N eqn:E6;
    rewrite ?N.ltb_lt, ?N.ltb_ge in *; try lia.
  apply IH.
Qed.

Lemma device_consistentCollation events arts camps favorites wallClock :
  consistentCollation (Scenario.device events arts camps favorites wallClock).
Proof.
  split; simpl.
  - intros x y. rewrite isPos_Z, isNeg_Z, (compareCodeUnits_antisym x y).
    apply bool_eq_iff. rewrite !Z.ltb_lt. lia.
  - intros x y z. rewrite !isNeg_Z, !Z.ltb_lt. apply compareCodeUnits_trans.
Qed.

Lemma sortEvents_permutation_witness :
  sortEvents (Scenario.device [] ∅ ∅ ∅ 0)
    [talk "t1" "Knots" 1756300000000; talk "t2" "Kites" 1756290000000] by_time
  = sortEvents (Scenario.device [] ∅ ∅ ∅ 0)
      [talk "t2" "Kites" 1756290000000; talk "t1" "Knots" 1756300000000] by_time.
Proof.
  apply (sortEvents_permutation (Scenario.device [] ∅ ∅ ∅ 0) by_time).
  - apply device_consistentCollation.
  - intros a b [<-|[<-|[]]] [<-|[<-|[]]]; try reflexivity;
      unfold isTie, comparator; rewrite isPos_time_diff, isNeg_time_diff;
      intros H; discriminate H.
  - apply perm_swap.
Defined.

(** C6 as stated fails: two events that start at the same instant tie under
    the strategy by time, and each of the two orders of the list comes back
    unchanged. *)
Lemma sortEvents_keeps_tied_order :
  let env := Scenario.device [] ∅ ∅ ∅ 0 in
  let a := talk "t1" "Knots" 1756290000000 in
  let b := talk "t2" "Kites" 1756290000000 in
  Permutation [a; b] [b; a]
  /\ sortEvents env [a; b] by_time = [a; b]
  /\ sortEvents env [b; a] by_time = [b; a]
  /\ sortEvents env [a; b] by_time <> sortEvents env [b; a] by_time.
Proof.
  cbv zeta.
  assert (H1 : sortEvents (Scenario.device [] ∅ ∅ ∅ 0)
                 [talk "t1" "Knots" 1756290000000; talk "t2" "Kites" 1756290000000]
                 by_time
               = [talk "t1" "Knots" 1756290000000; talk "t2" "Kites" 1756290000000]).
  { unfold sortEvents. rewrite Array_sort_pair. unfold comparator.
    rewrite isPos_time_diff. reflexivity. }
  assert (H2 : sortEvents (Scenario.device [] ∅ ∅ ∅ 0)
                 [talk "t2" "Kites" 1756290000000; talk "t1" "Knots" 1756290000000]
                 by_time
               = [talk "t2" "Kites" 1756290000000; talk "t1" "Knots" 1756290000000]).
  { unfold sortEvents. rewrite Array_sort_pair. unfold comparator.
    rewrite isPos_time_diff. reflexivity. }
  split; [apply perm_swap|]. split; [exact H1|]. split; [exact H2|].
  rewrite H1, H2. discriminate.
Qed.

(* ===================================================================== *)
(** * Properties of the countdowns *)
(* ===================================================================== *)

(** ** Rounding to minutes *)

Lemma Math_round_div_minutes (ms : Z) :
  Math_round_div (Some ms) 60000 = Some (minutesOf ms).
Proof. reflexivity. Qed.

Lemma minutesOf_le (ms k : Z) : minutesOf ms <= k <-> ms < 60000 * k + 30000.
Proof. unfold minutesOf. Z.div_mod_to_equations. lia. Qed.

Lemma minutesOf_ge (ms k : Z) : k <= minutesOf ms <-> 60000 * k - 30000 <= ms.
Proof. unfold minutesOf. Z.div_mod_to_equations. lia. Qed.

Lemma formatCountdown_valid (minutes : Z) :
  TimeUtilsDates.formatCountdown (Some minutes) = TimeUtils.formatCountdown minutes.
Proof. reflexivity. Qed.

Import TimeUtilsDates.

(** [getRelativeTime] on two valid dates. *)
Lemma getRelativeTime_valid env (target reference : Z) :
  getRelativeTime env (Some target) (Some (Some reference))
  = {| text := if target <? reference
               then TimeUtils.formatCountdown (- minutesOf (target - reference)) +:+ " ago"
               else "in " +:+ TimeUtils.formatCountdown (minutesOf (target - reference));
       isPast := target <? reference;
       isNear := Z.abs (minutesOf (target - reference)) <=? 15 |}.
Proof.
  unfold getRelativeTime.
  cbn [default from_option Datatypes.id getTime tnum_sub].
  rewrite Math_round_div_minutes.
  cbn [tnum_lt tnum_le tnum_abs tnum_neg option_map].
  replace (target - reference <? 0) with (target <? reference)
    by (apply bool_eq_iff; rewrite !Z.ltb_lt; lia).
  destruct (target <? reference); reflexivity.
Qed.


(** The flags of the countdown, in milliseconds. *)
Lemma countdown_flags env (start end_ now : Z) :
  let c := getCountdownInfo env (Some start) (Some end_) (Some (Some now)) in
  (hasStarted c = true <-> start - now < 30000) /\
  (hasEnded c = true <-> end_ - now < 30000) /\
  (isActive c = true <-> start - now < 30000 <= end_ - now) /\
  (isStartingSoon c = true <-> 30000 <= start - now < 930000) /\
  (isEndingSoon c = true <-> start - now < 30000 /\ 30000 <= end_ - now < 930000).
Proof.
  cbv zeta. unfold getCountdownInfo.
  cbn [default from_option Datatypes.id getTime tnum_sub hasStarted hasEnded isActive
       isStartingSoon isEndingSoon].
  rewrite !Math_round_div_minutes. unfold tnum_gt. cbn [tnum_le tnum_lt].
  pose proof (minutesOf_le (start - now) 0). pose proof (minutesOf_le (start - now) 15).
  pose proof (minutesOf_le (end_ - now) 0). pose proof (minutesOf_le (end_ - now) 15).
  generalize dependent (minutesOf (start - now)). intros ms.
  generalize dependent (minutesOf (end_ - now)). intros me. intros.
  rewrite !andb_true_iff, !Z.leb_le, !Z.ltb_lt.
  repeat split; lia.
Qed.

(** X2. The flags of [getCountdownInfo] on valid
    dates, in milliseconds: the event has started from 30 seconds before
    its start, and has ended from 30 seconds before its end; it is active
    in between; it is starting soon from 15.5 minutes to 30 seconds before
    its start, and ending soon from 15.5 minutes to 30 seconds before its
    end, once started.  When the start is not after the end, an event is
    in exactly one of three phases: not started, active, ended. *)
Theorem getCountdownInfo_phases env (start end_ now : Z) :
  let c := getCountdownInfo env (Some start) (Some end_) (Some (Some now)) in
  (hasStarted c = true <-> start - now < 30000) /\
  (hasEnded c = true <-> end_ - now < 30000) /\
  (isActive c = true <-> start - now < 30000 <= end_ - now) /\
  (isStartingSoon c = true <-> 30000 <= start - now < 930000) /\
  (isEndingSoon c = true <-> start - now < 30000 /\ 30000 <= end_ - now < 930000) /\
  (start <= end_ ->
     (hasStarted c = false /\ isActive c = false /\ hasEnded c = false)
     \/ (hasStarted c = true /\ isActive c = true /\ hasEnded c = false)
     \/ (hasStarted c = true /\ isActive c = false /\ hasEnded c = true)).
Proof.
  cbv zeta.
  destruct (countdown_flags env start end_ now) as (Hs & He & Ha & Hss & Hes).
  cbv zeta in Hs, He, Ha, Hss, Hes.
  split; [exact Hs|]. split; [exact He|]. split; [exact Ha|].
  split; [exact Hss|]. split; [exact Hes|]. intros Hse.
  destruct (hasStarted _) eqn:E1, (isActive _) eqn:E2, (hasEnded _) eqn:E3;
    rewrite <- ?not_true_iff_false in *; tauto || lia.
Qed.

(** X3. The status of the list against the flags
    of the countdown timer, on valid dates: an event whose status is NOW is
    active for the timer; in its last 15 minutes, up to 30 seconds before
    its end, a started event is ENDED for the list and still active for the
    timer; in the last 30 seconds before its start an event with at least
    30 seconds left to its end is SOON for the list and already active for
    the timer. *)
Theorem status_against_countdown env (start end_ now : Z) :
  let c := getCountdownInfo env (Some start) (Some end_) (Some (Some now)) in
  let status := determineEventStatus (Some start) (Some end_) (Some now) in
  (status = NOW -> isActive c = true) /\
  (status = NOW -> (isEndingSoon c = true <-> end_ - now < 930000)) /\
  (start <= now -> 30000 <= end_ - now < 900000 ->
     status = ENDED /\ isActive c = true) /\
  (0 < start - now < 30000 -> 30000 <= end_ - now ->
     status = SOON /\ isActive c = true).
Proof.
  cbv zeta.
  destruct (countdown_flags env start end_ now) as (_ & _ & Hact & _ & Hend).
  cbv zeta in Hact, Hend. rewrite Hact, Hend.
  rewrite status_NOW_iff, status_ENDED_iff, status_SOON_iff.
  unfold activeAt, soonAt, upcomingAt, buffer. repeat split; lia.
Qed.

Import CountdownTimer.



(** X5. The countdown of the processor, on an
    event with valid dates whose status is the one of the current time:
    the event is ending soon only in a window of 30 seconds, when it has
    started and from 15.5 down to 15 minutes are left, since a status of
    NOW needs 15 minutes to be left; it is starting soon from 15.5 minutes
    to 30 seconds before its start, while its status is SOON from 15
    minutes before the start up to the start. *)
Theorem getCountdownInfo_isEndingSoon env (event : ProcessedEvent) (start end_ now : Z) :
  pe_start event = Some start -> pe_end event = Some end_ ->
  pe_status event = determineEventStatus (Some start) (Some end_) (Some now) ->
  let c := EventProcessorInfo.getCountdownInfo env event (Some (Some now)) in
  (EventProcessorInfo.isEndingSoon c = true
   <-> start <= now /\ 900000 <= end_ - now < 930000) /\
  (EventProcessorInfo.isStartingSoon c = true <-> 30000 <= start - now < 930000) /\
  (pe_status event = SOON <-> 0 < start - now <= 900000).
Proof.
  intros Hs He Hst. cbv zeta. unfold EventProcessorInfo.getCountdownInfo.
  cbn [EventProcessorInfo.isEndingSoon EventProcessorInfo.isStartingSoon
       default from_option Datatypes.id getTime].
  rewrite Hs, He, Hst. cbn [tnum_sub getTime]. rewrite !Math_round_div_minutes.
  unfold tnum_gt. cbn [tnum_le tnum_lt].
  rewrite !andb_true_iff, bool_decide_eq_true, status_NOW_iff, status_SOON_iff,
    !Z.leb_le, Z.ltb_lt.
  pose proof (minutesOf_le (end_ - now) 15).
  pose proof (minutesOf_le (start - now) 15).
  pose proof (minutesOf_le (start - now) 0).
  unfold activeAt, soonAt, buffer. repeat split; lia.
Qed.

Lemma getCountdownInfo_isEndingSoon_witness :
  (EventProcessorInfo.isEndingSoon
     (EventProcessorInfo.getCountdownInfo (Scenario.device [] ∅ ∅ ∅ 0)
        (talk "t1" "Knots" 1756290000000) (Some (Some 1756288200000))) = true
   <-> 1756290000000 <= 1756288200000
       /\ 900000 <= 1756293600000 - 1756288200000 < 930000) /\
  (EventProcessorInfo.isStartingSoon
     (EventProcessorInfo.getCountdownInfo (Scenario.device [] ∅ ∅ ∅ 0)
        (talk "t1" "Knots" 1756290000000) (Some (Some 1756288200000))) = true
   <-> 30000 <= 1756290000000 - 1756288200000 < 930000) /\
  (pe_status (talk "t1" "Knots" 1756290000000) = SOON
   <-> 0 < 1756290000000 - 1756288200000 <= 900000).
Proof.
  exact (getCountdownInfo_isEndingSoon (Scenario.device [] ∅ ∅ ∅ 0)
           (talk "t1" "Knots" 1756290000000)
           1756290000000 1756293600000 1756288200000
           eq_refl eq_refl eq_refl).
Defined.

Lemma formatDuration_valid (start end_ : Z) :
  formatDuration (Some start) (Some end_) =
  let m := minutesOf (end_ - start) in
  if m <? 60 then Number_toString m +:+ "m"
  else if 24 <=? m / 60 then
         if Z.rem (m / 60) 24 =? 0 then Number_toString (m / 60 / 24) +:+ "d"
         else Number_toString (m / 60 / 24) +:+ "d "
              +:+ Number_toString (Z.rem (m / 60) 24) +:+ "h"
       else if Z.rem m 60 =? 0 then Number_toString (m / 60) +:+ "h"
            else Number_toString (m / 60) +:+ "h " +:+ Number_toString (Z.rem m 60) +:+ "m".
Proof. reflexivity. Qed.

Lemma Number_toString_negative (z : Z) :
  z < 0 -> Number_toString z = "-" +:+ Number_toString (- z).
Proof.
  intros H. unfold Number_toString.
  assert (E1 : (z <? 0) = true) by (apply Z.ltb_lt; lia).
  assert (E2 : (- z <? 0) = false) by (apply Z.ltb_ge; lia).
  rewrite E1, E2, Z.abs_opp. reflexivity.
Qed.



(* ===================================================================== *)
(** * Properties of a pass *)
(* ===================================================================== *)

(** ** What a pass emits *)

Lemma existsb_eqb_In (x : string) (l : list string) :
  existsb (String.eqb x) l = true -> In x l.
Proof.
  intros H. apply existsb_exists in H as (y & Hy & E).
  apply String.eqb_eq in E. subst y. exact Hy.
Qed.

Lemma processOccurrence_Emitted env self lat lon radius now upcomingCutoff
    eventTypes showOnlyActive showOnlyUpcoming showOnlyFavorites favoriteIds
    event occurrence out :
  processOccurrence env self lat lon radius now upcomingCutoff eventTypes
    showOnlyActive showOnlyUpcoming showOnlyFavorites favoriteIds event occurrence
  = Ok out ->
  out = [] \/
  exists pe, out = [pe] /\
    Emitted env self lat lon radius now upcomingCutoff eventTypes
      showOnlyActive showOnlyUpcoming showOnlyFavorites favoriteIds
      event occurrence pe.
Proof.
  unfold processOccurrence. intros H.
  destruct (truthy (start_time occurrence)) eqn:Es;
    [|injection H as <-; left; reflexivity].
  destruct (truthy (end_time occurrence)) eqn:Ee;
    [|injection H as <-; left; reflexivity].
  destruct (passesTimeFilter _ _ _ _ _) eqn:Hp; cbn [negb] in H;
    [|injection H as <-; left; reflexivity].
  apply bind_Ok in H as (li & Hli & H).
  set (located := from_option Number_isFinite false lat
                  && from_option Number_isFinite false lon
                  && from_option num_truthy false (li_lat li)
                  && from_option num_truthy false (li_lon li)) in *.
  destruct (located && num_gt _ radius) eqn:Hd;
    [injection H as <-; left; reflexivity|].
  destruct (existsb _ eventTypes) eqn:Ht; cbn [negb] in H;
    [|injection H as <-; left; reflexivity].
  destruct (showOnlyActive && _) eqn:Ha;
    [injection H as <-; left; reflexivity|].
  destruct (showOnlyUpcoming && _) eqn:Hu;
    [injection H as <-; left; reflexivity|].
  destruct (showOnlyFavorites && _) eqn:Hf;
    [injection H as <-; left; reflexivity|].
  injection H as <-. right. eexists. split; [reflexivity|].
  constructor; cbn [pe_start pe_end pe_status pe_distance pe_lat pe_lon pe_locLabel
                    pe_typeAbbr pe_id pe_eventUid pe_isRecurring];
    try reflexivity; try assumption.
  - exists li. auto.
  - fold located. destruct located eqn:El; [|reflexivity].
    cbn [andb] in Hd. unfold located in El.
    apply andb_true_iff in El as [El Hlon]. apply andb_true_iff in El as [El Hlat].
    apply andb_true_iff in El as [Hvlat Hvlon]. auto 10.
  - apply existsb_eqb_In. exact Ht.
  - intros ->. cbn [andb] in Ha. apply negb_false_iff, bool_decide_eq_true in Ha.
    exact Ha.
  - intros ->. cbn [andb] in Hu. apply orb_false_iff in Hu as [H1 H2].
    apply bool_decide_eq_false in H1, H2. auto.
  - intros ->. cbn [andb] in Hf. apply negb_false_iff in Hf.
    destruct favoriteIds as [ids|]; [|discriminate Hf].
    exists ids. split; [reflexivity|]. apply bool_decide_eq_true in Hf. exact Hf.
Qed.

Lemma processEvents_Emitted env p out pe :
  processEvents env p = Ok out -> In pe out ->
  exists events artMap campMap favoriteIds event occurrence,
    loadEvents env (yearOf p) = Ok events /\
    getArtMap env = Ok artMap /\ getCampMap env = Ok campMap /\
    (flag (sp_showOnlyFavorites p) = true ->
     exists ids, getFavoriteIds env = Ok ids /\ favoriteIds = Some ids) /\
    In event events /\ In occurrence (occurrence_set event) /\
    Emitted env
      {| artMapCache := Some artMap; campMapCache := Some campMap;
         originalEvents := events |}
      (sp_lat p) (sp_lon p) (radiusOf p) (nowOf env p) (cutoffOf env p)
      (eventTypesOf p) (flag (sp_showOnlyActive p)) (flag (sp_showOnlyUpcoming p))
      (flag (sp_showOnlyFavorites p)) favoriteIds event occurrence pe.
Proof.
  unfold processEvents. intros H Hin.
  apply bind_Ok in H as (events & Hev & H).
  apply bind_Ok in H as (artMap & Ha & H).
  apply bind_Ok in H as (campMap & Hc & H).
  apply bind_Ok in H as (favoriteIds & Hf & H).
  destruct (for_of_In _ _ _ _ H Hin) as (event & o & Hie & Ho & Hino).
  destruct (for_of_In _ _ _ _ Ho Hino) as (occ & o' & Hio & Ho' & Hino').
  exists events, artMap, campMap, favoriteIds, event, occ.
  split; [exact Hev|]. split; [exact Ha|]. split; [exact Hc|].
  split; [|split; [exact Hie|split; [exact Hio|]]].
  - unfold flag. intros Hfav. rewrite Hfav in Hf.
    apply bind_Ok in Hf as (ids & Hids & Hf). injection Hf as <-.
    exists ids. auto.
  - destruct (processOccurrence_Emitted _ _ _ _ _ _ _ _ _ _ _ _ _ _ _ Ho')
      as [Hnil | (q & Hq & Hem)]; [rewrite Hnil in Hino'; destruct Hino'|].
    rewrite Hq in Hino'. destruct Hino' as [E|[]]. subst q. exact Hem.
Qed.

(** ** The time window, end to end *)

Lemma for_of_emits {A B : Type} (body : A -> result (list B)) (l : list A) out x o y :
  for_of body l = Ok out -> In x l -> body x = Ok o -> In y o -> In y out.
Proof.
  revert out. induction l as [|x' l IH]; simpl; intros out H Hx Hb Hy; [destruct Hx|].
  apply bind_Ok in H as (o' & Ho' & H).
  apply bind_Ok in H as (rest & Hrest & H). injection H as <-.
  apply in_or_app. destruct Hx as [->|Hx].
  - left. rewrite Hb in Ho'. injection Ho' as <-. exact Hy.
  - right. exact (IH rest Hrest Hx Hb Hy).
Qed.

(** The loop body pushes the record of an occurrence that passes the
    prefilter, when the pass has no viewer position, wants the type of the
    event and has its three switches off. *)
Lemma processOccurrence_pushes env self lat lon radius now upcomingCutoff
    eventTypes favoriteIds event occurrence :
  truthy (start_time occurrence) = true ->
  truthy (end_time occurrence) = true ->
  passesTimeFilter (new_Date env (start_time occurrence))
    (new_Date env (end_time occurrence)) now upcomingCutoff
    (determineEventStatus (new_Date env (start_time occurrence))
       (new_Date env (end_time occurrence)) now) = true ->
  from_option Number_isFinite false lat && from_option Number_isFinite false lon
  = false ->
  In (typeAbbrOf event) eventTypes ->
  exists pe,
    processOccurrence env self lat lon radius now upcomingCutoff eventTypes
      false false false favoriteIds event occurrence = Ok [pe] /\
    pe_id pe = occurrenceId event occurrence /\
    pe_start pe = new_Date env (start_time occurrence) /\
    pe_end pe = new_Date env (end_time occurrence).
Proof.
  intros Hs He Hp Hg Ht. unfold processOccurrence. rewrite Hs, He, Hp, Hg.
  cbn [negb andb].
  destruct (resolveEventLocation_returns self event) as [li ->].
  cbn [mbind result_bind].
  assert (Hw : existsb (String.eqb (typeAbbrOf event)) eventTypes = true).
  { apply existsb_exists. exists (typeAbbrOf event).
    split; [exact Ht | apply String.eqb_refl]. }
  unfold typeAbbrOf in Hw. rewrite Hw. cbn [negb].
  eexists. split; [reflexivity|]. cbn. auto.
Qed.


Lemma truthy_nonempty (s : string) : s <> "" -> truthy (Some s) = true.
Proof. destruct s; [contradiction|reflexivity]. Qed.

(** C3, as the code has it.  In a pass of [processEvents] that returns,
    whose time is valid and whose window ends at a date (at most 8.64e15 ms
    from the epoch): every record with a valid start and end is active with
    fifteen minutes still to run, or starts after [now] and no later than
    [now + timeWindowMinutes]; every occurrence of the data set with
    non-empty, parseable start and end for which this holds gives its record
    when no later filter drops it (no viewer position, a wanted type, the
    three switches off); the prefilter, with the cutoff the pass computes,
    holds exactly in these two cases; for a positive window an occurrence
    starting at [now + timeWindowMinutes] passes it, and for a window that is
    not negative a later one does not; and an occurrence the prefilter
    rejects is dropped whatever the other filters are. *)
Theorem time_window_prefilter env p events out (now : Z) :
  processEvents env p = Ok out ->
  loadEvents env (yearOf p) = Ok events ->
  nowOf env p = Some now ->
  Z.abs (now + windowOf p * 60000) <= maxTime ->
  let admitted (start end_ : Z) :=
    (start <= now <= end_ /\ end_ - now >= 15 * 60000)
    \/ (now < start /\ start <= now + windowOf p * 60000) in
  (forall pe start end_,
     In pe out -> pe_start pe = Some start -> pe_end pe = Some end_ ->
     admitted start end_) /\
  (forall event occurrence s1 s2 start end_,
     In event events -> In occurrence (occurrence_set event) ->
     start_time occurrence = Some s1 -> end_time occurrence = Some s2 ->
     s1 <> "" -> s2 <> "" ->
     Date_parse env s1 = Some start -> Date_parse env s2 = Some end_ ->
     admitted start end_ ->
     hasGPS p = false ->
     In (typeAbbrOf event) (eventTypesOf p) ->
     flag (sp_showOnlyActive p) = false ->
     flag (sp_showOnlyUpcoming p) = false ->
     flag (sp_showOnlyFavorites p) = false ->
     exists pe,
       In pe out /\ pe_id pe = occurrenceId event occurrence /\
       pe_start pe = Some start /\ pe_end pe = Some end_) /\
  (forall start end_ status,
     passesTimeFilter (Some start) (Some end_) (nowOf env p) (cutoffOf env p) status
     = true
     <-> admitted start end_) /\
  (0 < windowOf p ->
   forall end_ status,
     passesTimeFilter (Some (now + windowOf p * 60000)) (Some end_) (nowOf env p)
       (cutoffOf env p) status = true) /\
  (0 <= windowOf p ->
   forall later end_ status,
     now + windowOf p * 60000 < later ->
     passesTimeFilter (Some later) (Some end_) (nowOf env p) (cutoffOf env p) status
     = false) /\
  (forall self lat lon radius eventTypes showOnlyActive showOnlyUpcoming
          showOnlyFavorites favoriteIds event occurrence s1 s2 start end_,
     start_time occurrence = Some s1 -> end_time occurrence = Some s2 ->
     Date_parse env s1 = Some start -> Date_parse env s2 = Some end_ ->
     ~ admitted start end_ ->
     processOccurrence env self lat lon radius (nowOf env p) (cutoffOf env p)
       eventTypes showOnlyActive showOnlyUpcoming showOnlyFavorites favoriteIds
       event occurrence = Ok []).
Proof.
  intros H Hev Hnow Hmax admitted.
  assert (Hspec : forall start end_ status,
            passesTimeFilter (Some start) (Some end_) (nowOf env p) (cutoffOf env p)
              status = true <-> admitted start end_).
  { intros start end_ status. unfold cutoffOf. rewrite Hnow.
    rewrite passesTimeFilter_spec. unfold admitted. tauto. }
  split; [|split; [|split; [exact Hspec|split; [|split]]]].
  - intros pe start end_ Hin Hs He.
    destruct (processEvents_Emitted _ _ _ _ H Hin)
      as (? & ? & ? & ? & ? & ? & _ & _ & _ & _ & _ & _ & Hem).
    pose proof (em_window _ _ _ _ _ _ _ _ _ _ _ _ _ _ _ Hem) as Hw.
    rewrite Hs, He in Hw. apply Hspec in Hw. exact Hw.
  - intros event occurrence s1 s2 start end_ Hie Hio E1 E2 N1 N2 P1 P2 Hadm
      Hgps Htype Ha Hu Hf.
    pose proof H as H0. unfold processEvents in H0.
    apply bind_Ok in H0 as (events' & Hev' & H0).
    fold (yearOf p) in Hev'. rewrite Hev in Hev'. injection Hev' as <-.
    apply bind_Ok in H0 as (artMap & _ & H0).
    apply bind_Ok in H0 as (campMap & _ & H0).
    apply bind_Ok in H0 as (favoriteIds & _ & H0).
    fold (flag (sp_showOnlyActive p)) (flag (sp_showOnlyUpcoming p))
         (flag (sp_showOnlyFavorites p)) in H0.
    rewrite Ha, Hu, Hf in H0.
    fold (nowOf env p) (windowOf p) in H0. fold (cutoffOf env p) in H0.
    fold (eventTypesOf p) (radiusOf p) in H0.
    destruct (processOccurrence_pushes env
                {| artMapCache := Some artMap; campMapCache := Some campMap;
                   originalEvents := events |}
                (sp_lat p) (sp_lon p) (radiusOf p) (nowOf env p) (cutoffOf env p)
                (eventTypesOf p) favoriteIds event occurrence)
      as (pe & Hpe & Hid & Hs & He).
    + rewrite E1. apply truthy_nonempty. exact N1.
    + rewrite E2. apply truthy_nonempty. exact N2.
    + rewrite E1, E2. cbn [new_Date]. rewrite P1, P2. apply Hspec. exact Hadm.
    + exact Hgps.
    + exact Htype.
    + exists pe. rewrite E1 in Hs. rewrite E2 in He. cbn [new_Date] in Hs, He.
      rewrite P1 in Hs. rewrite P2 in He.
      split; [|auto].
      destruct (for_of_returns
                  (processOccurrence env
                     {| artMapCache := Some artMap; campMapCache := Some campMap;
                        originalEvents := events |}
                     (sp_lat p) (sp_lon p) (radiusOf p) (nowOf env p) (cutoffOf env p)
                     (eventTypesOf p) false false false favoriteIds event)
                  (occurrence_set event)) as [o Ho].
      { intros occ _. apply processOccurrence_returns. }
      apply (for_of_emits _ _ _ event o pe H0 Hie Ho).
      apply (for_of_emits _ _ _ occurrence [pe] pe Ho Hio Hpe). left. reflexivity.
  - intros Hw end_ status. apply Hspec. unfold admitted. lia.
  - intros Hw later end_ status Hl.
    destruct (passesTimeFilter _ _ _ _ _) eqn:E; [|reflexivity].
    apply Hspec in E. unfold admitted in E. lia.
  - intros self lat lon radius eventTypes a u f favs event occurrence s1 s2
      start end_ E1 E2 P1 P2 Hn.
    apply (processOccurrence_prefilter _ _ _ _ _ _ _ _ _ _ _ _ _ _ s1 s2 E1 E2).
    rewrite P1, P2.
    destruct (passesTimeFilter _ _ _ _ _) eqn:E; [|reflexivity].
    apply Hspec in E. contradiction.
Qed.

Lemma time_window_prefilter_witness :
  exists pe,
    In pe [sunsetYoga_processed] /\
    pe_id pe = occurrenceId sunsetYoga
                 (Scenario.occurrence "2025-08-27T10:00:00Z" "2025-08-27T11:00:00Z") /\
    pe_start pe = Some 1756288800000 /\ pe_end pe = Some 1756292400000.
Proof.
  destruct (time_window_prefilter (Scenario.device [sunsetYoga] ∅ ∅ ∅ 0)
              (Scenario.at_ "2025-08-27T09:50:00Z" Scenario.noParams)
              [sunsetYoga] [sunsetYoga_processed] 1756288200000)
    as (_ & Hpushed & _).
  - vm_compute. reflexivity.
  - reflexivity.
  - reflexivity.
  - vm_compute. discriminate.
  - apply (Hpushed sunsetYoga
             (Scenario.occurrence "2025-08-27T10:00:00Z" "2025-08-27T11:00:00Z")
             "2025-08-27T10:00:00Z" "2025-08-27T11:00:00Z");
      [left; reflexivity | left; reflexivity | reflexivity | reflexivity
      | discriminate | discriminate | reflexivity | reflexivity
      | right; vm_compute; split; [reflexivity | discriminate]
      | reflexivity | vm_compute; auto 10 | reflexivity | reflexivity | reflexivity].
Defined.

(** C3 as stated fails in two places.  With a window of 143970728531
    minutes the cutoff is more than 8.64e15 ms after the epoch, so it is an
    Invalid Date and no comparison with it holds: the occurrence that starts
    ten minutes after [now] is dropped, although it starts after [now] and
    before [now + timeWindowMinutes]; one minute less and it is admitted.
    And with a window of zero minutes, an occurrence that starts exactly at
    [now + timeWindowMinutes], which is [now], and ends ten minutes later is
    dropped. *)
Lemma time_window_not_as_stated :
  let env := Scenario.device [sunsetYoga] ∅ ∅ ∅ 0 in
  let p := Scenario.at_ "2025-08-27T09:50:00Z" Scenario.noParams in
  nowOf env p = Some 1756288200000
  /\ Date_parse env "2025-08-27T10:00:00Z" = Some 1756288800000
  /\ 1756288200000 < 1756288800000 <= 1756288200000 + 143970728531 * 60000
  /\ cutoffOf env (withWindow p 143970728531) = None
  /\ processEvents env (withWindow p 143970728531) = Ok []
  /\ processEvents env (withWindow p 143970728530) = Ok [sunsetYoga_processed]
  /\ Date_parse env "2025-08-27T09:50:00Z" = Some (1756288200000 + 0 * 60000)
  /\ processEvents (Scenario.device [briefing] ∅ ∅ ∅ 0) (withWindow p 0) = Ok [].
Proof.
  cbv zeta. repeat split; try (vm_compute; reflexivity); vm_compute; discriminate.
Qed.

(** X7. What the filters of a pass leave, when it
    returns: the type of every record is one of the wanted types, and is
    the abbreviation of its event's type, or "othr" when the event has no
    type or an empty one; with [showOnlyActive] every record is NOW; with
    [showOnlyUpcoming] every record is SOON or UPCOMING; with both, or with
    an empty list of wanted types, nothing is left; and without
    [showOnlyFavorites] the favourites are not read: the result is the
    same whatever they are, and when reading them would throw. *)
Theorem processEvents_filters env p out :
  processEvents env p = Ok out ->
  (forall pe, In pe out ->
     In (pe_typeAbbr pe) (eventTypesOf p) /\
     (sp_showOnlyActive p = Some true -> pe_status pe = NOW) /\
     (sp_showOnlyUpcoming p = Some true ->
      pe_status pe = SOON \/ pe_status pe = UPCOMING) /\
     exists events event,
       loadEvents env (yearOf p) = Ok events /\ In event events /\
       pe_eventUid pe = uid event /\
       pe_typeAbbr pe = match event_type event with
                        | Some t => if isEmpty (abbr t) then "othr" else abbr t
                        | None => "othr"
                        end) /\
  (sp_eventTypes p = Some [] -> out = []) /\
  (sp_showOnlyActive p = Some true -> sp_showOnlyUpcoming p = Some true -> out = []) /\
  (flag (sp_showOnlyFavorites p) = false ->
   forall favorites, processEvents (withFavorites env favorites) p = Ok out).
Proof.
  intros H.
  assert (Hall : forall pe, In pe out ->
     In (pe_typeAbbr pe) (eventTypesOf p) /\
     (sp_showOnlyActive p = Some true -> pe_status pe = NOW) /\
     (sp_showOnlyUpcoming p = Some true ->
      pe_status pe = SOON \/ pe_status pe = UPCOMING) /\
     exists events event,
       loadEvents env (yearOf p) = Ok events /\ In event events /\
       pe_eventUid pe = uid event /\
       pe_typeAbbr pe = match event_type event with
                        | Some t => if isEmpty (abbr t) then "othr" else abbr t
                        | None => "othr"
                        end).
  { intros pe Hin.
    destruct (processEvents_Emitted _ _ _ _ H Hin)
      as (events & ? & ? & ? & event & ? & Hev & _ & _ & _ & Hie & _ & Hem).
    split; [exact (em_type_wanted _ _ _ _ _ _ _ _ _ _ _ _ _ _ _ Hem)|].
    split.
    { intros Hp. apply (em_active _ _ _ _ _ _ _ _ _ _ _ _ _ _ _ Hem).
      unfold flag. rewrite Hp. reflexivity. }
    split.
    { intros Hp.
      destruct (em_upcoming _ _ _ _ _ _ _ _ _ _ _ _ _ _ _ Hem) as [H1 H2];
        [unfold flag; rewrite Hp; reflexivity|].
      destruct (pe_status pe); auto; contradiction. }
    exists events, event. split; [exact Hev|]. split; [exact Hie|].
    split; [exact (em_uid _ _ _ _ _ _ _ _ _ _ _ _ _ _ _ Hem)|].
    rewrite (em_type _ _ _ _ _ _ _ _ _ _ _ _ _ _ _ Hem). unfold typeAbbrOf, str_or.
    destruct (event_type event) as [t|]; reflexivity. }
  split; [exact Hall|]. split; [|split].
  - intros He. destruct out as [|pe out]; [reflexivity|]. exfalso.
    destruct (Hall pe (or_introl eq_refl)) as [Hin _].
    unfold eventTypesOf in Hin. rewrite He in Hin. exact Hin.
  - intros H1 H2. destruct out as [|pe out]; [reflexivity|]. exfalso.
    destruct (Hall pe (or_introl eq_refl)) as (_ & Ha & Hu & _).
    specialize (Ha H1). destruct (Hu H2); congruence.
  - intros Hp favorites. rewrite <- H. unfold processEvents, flag in *.
    rewrite Hp. reflexivity.
Qed.

Lemma from_option_true {A : Type} (f : A -> bool) (x : option A) :
  from_option f false x = true -> exists a, x = Some a /\ f a = true.
Proof. destruct x as [a|]; [intros H; exists a; auto | discriminate]. Qed.

(** X8. The distance of a record of the result of a
    pass: when it has one, the viewer has finite coordinates, the event
    has a latitude and a longitude, the distance is [haversineMeters]
    between the two, and it is not greater than the radius of the pass;
    without finite viewer coordinates, and for an event without a latitude
    or a longitude, the distance is null. *)
Theorem processEvents_distance env p out pe :
  processEvents env p = Ok out -> In pe out ->
  (forall d, pe_distance pe = Some d ->
     exists vlat vlon elat elon,
       sp_lat p = Some vlat /\ sp_lon p = Some vlon /\
       Number_isFinite vlat = true /\ Number_isFinite vlon = true /\
       pe_lat pe = Some elat /\ pe_lon pe = Some elon /\
       d = haversineMeters vlat vlon elat elon /\
       num_gt d (radiusOf p) = false) /\
  (hasGPS p = false -> pe_distance pe = None) /\
  (pe_lat pe = None \/ pe_lon pe = None -> pe_distance pe = None).
Proof.
  intros H Hin.
  destruct (processEvents_Emitted _ _ _ _ H Hin)
    as (? & ? & ? & ? & ? & ? & _ & _ & _ & _ & _ & _ & Hem).
  pose proof (em_distance _ _ _ _ _ _ _ _ _ _ _ _ _ _ _ Hem) as Hd.
  split; [|split].
  - intros d E. rewrite E in Hd. destruct Hd as (H1 & H2 & H3 & H4 & H5 & H6).
    apply from_option_true in H1 as (vlat & E1 & F1).
    apply from_option_true in H2 as (vlon & E2 & F2).
    apply from_option_true in H3 as (elat & E3 & _).
    apply from_option_true in H4 as (elon & E4 & _).
    exists vlat, vlon, elat, elon. rewrite E1, E2, E3, E4 in H5.
    repeat split; assumption.
  - intros Hg. destruct (pe_distance pe) as [d|]; [|reflexivity].
    destruct Hd as (H1 & H2 & _). unfold hasGPS in Hg. rewrite H1, H2 in Hg.
    discriminate Hg.
  - intros Hn. destruct (pe_distance pe) as [d|]; [|reflexivity].
    destruct Hd as (_ & _ & H3 & H4 & _).
    destruct Hn as [E|E]; rewrite E in *; discriminate.
Qed.

(** With [showOnlyFavorites], the ids of the records are among the ids
    read. *)
Lemma emitted_favorite_ids env p out :
  processEvents env p = Ok out -> sp_showOnlyFavorites p = Some true ->
  exists ids, getFavoriteIds env = Ok ids /\ forall pe, In pe out -> pe_id pe ∈ ids.
Proof.
  intros H Hp. pose proof H as H0. unfold processEvents in H0.
  apply bind_Ok in H0 as (events & _ & H0).
  apply bind_Ok in H0 as (artMap & _ & H0).
  apply bind_Ok in H0 as (campMap & _ & H0).
  apply bind_Ok in H0 as (favoriteIds & Hf & _).
  rewrite Hp in Hf. cbn [default from_option Datatypes.id] in Hf.
  apply bind_Ok in Hf as (ids & Hids & _).
  exists ids. split; [exact Hids|]. intros pe Hin.
  destruct (processEvents_Emitted _ _ _ _ H Hin)
    as (? & ? & ? & fav & ? & ? & _ & _ & _ & Hfav & _ & _ & Hem).
  destruct (em_favorite _ _ _ _ _ _ _ _ _ _ _ _ _ _ _ Hem) as (ids' & E & Hin');
    [unfold flag; rewrite Hp; reflexivity|].
  destruct Hfav as (ids'' & E1 & E2); [unfold flag; rewrite Hp; reflexivity|].
  congruence.
Qed.

(** X9. The time window of a pass, on the records of
    its result: the start of every record and the time of the pass are
    valid, and the record either is NOW, started and with at least 15
    minutes left, or is SOON or UPCOMING and starts after the time of the
    pass and not after the end of the window. *)
Theorem processEvents_window env p out pe :
  processEvents env p = Ok out -> In pe out ->
  exists start now,
    pe_start pe = Some start /\ nowOf env p = Some now /\
    ((pe_status pe = NOW /\
      exists end_, pe_end pe = Some end_ /\ start <= now <= end_ /\ end_ - now >= 900000)
     \/ ((pe_status pe = SOON \/ pe_status pe = UPCOMING) /\
         now < start <= now + windowOf p * 60000)).
Proof.
  intros H Hin.
  destruct (processEvents_Emitted _ _ _ _ H Hin)
    as (? & ? & ? & ? & ? & ? & _ & _ & _ & _ & _ & _ & Hem).
  pose proof (em_window _ _ _ _ _ _ _ _ _ _ _ _ _ _ _ Hem) as Hw.
  pose proof (em_status _ _ _ _ _ _ _ _ _ _ _ _ _ _ _ Hem) as Hs.
  unfold cutoffOf in Hw. revert Hw Hs.
  generalize (pe_status pe). intros status.
  destruct (pe_start pe) as [start|], (nowOf env p) as [now|];
    try (unfold passesTimeFilter, date_le, date_lt, tnum_le, tnum_lt, getTime;
         rewrite ?andb_false_r; simpl; discriminate).
  intros Hw Hs. exists start, now. split; [reflexivity|]. split; [reflexivity|].
  destruct (pe_end pe) as [end_|].
  - apply passesTimeFilter_spec in Hw. destruct Hw as [Hw|Hw].
    + left. split; [|exists end_; split; [reflexivity|lia]].
      rewrite Hs. apply status_NOW_iff. unfold activeAt, buffer. lia.
    + right. split; [|lia].
      destruct (Z_le_dec (start - now) buffer).
      * left. rewrite Hs. apply status_SOON_iff. unfold soonAt. lia.
      * right. rewrite Hs. apply status_UPCOMING_iff. unfold upcomingAt. lia.
  - right. unfold passesTimeFilter, determineEventStatus, date_le, date_lt, tnum_le,
      tnum_lt, tnum_add, tnum_sub, tnum_ge, Date_of_time, getTime in *.
    rewrite andb_false_r in *. cbn [andb orb] in *.
    apply andb_true_iff in Hw as [H1 H2]. rewrite H1 in Hs.
    apply Z.ltb_lt in H1. unfold TimeClip in H2.
    destruct (Z.abs _ <=? maxTime); [|discriminate H2].
    apply Z.leb_le in H2. split; [|lia].
    destruct (start - now <=? buffer); auto.
Qed.

(** ** The order of the output *)

Lemma for_of_sublist {A B C : Type} (body : A -> result (list B)) (g : B -> C)
    (h : A -> list C) (l : list A) out :
  (forall x o, In x l -> body x = Ok o -> sublist (map g o) (h x)) ->
  for_of body l = Ok out ->
  sublist (map g out) (flat_map h l).
Proof.
  revert out. induction l as [|x l IH]; simpl; intros out Hb H.
  - injection H as <-. constructor.
  - apply bind_Ok in H as (o & Ho & H).
    apply bind_Ok in H as (rest & Hrest & H). injection H as <-.
    rewrite map_app. apply sublist_app.
    + apply (Hb x o); [left; reflexivity | exact Ho].
    + apply IH; [|exact Hrest]. intros y oy Hy. apply Hb. right. exact Hy.
Qed.

Lemma for_of_sublist2 {A B : Type} (body body' : A -> result (list B))
    (l : list A) out out' :
  (forall x o o', In x l -> body x = Ok o -> body' x = Ok o' -> sublist o o') ->
  for_of body l = Ok out -> for_of body' l = Ok out' ->
  sublist out out'.
Proof.
  revert out out'. induction l as [|x l IH]; simpl; intros out out' Hb H H'.
  - injection H as <-. injection H' as <-. constructor.
  - apply bind_Ok in H as (o & Ho & H).
    apply bind_Ok in H as (rest & Hrest & H). injection H as <-.
    apply bind_Ok in H' as (o' & Ho' & H').
    apply bind_Ok in H' as (rest' & Hrest' & H'). injection H' as <-.
    apply sublist_app.
    + apply (Hb x); [left; reflexivity | exact Ho | exact Ho'].
    + apply IH; [|exact Hrest|exact Hrest']. intros y oy oy' Hy. apply Hb. right. exact Hy.
Qed.

Lemma flat_map_singleton {A B : Type} (f : A -> B) (l : list A) :
  flat_map (fun x => [f x]) l = map f l.
Proof. induction l as [|x l IH]; simpl; [reflexivity | rewrite IH; reflexivity]. Qed.

(** X10. The result of a pass follows the order of
    the data: the ids of its records, each the uid of the event, "_" and
    the start time of the occurrence, are a sublist of the ids of all the
    occurrences of the data set in data order, so that an occurrence gives
    at most one record. *)
Theorem processEvents_data_order env p out events :
  processEvents env p = Ok out -> loadEvents env (yearOf p) = Ok events ->
  sublist (map pe_id out) (occurrenceIds events).
Proof.
  unfold processEvents. intros H Hev. fold (yearOf p) in H. rewrite Hev in H.
  cbn [mbind result_bind] in H.
  apply bind_Ok in H as (artMap & _ & H).
  apply bind_Ok in H as (campMap & _ & H).
  apply bind_Ok in H as (favoriteIds & _ & H).
  unfold occurrenceIds.
  eapply for_of_sublist; [|exact H]. intros event o _ Ho.
  cbv beta in Ho |- *. rewrite <- (flat_map_singleton (occurrenceId event)).
  eapply for_of_sublist; [|exact Ho]. intros occ o' _ Ho'. cbv beta in Ho' |- *.
  destruct (processOccurrence_Emitted _ _ _ _ _ _ _ _ _ _ _ _ _ _ _ Ho')
    as [-> | (pe & -> & Hem)]; simpl.
  - apply sublist_nil_l.
  - rewrite (em_id _ _ _ _ _ _ _ _ _ _ _ _ _ _ _ Hem). reflexivity.
Qed.

(** ** A wider window *)

Lemma processOccurrence_cutoff env self lat lon radius now upcomingCutoff
    upcomingCutoff' eventTypes showOnlyActive showOnlyUpcoming showOnlyFavorites
    favoriteIds event occurrence :
  (forall start, date_le start upcomingCutoff = true ->
                 date_le start upcomingCutoff' = true) ->
  exists o o',
    processOccurrence env self lat lon radius now upcomingCutoff eventTypes
      showOnlyActive showOnlyUpcoming showOnlyFavorites favoriteIds event occurrence
    = Ok o /\
    processOccurrence env self lat lon radius now upcomingCutoff' eventTypes
      showOnlyActive showOnlyUpcoming showOnlyFavorites favoriteIds event occurrence
    = Ok o' /\
    sublist o o'.
Proof.
  intros Hmono.
  destruct (processOccurrence_returns env self lat lon radius now upcomingCutoff'
              eventTypes showOnlyActive showOnlyUpcoming showOnlyFavorites
              favoriteIds event occurrence) as [o' Ho'].
  unfold processOccurrence in *.
  destruct (truthy (start_time occurrence));
    [|exists [], o'; split; [reflexivity|split; [exact Ho'|apply sublist_nil_l]]].
  destruct (truthy (end_time occurrence));
    [|exists [], o'; split; [reflexivity|split; [exact Ho'|apply sublist_nil_l]]].
  destruct (passesTimeFilter _ _ _ upcomingCutoff _) eqn:Hp; cbn [negb];
    [|exists [], o'; split; [reflexivity|split; [exact Ho'|apply sublist_nil_l]]].
  assert (Hp' : passesTimeFilter (new_Date env (start_time occurrence))
                  (new_Date env (end_time occurrence)) now upcomingCutoff'
                  (determineEventStatus (new_Date env (start_time occurrence))
                     (new_Date env (end_time occurrence)) now) = true).
  { unfold passesTimeFilter in *. apply orb_true_iff in Hp as [Hp|Hp];
      apply orb_true_iff; [left; exact Hp|right].
    apply andb_true_iff in Hp as [H1 H2]. rewrite H1. apply Hmono. exact H2. }
  rewrite Hp' in Ho' |- *. cbn [negb] in Ho' |- *. exists o', o'.
  split; [exact Ho'|]. split; [exact Ho'|]. reflexivity.
Qed.

(** X11. Widening the time window of a pass,
    everything else the same, removes no record and keeps the order, as
    long as the end of the wider window is still a date, that is, not more
    than 8.64e15 ms after the epoch: the result with the smaller window is
    then a sublist of the result with the greater one. *)
Theorem processEvents_wider_window env p (w w' : Z) out out' :
  w <= w' ->
  (forall now, nowOf env p = Some now -> now + w' * 60000 <= maxTime) ->
  processEvents env (withWindow p w) = Ok out ->
  processEvents env (withWindow p w') = Ok out' ->
  sublist out out'.
Proof.
  intros Hw Hmax H H'. unfold processEvents in H, H'.
  cbn [withWindow sp_lat sp_lon sp_radius sp_window sp_year sp_now sp_eventTypes
       sp_showOnlyActive sp_showOnlyUpcoming sp_showOnlyFavorites] in H, H'.
  apply bind_Ok in H as (events & Hev & H).
  apply bind_Ok in H' as (events' & Hev' & H').
  rewrite Hev in Hev'. injection Hev' as <-.
  apply bind_Ok in H as (artMap & Ha & H).
  apply bind_Ok in H' as (artMap' & Ha' & H').
  rewrite Ha in Ha'. injection Ha' as <-.
  apply bind_Ok in H as (campMap & Hc & H).
  apply bind_Ok in H' as (campMap' & Hc' & H').
  rewrite Hc in Hc'. injection Hc' as <-.
  apply bind_Ok in H as (favoriteIds & Hf & H).
  apply bind_Ok in H' as (favoriteIds' & Hf' & H').
  rewrite Hf in Hf'. injection Hf' as <-.
  eapply for_of_sublist2; [|exact H|exact H']. intros event o o' _ Ho Ho'.
  cbv beta in Ho, Ho'.
  eapply for_of_sublist2; [|exact Ho|exact Ho']. intros occ q q' _ Hq Hq'.
  cbv beta in Hq, Hq'.
  match type of Hq with
  | processOccurrence _ ?self ?lat ?lon ?radius ?now ?c ?types ?a ?u ?f ?ids _ _ = _ =>
      match type of Hq' with
      | processOccurrence _ _ _ _ _ _ ?c' _ _ _ _ _ _ _ = _ =>
          destruct (processOccurrence_cutoff env self lat lon radius now c c'
                      types a u f ids event occ) as (r & r' & Hr & Hr' & Hsub)
      end
  end.
  - intros start. unfold date_le, Date_of_time, TimeClip, tnum_add, tnum_le, getTime.
    cbn [default from_option Datatypes.id]. unfold nowOf in Hmax.
    destruct start as [s|], (default (Some (Date_now env)) (sp_now p)) as [n|];
      try discriminate.
    specialize (Hmax n eq_refl).
    destruct (Z.leb_spec (Z.abs (n + w * 60 * 1000)) maxTime) as [Hclip|Hclip];
      [|discriminate].
    destruct (Z.leb_spec (Z.abs (n + w' * 60 * 1000)) maxTime) as [Hclip2|Hclip2];
      [rewrite !Z.leb_le; nia | lia].
  - rewrite Hr in Hq. rewrite Hr' in Hq'. injection Hq as <-. injection Hq' as <-.
    exact Hsub.
Qed.

(** ** A worked pass *)

Lemma processEvents_filters_witness :
  In (pe_typeAbbr sunsetYoga_processed)
     (eventTypesOf (Scenario.at_ "2025-08-27T09:50:00Z" Scenario.noParams))
  /\ forall favorites,
       processEvents (withFavorites (Scenario.device [sunsetYoga] ∅ ∅ ∅ 0) favorites)
         (Scenario.at_ "2025-08-27T09:50:00Z" Scenario.noParams)
       = Ok [sunsetYoga_processed].
Proof.
  assert (Hrun : processEvents (Scenario.device [sunsetYoga] ∅ ∅ ∅ 0)
                   (Scenario.at_ "2025-08-27T09:50:00Z" Scenario.noParams)
                 = Ok [sunsetYoga_processed]) by (vm_compute; reflexivity).
  destruct (processEvents_filters _ _ _ Hrun) as (Hall & _ & _ & Hfav).
  split.
  - apply (Hall sunsetYoga_processed). left. reflexivity.
  - apply Hfav. reflexivity.
Defined.

Lemma processEvents_distance_witness :
  pe_distance sunsetYoga_processed = None.
Proof.
  assert (Hrun : processEvents (Scenario.device [sunsetYoga] ∅ ∅ ∅ 0)
                   (Scenario.at_ "2025-08-27T09:50:00Z" Scenario.noParams)
                 = Ok [sunsetYoga_processed]) by (vm_compute; reflexivity).
  destruct (processEvents_distance _ _ _ sunsetYoga_processed Hrun (or_introl eq_refl))
    as (_ & Hgps & _).
  apply Hgps. reflexivity.
Defined.

Lemma processEvents_window_witness :
  exists start now,
    pe_start sunsetYoga_processed = Some start /\
    nowOf (Scenario.device [sunsetYoga] ∅ ∅ ∅ 0)
      (Scenario.at_ "2025-08-27T09:50:00Z" Scenario.noParams) = Some now /\
    ((pe_status sunsetYoga_processed = NOW /\
      exists end_, pe_end sunsetYoga_processed = Some end_ /\
                   start <= now <= end_ /\ end_ - now >= 900000)
     \/ ((pe_status sunsetYoga_processed = SOON
          \/ pe_status sunsetYoga_processed = UPCOMING) /\
         now < start
         <= now + windowOf (Scenario.at_ "2025-08-27T09:50:00Z" Scenario.noParams)
                  * 60000)).
Proof.
  apply (processEvents_window (Scenario.device [sunsetYoga] ∅ ∅ ∅ 0)
           (Scenario.at_ "2025-08-27T09:50:00Z" Scenario.noParams)
           [sunsetYoga_processed] sunsetYoga_processed).
  - vm_compute. reflexivity.
  - left. reflexivity.
Defined.

Lemma processEvents_data_order_witness :
  sublist (map pe_id [sunsetYoga_processed]) (occurrenceIds [sunsetYoga]).
Proof.
  apply (processEvents_data_order (Scenario.device [sunsetYoga] ∅ ∅ ∅ 0)
           (Scenario.at_ "2025-08-27T09:50:00Z" Scenario.noParams)
           [sunsetYoga_processed] [sunsetYoga]).
  - vm_compute. reflexivity.
  - reflexivity.
Defined.

Lemma processEvents_wider_window_witness :
  sublist [] [sunsetYoga_processed].
Proof.
  apply (processEvents_wider_window (Scenario.device [sunsetYoga] ∅ ∅ ∅ 0)
           (Scenario.at_ "2025-08-27T09:50:00Z" Scenario.noParams) 5 60).
  - lia.
  - intros now E. vm_compute in E. injection E as <-. vm_compute. discriminate.
  - vm_compute. reflexivity.
  - vm_compute. reflexivity.
Defined.

Import EventProcessorStats.

(** ** Statistics *)

Lemma count_cons {A : Type} (p : A -> bool) (x : A) (l : list A) :
  count p (x :: l) = (if p x then 1 else 0) + count p l.
Proof.
  unfold count. cbn [List.filter]. destruct (p x); cbn [length]; lia.
Qed.

Lemma count_nil {A : Type} (p : A -> bool) : count p [] = 0.
Proof. reflexivity. Qed.

Lemma count_all {A : Type} (p : A -> bool) (l : list A) :
  (forall x, In x l -> p x = true) -> count p l = Z.of_nat (length l).
Proof.
  induction l as [|x l IH]; intros H; [reflexivity|].
  rewrite count_cons, (H x (or_introl eq_refl)), IH by (intros y Hy; apply H; right; exact Hy).
  cbn [length]. lia.
Qed.

Lemma count_filter {A : Type} (p : A -> bool) (l : list A) :
  count p (List.filter p l) = Z.of_nat (length (List.filter p l)).
Proof. apply count_all. intros x Hx. apply filter_In in Hx. tauto. Qed.

Lemma count_none {A : Type} (p : A -> bool) (l : list A) :
  (forall x, In x l -> p x = false) -> count p l = 0.
Proof.
  induction l as [|x l IH]; intros H; [reflexivity|].
  rewrite count_cons, (H x (or_introl eq_refl)), IH by (intros y Hy; apply H; right; exact Hy).
  reflexivity.
Qed.

Lemma status_counts (events : list ProcessedEvent) :
  count (fun e => bool_decide (pe_status e = NOW)) events
  + count (fun e => bool_decide (pe_status e = UPCOMING)
                    || bool_decide (pe_status e = SOON)) events
  + count (fun e => bool_decide (pe_status e = ENDED)) events
  = Z.of_nat (length events).
Proof.
  induction events as [|e events IH]; [reflexivity|].
  rewrite !count_cons. cbn [length].
  destruct (pe_status e);
    repeat match goal with
           | |- context [bool_decide ?P] =>
               let b := eval vm_compute in (bool_decide P) in
               change (bool_decide P) with b
           end; cbn [orb]; lia.
Qed.

(** X12. The counts by status of
    [getEventStats]: the active and the upcoming events are all the events
    but the ENDED ones, so that on the result of a pass, which holds no
    ENDED event, the two counts add up to the total. *)
Theorem getEventStats_status_counts (events : list ProcessedEvent) userRadius :
  let stats := getEventStats events userRadius in
  totalEvents stats = Z.of_nat (length events) /\
  activeEvents stats + upcomingEvents stats
  = totalEvents stats - count (fun e => bool_decide (pe_status e = ENDED)) events /\
  (forall env p, processEvents env p = Ok events ->
     activeEvents stats + upcomingEvents stats = totalEvents stats).
Proof.
  cbv zeta. unfold getEventStats. cbn [totalEvents activeEvents upcomingEvents].
  pose proof (status_counts events) as Hc.
  split; [reflexivity|]. split; [lia|].
  intros env p H.
  assert (E : count (fun e => bool_decide (pe_status e = ENDED)) events = 0).
  { apply count_none. intros pe Hin. apply bool_decide_eq_false.
    destruct (processEvents_Emitted _ _ _ _ H Hin)
      as (? & ? & ? & ? & ? & ? & _ & _ & _ & _ & _ & _ & Hem).
    pose proof (em_window _ _ _ _ _ _ _ _ _ _ _ _ _ _ _ Hem) as Hw.
    apply passesTimeFilter_not_ENDED in Hw.
    rewrite (em_status _ _ _ _ _ _ _ _ _ _ _ _ _ _ _ Hem). exact Hw. }
  lia.
Qed.

Lemma tally_fold (events : list ProcessedEvent) (byType : gmap string Z) (t : string) :
  default 0 (fold_left tally events byType !! t)
  = default 0 (byType !! t) + count (fun e => String.eqb (pe_typeAbbr e) t) events
  /\ (fold_left tally events byType !! t = None
      <-> byType !! t = None /\ count (fun e => String.eqb (pe_typeAbbr e) t) events = 0).
Proof.
  revert byType. induction events as [|e events IH]; intros byType.
  - cbn [fold_left]. rewrite count_nil. split; [lia|tauto].
  - cbn [fold_left]. destruct (IH (tally byType e)) as [IH1 IH2].
    rewrite IH1, IH2, count_cons. unfold tally.
    assert (Hc : 0 <= count (fun e => String.eqb (pe_typeAbbr e) t) events)
      by (unfold count; lia).
    destruct (String.eqb (pe_typeAbbr e) t) eqn:E.
    + apply String.eqb_eq in E. rewrite E, lookup_insert_eq. cbn [default from_option Datatypes.id].
      split; [lia|]. split; [intros [? _]; discriminate | intros [_ ?]; lia].
    + apply String.eqb_neq in E. rewrite lookup_insert_ne by exact E.
      split; [lia|]. tauto.
Qed.

(** X13. The counts by type of [getEventStats],
    read at a name that [Object.prototype] does not define: a type that no
    event has is absent from the object, not counted as zero; any other
    type maps to the number of events of that type. *)
Theorem getEventStats_eventsByType (events : list ProcessedEvent) userRadius (t : string) :
  isOwnName t = true ->
  let stats := getEventStats events userRadius in
  let n := count (fun e => String.eqb (pe_typeAbbr e) t) events in
  eventsByType stats !! t = if n =? 0 then None else Some n.
Proof.
  intros _. cbv zeta. unfold getEventStats. cbn [eventsByType].
  destruct (tally_fold events ∅ t) as [H1 H2]. fold tally.
  rewrite lookup_empty in H1, H2. cbn [default from_option Datatypes.id] in H1.
  destruct (count _ events =? 0) eqn:E.
  - apply Z.eqb_eq in E. apply H2. auto.
  - apply Z.eqb_neq in E. destruct (fold_left tally events ∅ !! t) as [n|] eqn:El.
    + cbn [default from_option Datatypes.id] in H1. f_equal. lia.
    + exfalso. apply E. apply H2. reflexivity.
Qed.

Lemma getEventStats_eventsByType_witness :
  eventsByType (getEventStats [sunsetYoga_processed; artTour_processed] None) !! "othr"
  = Some 2
  /\ eventsByType (getEventStats [sunsetYoga_processed; artTour_processed] None) !! "prty"
     = None.
Proof.
  split.
  - exact (getEventStats_eventsByType [sunsetYoga_processed; artTour_processed] None
             "othr" eq_refl).
  - exact (getEventStats_eventsByType [sunsetYoga_processed; artTour_processed] None
             "prty" eq_refl).
Defined.

Lemma num_le_Fin (x y : R) : num_le (Fin x) (Fin y) = true <-> (x <= y)%R.
Proof.
  unfold num_le. destruct (Rle_dec x y); split; intros H;
    try reflexivity; try assumption; try discriminate; contradiction.
Qed.

Lemma within_radius (d : num) (r : R) :
  (0 < r)%R -> num_gt d (Fin r) = false ->
  num_le (distance_or_0 (Some d)) (Fin r) = true.
Proof.
  intros Hr Hd. unfold distance_or_0, num_truthy.
  destruct d as [|x]; [apply num_le_Fin; simpl; lra|].
  destruct (Req_dec_T x 0); apply num_le_Fin; [simpl; lra|].
  destruct (Rle_dec x r) as [H|H]; [exact H|].
  assert (Hg : num_gt (Fin x) (Fin r) = true) by (apply num_gt_Fin; lra).
  congruence.
Qed.

(** X14. On the result of a pass, with the radius of
    the pass, when that radius is positive, every event that has a distance
    counts as nearby: the pass has dropped the events beyond the radius
    already. *)
Theorem getEventStats_nearby env p out (r : R) :
  processEvents env p = Ok out -> radiusOf p = Fin r -> (0 < r)%R ->
  nearbyEvents (getEventStats out (Some (Fin r)))
  = count (fun e => negb (bool_decide (pe_distance e = None))) out.
Proof.
  intros H Hrad Hr. unfold getEventStats. cbn [nearbyEvents default from_option Datatypes.id].
  set (withDistance := List.filter _ out).
  assert (Hall : count (fun e => num_le (distance_or_0 (pe_distance e)) (Fin r))
                   withDistance = Z.of_nat (length withDistance)).
  { apply count_all. intros e He. apply filter_In in He as [Hin Hd].
    apply negb_true_iff, bool_decide_eq_false in Hd.
    destruct (pe_distance e) as [d|] eqn:E; [|contradiction].
    destruct (processEvents_Emitted _ _ _ _ H Hin)
      as (? & ? & ? & ? & ? & ? & _ & _ & _ & _ & _ & _ & Hem).
    pose proof (em_distance _ _ _ _ _ _ _ _ _ _ _ _ _ _ _ Hem) as Hdist.
    rewrite E in Hdist. destruct Hdist as (_ & _ & _ & _ & _ & Hgt).
    rewrite Hrad in Hgt. apply within_radius; assumption. }
  rewrite Hall. unfold count. fold withDistance.
  assert (Ht : num_truthy (Fin r) = true) by (apply num_truthy_Fin; lra).
  rewrite Ht, andb_true_r.
  destruct withDistance; reflexivity.
Qed.

(** ** The days of the future occurrences *)

Lemma Array_indexOf_bounds (x : string) (l : list string) :
  -1 <= Array_indexOf x l < Z.of_nat (length l).
Proof.
  induction l as [|y l IH]; cbn [Array_indexOf length]; [lia|].
  destruct (String.eqb y x); [lia|].
  destruct (Array_indexOf x l <? 0) eqn:E; [lia|]. apply Z.ltb_ge in E. lia.
Qed.

Lemma Array_indexOf_In (x : string) (l : list string) :
  In x l <-> 0 <= Array_indexOf x l.
Proof.
  induction l as [|y l IH]; cbn [Array_indexOf In]; [lia|].
  destruct (String.eqb y x) eqn:E.
  - apply String.eqb_eq in E. split; [lia|auto].
  - apply String.eqb_neq in E.
    destruct (Array_indexOf x l <? 0) eqn:E'.
    + apply Z.ltb_lt in E'. split; [intros [?|Hx]; [contradiction|apply IH in Hx; lia] | lia].
    + apply Z.ltb_ge in E'. split; [lia|]. intros _. right. apply IH. exact E'.
Qed.

Lemma Array_indexOf_inj (x y : string) (l : list string) :
  In x l -> Array_indexOf x l = Array_indexOf y l -> x = y.
Proof.
  induction l as [|z l IH]; cbn [Array_indexOf In]; [tauto|].
  intros Hx. pose proof (Array_indexOf_bounds x l). pose proof (Array_indexOf_bounds y l).
  destruct (String.eqb z x) eqn:Ex, (String.eqb z y) eqn:Ey;
    rewrite ?String.eqb_eq, ?String.eqb_neq in *.
  - congruence.
  - destruct (Array_indexOf y l <? 0) eqn:E; [lia|]. apply Z.ltb_ge in E. lia.
  - destruct (Array_indexOf x l <? 0) eqn:E; [lia|]. apply Z.ltb_ge in E. lia.
  - destruct Hx as [?|Hx]; [contradiction|].
    pose proof (proj1 (Array_indexOf_In x l) Hx).
    destruct (Array_indexOf x l <? 0) eqn:E1; [apply Z.ltb_lt in E1; lia|].
    destruct (Array_indexOf y l <? 0) eqn:E2; [lia|].
    intros E. apply IH; [exact Hx | lia].
Qed.

(** A list of members of [w] that is strictly increasing by position in [w]
    is a sublist of [w]. *)
Lemma increasing_sublist (w l : list string) :
  (forall x, In x l -> In x w) ->
  StronglySorted (fun a b => Array_indexOf a w < Array_indexOf b w) l ->
  sublist l w.
Proof.
  revert l. induction w as [|a w IH]; intros l Hin Hs.
  - destruct l as [|x l]; [constructor|]. destruct (Hin x (or_introl eq_refl)).
  - destruct l as [|x l]; [apply sublist_nil_l|].
    apply StronglySorted_inv in Hs as [Hs Hx].
    assert (Hrest : forall y, In y l -> String.eqb a y = false /\ In y w).
    { intros y Hy. rewrite List.Forall_forall in Hx. specialize (Hx y Hy).
      pose proof (proj1 (Array_indexOf_In x (a :: w)) (Hin x (or_introl eq_refl))) as Hx0.
      destruct (String.eqb a y) eqn:E.
      - assert (E0 : Array_indexOf y (a :: w) = 0)
          by (cbn [Array_indexOf]; rewrite E; reflexivity).
        lia.
      - split; [reflexivity|]. apply String.eqb_neq in E.
        destruct (Hin y (or_intror Hy)); [contradiction | assumption]. }
    assert (Hs' : StronglySorted
                    (fun a0 b => Array_indexOf a0 w < Array_indexOf b w) l).
    { clear Hx. induction Hs as [|y l Hs IHs Hy]; [constructor|].
      constructor.
      - apply IHs. intros z Hz; apply Hin; simpl in *; tauto.
        intros z Hz. apply Hrest. right. exact Hz.
      - rewrite List.Forall_forall in *. intros z Hz. specialize (Hy z Hz).
        cbn [Array_indexOf] in Hy.
        destruct (Hrest y (or_introl eq_refl)) as [Ey Hyw].
        destruct (Hrest z (or_intror Hz)) as [Ez Hzw].
        rewrite Ey, Ez in Hy.
        apply Array_indexOf_In in Hyw, Hzw.
        destruct (Array_indexOf y w <? 0) eqn:E1; [apply Z.ltb_lt in E1; lia|].
        destruct (Array_indexOf z w <? 0) eqn:E2; [apply Z.ltb_lt in E2; lia|].
        lia. }
    destruct (String.eqb a x) eqn:E.
    + apply String.eqb_eq in E. subst x. apply sublist_skip. apply IH; [|exact Hs'].
      intros y Hy. apply Hrest. exact Hy.
    + apply sublist_cons. apply IH.
      * intros y [<-|Hy]; [|apply Hrest; exact Hy].
        apply String.eqb_neq in E.
        destruct (Hin x (or_introl eq_refl)); [contradiction | assumption].
      * constructor; [exact Hs'|]. rewrite List.Forall_forall in *. intros z Hz.
        specialize (Hx z Hz). cbn [Array_indexOf] in Hx.
        destruct (Hrest z Hz) as [Ez Hzw]. rewrite E, Ez in Hx.
        apply Array_indexOf_In in Hzw.
        assert (Hxw : 0 <= Array_indexOf x w).
        { apply Array_indexOf_In. apply String.eqb_neq in E.
          destruct (Hin x (or_introl eq_refl)); [contradiction | assumption]. }
        destruct (Array_indexOf x w <? 0) eqn:E1; [apply Z.ltb_lt in E1; lia|].
        destruct (Array_indexOf z w <? 0) eqn:E2; [apply Z.ltb_lt in E2; lia|].
        lia.
Qed.

Lemma firstOccurrences_In (seen l : list string) (x : string) :
  In x (firstOccurrences seen l) <-> In x l /\ ~ In x seen.
Proof.
  revert seen. induction l as [|y l IH]; intros seen; cbn [firstOccurrences In].
  - tauto.
  - destruct (existsb (String.eqb y) seen) eqn:E.
    + apply existsb_exists in E as (z & Hz & E). apply String.eqb_eq in E. subst z.
      rewrite IH. split; [tauto|]. intros [[->|H] Hn]; [contradiction|tauto].
    + assert (Hy : ~ In y seen).
      { intros H. assert (existsb (String.eqb y) seen = true); [|congruence].
        apply existsb_exists. exists y. split; [exact H | apply String.eqb_refl]. }
      cbn [In]. rewrite IH. cbn [In]. split.
      * intros [->|[H Hn]]; [tauto|]. tauto.
      * intros [[->|H] Hn]; [tauto|].
        destruct (String.eqb y x) eqn:Exy.
        -- apply String.eqb_eq in Exy. tauto.
        -- apply String.eqb_neq in Exy. right. tauto.
Qed.

Lemma firstOccurrences_NoDup (seen l : list string) : List.NoDup (firstOccurrences seen l).
Proof.
  revert seen. induction l as [|y l IH]; intros seen; cbn [firstOccurrences].
  - constructor.
  - destruct (existsb (String.eqb y) seen); [apply IH|].
    constructor; [|apply IH]. rewrite firstOccurrences_In. cbn [In]. tauto.
Qed.

Lemma Ordered_increasing (l : list string) :
  (forall x, In x l -> In x weekdays) -> List.NoDup l -> Ordered byWeekday l ->
  StronglySorted (fun a b => Array_indexOf a weekdays < Array_indexOf b weekdays) l.
Proof.
  intros Hin Hnd Ho. induction Ho as [|x l Hx Ho IH]; [constructor|].
  inversion Hnd as [|? ? Hnx Hnd']; subst.
  constructor.
  - apply IH; [|exact Hnd']. intros y Hy. apply Hin. right. exact Hy.
  - rewrite List.Forall_forall. intros y Hy. specialize (Hx y Hy).
    unfold notAfter, byWeekday in Hx. rewrite isPos_Z in Hx. apply Z.ltb_ge in Hx.
    destruct (Z.eq_dec (Array_indexOf x weekdays) (Array_indexOf y weekdays)) as [E|E];
      [|lia].
    apply Array_indexOf_inj in E; [|apply Hin; left; reflexivity].
    subst y. contradiction.
Qed.

Lemma getDay_range env t : 0 <= getDay env t < 7.
Proof. unfold getDay. apply Z.mod_pos_bound. lia. Qed.

Lemma weekday_of_getDay env t :
  exists d, nth_error weekdays (Z.to_nat (getDay env t)) = Some d
            /\ nth (Z.to_nat (getDay env t)) weekdays "" = d /\ In d weekdays.
Proof.
  pose proof (getDay_range env t) as H.
  assert (Hn : (Z.to_nat (getDay env t) < 7)%nat) by lia.
  destruct (Z.to_nat (getDay env t)) as [|[|[|[|[|[|[|n]]]]]]]; [..|lia];
    eexists; (split; [reflexivity|split; [reflexivity|]]); simpl; tauto.
Qed.

(** X15. The text [getFutureOccurrences] builds is
    a list of day abbreviations joined by commas, each at most once and in
    the order of the week from Sunday on; a day is listed exactly when the
    event, the first of the data set with the given uid, has more than one
    occurrence, and one of them has a valid start that is after the wall
    clock, is not the current start, and falls on that day of the week in
    the time zone of the device. *)
Theorem getFutureOccurrences_days env self eventUid currentStart :
  exists days,
    getFutureOccurrences env self eventUid currentStart = Array_join "," days /\
    sublist days weekdays /\
    forall d, In d days <->
      exists event occ t,
        find (fun e => String.eqb (uid e) eventUid) (originalEvents self) = Some event /\
        (1 < length (occurrence_set event))%nat /\
        In occ (occurrence_set event) /\
        new_Date env (start_time occ) = Some t /\
        Date_now env < t /\ currentStart <> Some t /\
        nth_error weekdays (Z.to_nat (getDay env t)) = Some d.
Proof.
  unfold getFutureOccurrences.
  destruct (find _ (originalEvents self)) as [event|] eqn:Ef;
    [|exists []; split; [reflexivity|split; [apply sublist_nil_l|]];
      intros d; split; [intros [] | intros (? & ? & ? & ? & _); discriminate]].
  destruct (length (occurrence_set event) <=? 1)%nat eqn:El.
  { exists []. split; [reflexivity|]. split; [apply sublist_nil_l|].
    intros d; split; [intros []|]. intros (e & ? & ? & E & Hl & _).
    injection E as <-. apply Nat.leb_le in El. lia. }
  apply Nat.leb_gt in El.
  set (future := filter _ (occurrence_set event)).
  set (days0 := map _ future).
  fold byWeekday.
  exists (Array_sort byWeekday (firstOccurrences [] days0)).
  split; [reflexivity|].
  assert (Hmem : forall d, In d days0 <->
            exists occ t, In occ (occurrence_set event) /\
              new_Date env (start_time occ) = Some t /\
              Date_now env < t /\ currentStart <> Some t /\
              nth_error weekdays (Z.to_nat (getDay env t)) = Some d).
  { intros d. unfold days0. rewrite in_map_iff. split.
    - intros (occ & Hd & Hocc). apply list_elem_of_In in Hocc.
      unfold future in Hocc. apply list_elem_of_filter in Hocc as [Hp Hocc].
      apply list_elem_of_In in Hocc. apply Is_true_true in Hp.
      apply andb_true_iff in Hp as [H1 H2]. unfold tnum_gt, getTime in H1, H2.
      destruct (new_Date env (start_time occ)) as [t|] eqn:Et; [|discriminate H1].
      cbn [tnum_lt] in H1. apply Z.ltb_lt in H1.
      exists occ, t. split; [exact Hocc|]. split; [exact Et|].
      split; [exact H1|]. split.
      + intros ->. cbn [tnum_eqb] in H2. rewrite Z.eqb_refl in H2. discriminate H2.
      + destruct (weekday_of_getDay env t) as (d' & E1 & E2 & _). congruence.
    - intros (occ & t & Hocc & Et & Hnow & Hcur & Hd). exists occ. split.
      + rewrite Et. destruct (weekday_of_getDay env t) as (d' & E1 & E2 & _). congruence.
      + apply list_elem_of_In. unfold future. apply list_elem_of_filter.
        split; [|apply list_elem_of_In; exact Hocc].
        apply Is_true_true. unfold tnum_gt, getTime. rewrite Et.
        cbn [tnum_lt]. apply andb_true_iff. split; [apply Z.ltb_lt; exact Hnow|].
        apply negb_true_iff. destruct currentStart as [c|]; [|reflexivity].
        cbn [tnum_eqb]. apply Z.eqb_neq. congruence. }
  assert (Hperm := Array_sort_perm byWeekday (firstOccurrences [] days0)).
  assert (Hin : forall d, In d (Array_sort byWeekday (firstOccurrences [] days0))
                          <-> In d days0).
  { intros d. split; intros H.
    - apply (Permutation_in d (Permutation_sym Hperm)) in H.
      apply firstOccurrences_In in H. tauto.
    - apply (Permutation_in d Hperm). apply firstOccurrences_In. cbn [In]. tauto. }
  assert (Hweek : forall d, In d days0 -> In d weekdays).
  { intros d Hd. apply Hmem in Hd as (occ & t & _ & _ & _ & _ & Hd).
    destruct (weekday_of_getDay env t) as (d' & E1 & _ & Hw). congruence. }
  split.
  - apply increasing_sublist; [intros d Hd; apply Hweek, Hin, Hd|].
    apply Ordered_increasing.
    + intros d Hd. apply Hweek, Hin, Hd.
    + apply (Permutation_NoDup Hperm). apply firstOccurrences_NoDup.
    + apply (Array_sort_Ordered byWeekday) with (dom := fun d => In d weekdays).
      * intros a b. unfold byWeekday. rewrite isPos_Z, isNeg_Z.
        apply bool_eq_iff. rewrite !Z.ltb_lt. lia.
      * intros a b c. unfold byWeekday. rewrite !isNeg_Z, !Z.ltb_lt. lia.
      * intros a b Ha _. unfold isTie, byWeekday. rewrite isPos_Z, isNeg_Z.
        intros H. apply andb_true_iff in H as [H1 H2].
        apply negb_true_iff in H1, H2. apply Z.ltb_ge in H1, H2.
        apply (Array_indexOf_inj a b weekdays Ha). lia.
      * intros d Hd. apply firstOccurrences_In in Hd as [Hd _]. apply Hweek, Hd.
  - intros d. rewrite Hin, Hmem. split.
    + intros (occ & t & H). exists event, occ, t. tauto.
    + intros (e & occ & t & E & _ & H). injection E as <-. exists occ, t. exact H.
Qed.

(** ** Sorting with ties *)

Section SortedOutput.
Context {A : Type} (compare : A -> A -> num) (dom : A -> Prop) (le : A -> A -> Prop).

Hypothesis le_total : forall a b, dom a -> dom b -> le a b \/ le b a.
Hypothesis le_trans : forall a b c, dom a -> dom b -> dom c -> le a b -> le b c -> le a c.
Hypothesis le_compare : forall a b, dom a -> dom b ->
  (isPos (compare a b) = false <-> le a b).

Lemma sort_insert_sorted x l :
  dom x -> (forall y, In y l -> dom y) ->
  StronglySorted le l -> StronglySorted le (sort_insert compare x l).
Proof.
  intros Hx Hl Hs. induction Hs as [|y l Hs IH Hy]; cbn [sort_insert].
  - constructor; [constructor|constructor].
  - assert (Hdy : dom y) by (apply Hl; left; reflexivity).
    assert (Hdl : forall z, In z l -> dom z) by (intros z Hz; apply Hl; right; exact Hz).
    rewrite List.Forall_forall in Hy.
    fold (isPos (compare x y)). destruct (isPos (compare x y)) eqn:E.
    + constructor; [exact (IH Hdl)|]. rewrite List.Forall_forall. intros z Hz.
      apply sort_insert_In in Hz as [->|Hz]; [|exact (Hy z Hz)].
      destruct (le_total y x Hdy Hx) as [H|H]; [exact H|].
      apply (le_compare x y Hx Hdy) in H. congruence.
    + apply (le_compare x y Hx Hdy) in E.
      constructor; [constructor; [exact Hs|rewrite List.Forall_forall; exact Hy]|].
      rewrite List.Forall_forall. intros z [<-|Hz]; [exact E|].
      exact (le_trans x y z Hx Hdy (Hdl z Hz) E (Hy z Hz)).
Qed.

Lemma Array_sort_sorted l :
  (forall y, In y l -> dom y) -> StronglySorted le (Array_sort compare l).
Proof.
  induction l as [|x l IH]; intros Hl; cbn [Array_sort fold_right]; [constructor|].
  apply sort_insert_sorted.
  - apply Hl. left. reflexivity.
  - intros y Hy. apply Hl. right.
    exact (Permutation_in y (Permutation_sym (Array_sort_perm compare l)) Hy).
  - apply IH. intros y Hy. apply Hl. right. exact Hy.
Qed.

End SortedOutput.

Lemma keyLe_total (k1 k2 : Z * R) : keyLe k1 k2 \/ keyLe k2 k1.
Proof.
  unfold keyLe. destruct (Z.lt_trichotomy (fst k1) (fst k2)) as [H|[H|H]]; auto.
  destruct (Rle_dec (snd k1) (snd k2)); [auto|]. right. right. split; [lia|lra].
Qed.

Lemma keyLe_trans (k1 k2 k3 : Z * R) : keyLe k1 k2 -> keyLe k2 k3 -> keyLe k1 k3.
Proof.
  unfold keyLe. intros [H1|[H1 H1']] [H2|[H2 H2']]; try (left; lia).
  right. split; [lia|lra].
Qed.

Lemma timeKey_le (a b : Z) :
  tnum_lt (Some b) (Some a) = false <-> (IZR a <= IZR b)%R.
Proof.
  cbn [tnum_lt]. rewrite Z.ltb_ge. split; [apply IZR_le | apply le_IZR].
Qed.

Lemma time_diff_key (x y : Date) (kx ky : R) :
  timeKey x = Some kx -> timeKey y = Some ky ->
  (isPos (time_diff x y) = false <-> (kx <= ky)%R).
Proof.
  destruct x as [s|], y as [t|]; try discriminate. cbn [timeKey option_map].
  intros Hx Hy. injection Hx as <-. injection Hy as <-.
  rewrite isPos_time_diff. apply timeKey_le.
Qed.

Lemma statusPriority_inj (s t : EventStatus) :
  statusPriority s = statusPriority t -> s = t.
Proof. destruct s, t; simpl; intros H; try reflexivity; discriminate H. Qed.

Lemma bind_Some {A B : Type} (x : option A) (f : A -> option B) (b : B) :
  x ≫= f = Some b -> exists a, x = Some a /\ f a = Some b.
Proof. destruct x as [a|]; [intros H; exists a; auto | discriminate]. Qed.

Lemma comparator_inKeyOrder env sortType a b :
  is_Some (sortKey sortType a) -> is_Some (sortKey sortType b) ->
  (isPos (comparator env sortType a b) = false <-> inKeyOrder sortType a b).
Proof.
  unfold inKeyOrder. intros [ka Ha] [kb Hb]. rewrite Ha, Hb.
  destruct sortType; unfold sortKey in Ha, Hb; try discriminate Ha.
  - apply bind_Some in Ha as (xa & Ea & Ha). injection Ha as <-.
    apply bind_Some in Hb as (xb & Eb & Hb). injection Hb as <-.
    unfold comparator, keyLe. cbn [fst snd].
    destruct (statusPriority (pe_status a) =? statusPriority (pe_status b)) eqn:E;
      cbn [negb].
    + apply Z.eqb_eq in E. pose proof (statusPriority_inj _ _ E) as Es.
      rewrite <- Es in Eb.
      destruct (is_NOW (pe_status a)); rewrite (time_diff_key _ _ _ _ Ea Eb);
        intuition lia.
    + apply Z.eqb_neq in E. rewrite isPos_Z, Z.ltb_ge. intuition lia.
  - unfold comparator, keyLe.
    destruct (pe_distance a) as [[|x]|], (pe_distance b) as [[|y]|];
      try discriminate; injection Ha as <-; injection Hb as <-; cbn [fst snd];
      rewrite ?isPos_Z, ?isPos_sub.
    + unfold num_lt. destruct (Rlt_dec y x); split; intros H; try discriminate;
        try reflexivity; [destruct H as [H|[_ H]]; [lia|lra] | right; split; [reflexivity|lra]].
    + split; [intros _; left; lia | reflexivity].
    + split; [discriminate | intros [H|[H _]]; lia].
    + split; [intros _; right; split; [reflexivity|lra] | reflexivity].
  - apply bind_Some in Ha as (xa & Ea & Ha). injection Ha as <-.
    apply bind_Some in Hb as (xb & Eb & Hb). injection Hb as <-.
    unfold comparator, keyLe. cbn [fst snd].
    rewrite (time_diff_key _ _ _ _ Ea Eb). intuition lia.
  - apply bind_Some in Ha as (xa & Ea & Ha). injection Ha as <-.
    apply bind_Some in Hb as (xb & Eb & Hb). injection Hb as <-.
    unfold comparator, keyLe. cbn [fst snd].
    destruct (is_NOW (pe_status a)), (is_NOW (pe_status b)); cbn [andb negb];
      rewrite ?(time_diff_key _ _ _ _ Ea Eb), ?isPos_Z; intuition (try lia; try discriminate).
Qed.

(** X16. Under the four strategies that compare numbers
    (default, distance, time, ending), when no record is to be sorted by a
    [NaN], [sortEvents] returns the records in the order of their keys,
    each no later than every record after it, and returns a permutation
    of its input.  The key is the status group and then the time for the
    default strategy, the distance with the records without one last for
    the strategy by distance, the start for the strategy by time, and the
    running events by their end before the others by their start for the
    strategy by ending. *)
Theorem sortEvents_sorted env sortType (events : list ProcessedEvent) :
  (forall pe, In pe events -> is_Some (sortKey sortType pe)) ->
  StronglySorted (inKeyOrder sortType) (sortEvents env events sortType)
  /\ Permutation events (sortEvents env events sortType).
Proof.
  intros Hk. split; [|apply Array_sort_perm].
  unfold sortEvents.
  apply (Array_sort_sorted (comparator env sortType)
           (fun pe => is_Some (sortKey sortType pe)) (inKeyOrder sortType)).
  - intros a b [ka Ha] [kb Hb]. unfold inKeyOrder. rewrite Ha, Hb. apply keyLe_total.
  - intros a b c [ka Ha] [kb Hb] [kc Hc]. unfold inKeyOrder. rewrite Ha, Hb, Hc.
    apply keyLe_trans.
  - intros a b. apply comparator_inKeyOrder.
  - exact Hk.
Qed.

Lemma sortEvents_sorted_witness :
  StronglySorted (inKeyOrder by_time)
    (sortEvents (Scenario.device [] ∅ ∅ ∅ 0)
       [talk "t1" "Knots" 1756293600000; talk "t2" "Kites" 1756290000000] by_time)
  /\ Permutation
       [talk "t1" "Knots" 1756293600000; talk "t2" "Kites" 1756290000000]
       (sortEvents (Scenario.device [] ∅ ∅ ∅ 0)
          [talk "t1" "Knots" 1756293600000; talk "t2" "Kites" 1756290000000] by_time).
Proof.
  apply (sortEvents_sorted (Scenario.device [] ∅ ∅ ∅ 0) by_time).
  intros pe [<-|[<-|[]]]; eexists; reflexivity.
Defined.

(* ===================================================================== *)
(** * Properties of the geocoder *)
(* ===================================================================== *)

(** ** Addresses the geocoder refuses *)

Lemma includes_char (c : ascii) (s : string) :
  includes (String c "") s = negb (all (isNot c) s).
Proof.
  induction s as [|b s IH]; [reflexivity|].
  cbn [includes startsWith all]. rewrite IH, andb_true_r. unfold isNot.
  rewrite (Ascii.eqb_sym c b). destruct (Ascii.eqb b c); reflexivity.
Qed.

Lemma absent_char (c : ascii) (s : string) :
  includes (String c "") s = false -> all (isNot c) s = true.
Proof. rewrite includes_char. apply negb_false_iff. Qed.

Lemma plaza_absent s : includes "Plaza" s = false -> coordOf_plaza s = None.
Proof. intros H. unfold coordOf_plaza. rewrite H. reflexivity. Qed.

Lemma spaces_notAmp w : all isSpace w = true -> all (isNot "&") w = true.
Proof. apply all_impl. intros ch H. apply (isSpace_plain ch H). Qed.

Lemma trim_spaces w : all isSpace w = true -> trim w = "".
Proof. apply (trim_padded_right "" w eq_refl). Qed.

(** X17. An address that names no plaza needs two
    non-blank parts around an "&": a string without "Plaza", "Portal" and
    "&" is refused with "Invalid location: " and the string, and is not a
    valid address for [isValidBRCAddress]; so is a string with only white
    space before its first "&", and one with only white space after its
    only "&". *)
Theorem coordOf_invalid_location :
  (forall s,
     includes "Plaza" s = false -> includes "Portal" s = false ->
     includes "&" s = false ->
     coordOf s = Throw ("Invalid location: " +:+ s) /\ isValidBRCAddress s = false) /\
  (forall w b,
     all isSpace w = true -> includes "Plaza" (w +:+ "&" +:+ b) = false ->
     coordOf (w +:+ "&" +:+ b) = Throw ("Invalid location: " +:+ w +:+ "&" +:+ b)) /\
  (forall a w,
     all isSpace w = true -> includes "&" a = false ->
     includes "Plaza" (a +:+ "&" +:+ w) = false ->
     coordOf (a +:+ "&" +:+ w) = Throw ("Invalid location: " +:+ a +:+ "&" +:+ w)).
Proof.
  split; [|split].
  - intros s Hplaza Hportal Hamp.
    assert (H : coordOf s = Throw ("Invalid location: " +:+ s)).
    { unfold coordOf. rewrite (plaza_absent s Hplaza).
      unfold coordOf_portal. rewrite Hportal. cbn [andb].
      unfold coordOf_intersection. rewrite (split_none "&" s (absent_char _ _ Hamp)).
      cbn [map nth_error truthy negb]. rewrite orb_true_r. reflexivity. }
    split; [exact H|]. unfold isValidBRCAddress. rewrite H. reflexivity.
  - intros w b Hw Hplaza. unfold coordOf. rewrite (plaza_absent _ Hplaza).
    rewrite portal_skipped by (apply includes_skip; reflexivity).
    unfold coordOf_intersection.
    change (w +:+ "&" +:+ b) with (w +:+ String "&" b).
    rewrite (split_app "&" w b (spaces_notAmp w Hw)).
    cbn [map nth_error]. rewrite (trim_spaces w Hw). reflexivity.
  - intros a w Hw Hamp Hplaza. unfold coordOf. rewrite (plaza_absent _ Hplaza).
    rewrite portal_skipped by (apply includes_skip; reflexivity).
    unfold coordOf_intersection.
    change (a +:+ "&" +:+ w) with (a +:+ String "&" w).
    rewrite (split_app "&" a w (absent_char _ _ Hamp)).
    rewrite (split_none "&" w (spaces_notAmp w Hw)).
    cbn [map nth_error]. rewrite (trim_spaces w Hw).
    cbn [truthy isEmpty negb]. rewrite orb_true_r. reflexivity.
Qed.

(** Two tokens around an "&": what the intersection branch decides. *)
Lemma coordOf_two_tokens a b w1 w2 :
  all tokenChar a = true -> all tokenChar b = true ->
  isEmpty a = false -> isEmpty b = false ->
  all isSpace w1 = true -> all isSpace w2 = true ->
  coordOf (a +:+ w1 +:+ "&" +:+ w2 +:+ b) =
  if isClockish a && negb (isClockish b) then project b a
  else if isClockish b && negb (isClockish a) then project a b
  else if isEspl a && isClockish b then project a b
  else if isEspl b && isClockish a then project b a
  else Throw ("Ambiguous location format: " +:+ a +:+ w1 +:+ "&" +:+ w2 +:+ b).
Proof.
  intros Ha Hb Hna Hnb Hw1 Hw2. unfold coordOf.
  destruct (intersection_string_quiet a w1 w2 b Ha Hb Hw1 Hw2) as [Hz Hamp].
  rewrite (plaza_skipped _ Hz), (portal_skipped _ Hamp).
  exact (coordOf_intersection_parts _ a b []
           (intersection_parts a w1 w2 b Ha Hb Hw1 Hw2) Hna Hnb).
Qed.

Lemma isEspl_clock c : all clockChar c = true -> isEspl c = false.
Proof.
  intros H. unfold isEspl.
  rewrite (toUpperCase_fixed c (all_impl _ _ _ clockChar_upper H)).
  destruct (startsWith "ESPL" c) eqn:E; [|reflexivity].
  pose proof (prefix_all clockChar "ESPL" c H E) as Hc. discriminate Hc.
Qed.

(** X18. An intersection needs one clock and one ring
    name: two valid clocks of at most four digits before the colon or the
    point around an "&", and two ring names around an "&", are refused with
    "Ambiguous location format: " and the string. *)
Theorem coordOf_ambiguous (w1 w2 : string) :
  all isSpace w1 = true -> all isSpace w2 = true ->
  (forall c1 c2,
     validClock c1 = true -> (String.length (takeDigits c1) <= 4)%nat ->
     validClock c2 = true -> (String.length (takeDigits c2) <= 4)%nat ->
     coordOf (c1 +:+ w1 +:+ "&" +:+ w2 +:+ c2)
     = Throw ("Ambiguous location format: " +:+ c1 +:+ w1 +:+ "&" +:+ w2 +:+ c2)) /\
  (forall r1 r2,
     validRing r1 = true -> validRing r2 = true ->
     coordOf (r1 +:+ w1 +:+ "&" +:+ w2 +:+ r2)
     = Throw ("Ambiguous location format: " +:+ r1 +:+ w1 +:+ "&" +:+ w2 +:+ r2)).
Proof.
  intros Hw1 Hw2. split.
  - intros c1 c2 H1 L1 H2 L2. apply validClock_shape in H1, H2.
    pose proof (ClockShape_chars _ H1) as C1. pose proof (ClockShape_chars _ H2) as C2.
    rewrite coordOf_two_tokens;
      try assumption;
      try (eapply all_impl; [apply clockChar_tokenChar | assumption]);
      try (apply ClockShape_nonempty; assumption).
    rewrite (isClockish_clock _ H1 L1), (isClockish_clock _ H2 L2),
      (isEspl_clock _ C1), (isEspl_clock _ C2). reflexivity.
  - intros r1 r2 H1 H2.
    rewrite coordOf_two_tokens;
      try assumption;
      try (eapply all_impl; [apply ringChar_tokenChar | apply validRing_chars; assumption]);
      try (apply validRing_nonempty; assumption).
    rewrite (isClockish_ring _ H1), (isClockish_ring _ H2), !andb_false_r.
    reflexivity.
Qed.

Lemma coordOf_ambiguous_witness :
  coordOf "6:00 & 7:30" = Throw "Ambiguous location format: 6:00 & 7:30"
  /\ coordOf "A & Esplanade" = Throw "Ambiguous location format: A & Esplanade".
Proof.
  split.
  - apply (proj1 (coordOf_ambiguous " " " " eq_refl eq_refl) "6:00" "7:30");
      [reflexivity | simpl; lia | reflexivity | simpl; lia].
  - apply (proj2 (coordOf_ambiguous " " " " eq_refl eq_refl) "A" "Esplanade");
      reflexivity.
Defined.

(** ** A clock without an hour *)

Lemma nadd_NaN_r a : (a + NaN)%num = NaN.
Proof. destruct a; reflexivity. Qed.

Lemma nmul_NaN_r a : (a * NaN)%num = NaN.
Proof. destruct a; reflexivity. Qed.

Lemma nsub_NaN_r a : (a - NaN)%num = NaN.
Proof. destruct a; reflexivity. Qed.

Lemma destPoint_NaN_bearing la lo d :
  destPoint la lo d NaN = {| lat := NaN; lon := NaN |}.
Proof.
  unfold destPoint. cbn [nmul ndiv lift2 Math_cos Math_sin lift1].
  rewrite !nmul_NaN_r, !nadd_NaN_r. cbn [Math_asin nmul ndiv nsub lift2].
  reflexivity.
Qed.

Lemma digits_notColon mm : all isDigit mm = true -> all (isNot ":") mm = true.
Proof.
  apply all_impl. intros ch H. unfold isNot.
  rewrite (isDigit_notColon ch H). reflexivity.
Qed.

Lemma bearingFromClock_empty_hour mm :
  all isDigit mm = true -> bearingFromClock (String ":" mm) = Ok NaN.
Proof.
  intros Hmm. unfold bearingFromClock.
  assert (Hc : all clockChar (String ":" mm) = true).
  { cbn [all]. rewrite (all_impl _ _ _ isDigit_clockChar Hmm). reflexivity. }
  rewrite (clock_normal _ Hc).
  assert (Hi : includes ":" (String ":" mm) = true) by apply (includes_here ":" mm).
  rewrite Hi.
  change (String ":" mm) with ("" +:+ String ":" mm).
  rewrite (split_app ":" "" mm eq_refl), (split_none ":" mm (digits_notColon mm Hmm)).
  cbn [hd mbind result_bind].
  change (parseInt "") with (@None Z). unfold tnum_or.
  destruct (parseInt mm) as [m|]; [destruct (m =? 0)|]; reflexivity.
Qed.

(** X19. A clock made of a colon and digits, with no hour
    before the colon, is not refused: its intersection with a ring name
    resolves without an error to a point whose latitude and longitude are
    both [NaN], and [isValidBRCAddress] accepts the address. *)
Theorem coordOf_empty_hour (mm r w1 w2 : string) :
  all isDigit mm = true -> validRing r = true ->
  all isSpace w1 = true -> all isSpace w2 = true ->
  let address := String ":" mm +:+ w1 +:+ "&" +:+ w2 +:+ r in
  coordOf address = Ok {| lat := NaN; lon := NaN |}
  /\ isValidBRCAddress address = true.
Proof.
  intros Hmm Hr Hw1 Hw2 address.
  assert (Hc : all clockChar (String ":" mm) = true).
  { cbn [all]. rewrite (all_impl _ _ _ isDigit_clockChar Hmm). reflexivity. }
  assert (H : coordOf address = Ok {| lat := NaN; lon := NaN |}).
  { unfold address. rewrite coordOf_two_tokens;
      try assumption; try reflexivity;
      try (eapply all_impl; [apply clockChar_tokenChar | assumption]);
      try (eapply all_impl; [apply ringChar_tokenChar | apply validRing_chars; assumption]);
      try (apply validRing_nonempty; assumption).
    assert (Hk : isClockish (String ":" mm) = true).
    { assert (Hi : includes ":" (String ":" mm) = true) by apply (includes_here ":" mm).
      unfold isClockish. rewrite Hi. reflexivity. }
    rewrite Hk, (isClockish_ring _ Hr). cbn [andb negb].
    destruct (radiusFeetForRing_returns r Hr) as [radiusFeet Hrf].
    rewrite (project_Ok r _ radiusFeet NaN Hrf (bearingFromClock_empty_hour mm Hmm)).
    rewrite destPoint_NaN_bearing. reflexivity. }
  split; [exact H|]. unfold isValidBRCAddress. rewrite H. reflexivity.
Qed.

Lemma coordOf_empty_hour_witness :
  coordOf ":30 & D" = Ok {| lat := NaN; lon := NaN |}
  /\ isValidBRCAddress ":30 & D" = true.
Proof.
  apply (coordOf_empty_hour "30" "D" " " " "); reflexivity.
Defined.

(** ** The rings *)

(** Evaluating [radiusFeetForRing] on a given name, up to the arithmetic. *)
Ltac eval_ring :=
  unfold radiusFeetForRing;
  repeat match goal with
         | |- context [toUpperCase (trim ?s)] =>
             let v := eval vm_compute in (toUpperCase (trim s)) in
             change (toUpperCase (trim s)) with v
         end;
  cbn [String.eqb Ascii.eqb Bool.eqb orb];
  repeat match goal with
         | |- context [indexOf ?s ?o] =>
             let v := eval vm_compute in (indexOf s o) in
             change (indexOf s o) with v
         end;
  cbn [seq fold_left Nat.eqb]; unfold charAt, order; cbn [String.substring];
  unfold prop, WIDTH, BLOCK; cbn [find fst snd String.eqb Ascii.eqb Bool.eqb].

Lemma ndiv_2 (x : R) : (Fin x / num_of_Z 2)%num = Fin (x / 2).
Proof. unfold ndiv, num_of_Z. destruct (Req_dec_T 2 0); [exfalso; lra | reflexivity]. Qed.

(** A run of consecutive ring letters is read as its first letter. *)
Lemma ring_run i len :
  (1 <= len)%nat -> (i + len <= 11)%nat ->
  let n := String.substring i len order in
  radiusFeetForRing n = radiusFeetForRing (charAt order i)
  /\ all tokenChar n = true /\ isClockish n = false /\ isEmpty n = false
  /\ validRing (charAt order i) = true.
Proof.
  intros H1 H2. cbv zeta.
  destruct i as [|[|[|[|[|[|[|[|[|[|[|i]]]]]]]]]]]; [..|lia];
    destruct len as [|[|[|[|[|[|[|[|[|[|[|[|len]]]]]]]]]]]]; try lia;
    (split; [eval_ring; reflexivity | vm_compute; auto]).
Qed.

(** X20. A ring name is looked up in the string of the ring
    letters, so that a run of consecutive letters is taken for the ring of
    its first letter: a valid clock of at most four digits before the colon
    or the point and such a run around an "&" resolve, without an error, to
    the point of the clock and the first letter. *)
Theorem coordOf_ring_run (c w1 w2 : string) (i len : nat) :
  validClock c = true -> (String.length (takeDigits c) <= 4)%nat ->
  all isSpace w1 = true -> all isSpace w2 = true ->
  (1 <= len)%nat -> (i + len <= 11)%nat ->
  coordOf (c +:+ w1 +:+ "&" +:+ w2 +:+ String.substring i len order)
  = coordOf (c +:+ w1 +:+ "&" +:+ w2 +:+ charAt order i)
  /\ returns (coordOf (c +:+ w1 +:+ "&" +:+ w2 +:+ String.substring i len order)).
Proof.
  intros Hc H4 Hw1 Hw2 Hlen Hi. apply validClock_shape in Hc.
  destruct (ring_run i len Hlen Hi) as (Hr & Ht & Hk & Hn & Hv). cbv zeta in *.
  pose proof (ClockShape_chars _ Hc) as Hch.
  assert (E : coordOf (c +:+ w1 +:+ "&" +:+ w2 +:+ String.substring i len order)
              = project (charAt order i) c).
  { rewrite coordOf_two_tokens;
      try assumption;
      try (eapply all_impl; [apply clockChar_tokenChar | assumption]);
      try (apply ClockShape_nonempty; assumption).
    rewrite (isClockish_clock _ Hc H4), Hk. cbn [andb negb].
    unfold project. rewrite Hr. reflexivity. }
  destruct (coordOf_clock_ring c (charAt order i) w1 w2 Hc H4 Hv Hw1 Hw2) as [E' _].
  split; [rewrite E, E'; reflexivity|]. rewrite E.
  destruct (radiusFeetForRing_returns _ Hv) as [rf Hrf].
  destruct (bearingFromClock_returns c Hc) as [b Hb].
  rewrite (project_Ok _ _ _ _ Hrf Hb). eexists. reflexivity.
Qed.

Lemma coordOf_ring_run_witness :
  coordOf "6:00 & EFG" = coordOf "6:00 & E" /\ returns (coordOf "6:00 & EFG").
Proof.
  apply (coordOf_ring_run "6:00" " " " " 4 3);
    [reflexivity | simpl; lia | reflexivity | reflexivity | lia | lia].
Defined.

(** ** The plaza grammar *)

Lemma plazaLead_facts ch :
  plazaLead ch = true -> plainChar ch = true /\ isRingLetter ch = false.
Proof.
  each_ascii ch; vm_compute; intros H; first [split; reflexivity | discriminate H].
Qed.

Lemma isRingLetter_facts ch :
  isRingLetter ch = true -> plainChar ch = true /\ isSpace ch = false.
Proof.
  each_ascii ch; vm_compute; intros H; first [split; reflexivity | discriminate H].
Qed.

Lemma isSpace_plainChar ch : isSpace ch = true -> plainChar ch = true.
Proof. each_ascii ch; vm_compute; intros H; first [reflexivity | discriminate H]. Qed.

Lemma clockChar_plainChar ch : clockChar ch = true -> plainChar ch = true.
Proof. each_ascii ch; vm_compute; intros H; first [reflexivity | discriminate H]. Qed.

Lemma plainChar_notAt ch : plainChar ch = true -> isNot "@" ch = true.
Proof. unfold plainChar. rewrite andb_true_iff. tauto. Qed.

Lemma plainChar_notN ch : plainChar ch = true -> isNot "n" ch = true.
Proof. unfold plainChar. rewrite andb_true_iff. tauto. Qed.

Lemma trimStart_app pre y rest :
  isSpace y = false -> trimStart (pre +:+ String y rest) = trimStart pre +:+ String y rest.
Proof.
  intros Hy. induction pre as [|ch pre IH].
  - rewrite !append_nil. cbn [trimStart]. rewrite Hy. reflexivity.
  - rewrite append_cons. cbn [trimStart]. destruct (isSpace ch); [exact IH|].
    rewrite append_cons. reflexivity.
Qed.

Lemma trimEnd_app_nonempty a b :
  isEmpty (trimEnd b) = false -> trimEnd (a +:+ b) = a +:+ trimEnd b.
Proof.
  intros Hb. induction a as [|ch a IH]; [reflexivity|].
  rewrite !append_cons. cbn [trimEnd]. rewrite IH.
  destruct (trimEnd b) as [|x t]; [discriminate Hb|].
  destruct a; rewrite ?append_cons, ?append_nil; cbn [isEmpty]; rewrite andb_false_r;
    reflexivity.
Qed.

Lemma search_skip {A : Type} (at_ : string -> option A) pre rest :
  (forall ch s, In ch (list_ascii_of_string pre) -> at_ (String ch s) = None) ->
  search at_ (pre +:+ rest) = search at_ rest.
Proof.
  induction pre as [|ch pre IH]; intros H; [reflexivity|].
  rewrite append_cons. cbn [search].
  rewrite (H ch (pre +:+ rest)) by (left; reflexivity).
  apply IH. intros ch' s Hin. apply H. right. exact Hin.
Qed.

Lemma all_In p s ch :
  all p s = true -> In ch (list_ascii_of_string s) -> p ch = true.
Proof.
  induction s as [|x s IH]; cbn [all list_ascii_of_string In]; [tauto|].
  intros H [<-|Hin]; apply andb_true_iff in H as [H1 H2]; [exact H1 | exact (IH H2 Hin)].
Qed.

Lemma all_trimStart p s : all p s = true -> all p (trimStart s) = true.
Proof.
  induction s as [|x s IH]; cbn [all trimStart]; [reflexivity|].
  intros H. destruct (isSpace x); [|exact H].
  apply andb_true_iff in H as [_ H]. exact (IH H).
Qed.

Lemma ringMatch_at_here L sp :
  isRingLetter L = true -> all isSpace sp = true -> sp <> "" ->
  ringMatch_at (String L (sp +:+ "Plaza")) = Some (String L "").
Proof.
  intros HL Hsp Hne. cbn [ringMatch_at]. unfold isRingLetter in HL. rewrite HL.
  destruct sp as [|s0 sp]; [contradiction|]. rewrite append_cons.
  cbn [all] in Hsp. apply andb_true_iff in Hsp as [H0 Hsp].
  unfold spacesThen. rewrite H0, (trimStart_spaces sp "Plaza" Hsp eq_refl).
  reflexivity.
Qed.

(** X21. The plaza format: a string made of clock characters
    and white space, a ring letter, white space, "Plaza", an "@" with any
    white space around it, and a valid clock, resolves without an error to
    the point of the ring letter and of the clock after the "@"; the text
    before the ring letter is not read. *)
Theorem plaza_resolves (pre sp w1 w2 c : string) (L : ascii) :
  all plazaLead pre = true -> isRingLetter L = true ->
  all isSpace sp = true -> sp <> "" ->
  all isSpace w1 = true -> all isSpace w2 = true ->
  validClock c = true ->
  exists radiusFeet bearing,
    radiusFeetForRing (String L "") = Ok radiusFeet /\
    bearingFromClock c = Ok bearing /\
    coordOf (pre +:+ String L (sp +:+ "Plaza" +:+ w1 +:+ "@" +:+ w2 +:+ c))
    = Ok (destPoint (lat MAN) (lon MAN) (radiusFeet * FT2M)%num bearing).
Proof.
  intros Hpre HL Hsp Hne Hw1 Hw2 Hc. apply validClock_shape in Hc.
  assert (Hv : validRing (String L "") = true)
    by (unfold validRing; rewrite HL; reflexivity).
  destruct (radiusFeetForRing_returns _ Hv) as [radiusFeet Hrf].
  destruct (bearingFromClock_returns c Hc) as [bearing Hb].
  exists radiusFeet, bearing. split; [exact Hrf|]. split; [exact Hb|].
  rewrite <- (project_Ok _ _ _ _ Hrf Hb).
  set (plazaPart := pre +:+ String L (sp +:+ "Plaza" +:+ w1)).
  assert (Es : pre +:+ String L (sp +:+ "Plaza" +:+ w1 +:+ "@" +:+ w2 +:+ c)
               = plazaPart +:+ String "@" (w2 +:+ c)).
  { unfold plazaPart. rewrite !append_assoc, !append_cons, !append_assoc. reflexivity. }
  rewrite Es.
  pose proof (ClockShape_chars _ Hc) as Hcc.
  assert (Hplain1 : all plainChar plazaPart = true).
  { unfold plazaPart. rewrite all_app. cbn [all]. rewrite !all_app.
    rewrite (all_impl _ _ _ (fun ch H => proj1 (plazaLead_facts ch H)) Hpre),
      (proj1 (isRingLetter_facts L HL)),
      (all_impl _ _ _ isSpace_plainChar Hsp), (all_impl _ _ _ isSpace_plainChar Hw1).
    reflexivity. }
  assert (Hplain2 : all plainChar (w2 +:+ c) = true).
  { rewrite all_app, (all_impl _ _ _ isSpace_plainChar Hw2),
      (all_impl _ _ _ clockChar_plainChar Hcc). reflexivity. }
  unfold coordOf, coordOf_plaza.
  assert (Hplaza : includes "Plaza" (plazaPart +:+ String "@" (w2 +:+ c)) = true).
  { unfold plazaPart. rewrite !append_assoc. apply includes_skip.
    rewrite append_cons, append_assoc. apply (includes_skip "Plaza" (String L sp)).
    rewrite !append_assoc. apply includes_here. }
  assert (Hcenter : includes "Center Camp Plaza"
                      (plazaPart +:+ String "@" (w2 +:+ c)) = false).
  { apply (includes_excluded (isNot "n")); [|reflexivity].
    rewrite all_app. cbn [all].
    rewrite (all_impl _ _ _ plainChar_notN Hplain1),
      (all_impl _ _ _ plainChar_notN Hplain2). reflexivity. }
  rewrite Hplaza, Hcenter.
  rewrite (split_app "@" plazaPart (w2 +:+ c) (all_impl _ _ _ plainChar_notAt Hplain1)).
  rewrite (split_none "@" (w2 +:+ c) (all_impl _ _ _ plainChar_notAt Hplain2)).
  cbn [map].
  assert (Hclock : trim (w2 +:+ c) = c).
  { apply trim_padded_left; [exact Hw2|].
    eapply all_impl; [|exact Hcc]. intros ch H.
    apply tokenChar_nonSpace, clockChar_tokenChar, H. }
  rewrite Hclock.
  assert (Htrim : trim plazaPart = trimStart pre +:+ String L (sp +:+ "Plaza")).
  { unfold trim, plazaPart.
    rewrite (trimStart_app pre L _ (proj2 (isRingLetter_facts L HL))).
    replace (trimStart pre +:+ String L (sp +:+ "Plaza" +:+ w1))
      with ((trimStart pre +:+ String L sp) +:+ ("Plaza" +:+ w1))
      by (rewrite !append_assoc, !append_cons; reflexivity).
    rewrite trimEnd_app_nonempty;
      rewrite (trimEnd_app "Plaza" w1 eq_refl Hw1); [|reflexivity].
    rewrite !append_assoc, !append_cons. reflexivity. }
  rewrite Htrim.
  rewrite (search_skip ringMatch_at (trimStart pre) (String L (sp +:+ "Plaza"))).
  - rewrite (search_head _ _ _ (ringMatch_at_here L sp HL Hsp Hne)). reflexivity.
  - intros ch s Hin. cbn [ringMatch_at].
    pose proof (all_In _ _ ch (all_trimStart _ _ Hpre) Hin) as Hl.
    apply plazaLead_facts in Hl as [_ Hl]. unfold isRingLetter in Hl. rewrite Hl.
    reflexivity.
Qed.

Lemma plaza_resolves_witness :
  exists radiusFeet bearing,
    radiusFeetForRing "B" = Ok radiusFeet /\
    bearingFromClock "8:15" = Ok bearing /\
    coordOf "9:00 B Plaza @ 8:15"
    = Ok (destPoint (lat MAN) (lon MAN) (radiusFeet * FT2M)%num bearing).
Proof.
  apply (plaza_resolves "9:00 " " " " " " " "8:15" "B");
    [reflexivity | reflexivity | reflexivity | discriminate
    | reflexivity | reflexivity | reflexivity].
Defined.

(** ** Reading the digits of a clock *)

Lemma digit_plain ch :
  isDigit ch = true ->
  isSpace ch = false /\ Ascii.eqb ch "-" = false /\ Ascii.eqb ch "+" = false.
Proof.
  each_ascii ch; vm_compute; intros H;
    first [repeat split; reflexivity | discriminate H].
Qed.

Lemma digitsValueFrom_nonneg acc s : 0 <= acc -> 0 <= digitsValueFrom acc s.
Proof.
  revert acc. induction s as [|ch s IH]; intros acc H; cbn [digitsValueFrom]; [exact H|].
  apply IH. unfold digitValue. lia.
Qed.

Lemma digitsValue_nonneg s : 0 <= digitsValue s.
Proof. apply digitsValueFrom_nonneg. lia. Qed.

Lemma parseInt_digits s :
  all isDigit s = true -> isEmpty s = false -> parseInt s = Some (digitsValue s).
Proof.
  intros Hall Hne. destruct s as [|ch s]; [discriminate Hne|].
  cbn [all] in Hall. apply andb_true_iff in Hall as [Hch Hs].
  destruct (digit_plain ch Hch) as (Hsp & Hminus & Hplus).
  unfold parseInt. cbn [trimStart]. rewrite Hsp.
  assert (E : (let '(negative, body) :=
                 match String ch s with
                 | String "-" r => (true, r)
                 | String "+" r => (false, r)
                 | _ => (false, String ch s)
                 end in
               let ds := takeDigits body in
               if isEmpty ds then None
               else Some (if negative : bool then - digitsValue ds else digitsValue ds))
              = Some (digitsValue (String ch s))).
  { clear Hsp. each_ascii ch; try discriminate Hch; try discriminate Hminus;
      try discriminate Hplus;
      cbv zeta; cbn [takeDigits]; rewrite Hch, (takeDigits_digits s Hs); reflexivity. }
  exact E.
Qed.


Local Open Scope R_scope.

Lemma Rrem_range (x y : R) : 0 <= x -> 0 < y -> 0 <= Rrem x y < y.
Proof.
  intros Hx Hy. unfold Rrem, Rtrunc.
  assert (Hq : 0 <= x / y).
  { apply Rmult_le_pos; [exact Hx | left; apply Rinv_0_lt_compat; exact Hy]. }
  destruct (Rle_dec 0 (x / y)) as [_|Hn]; [|contradiction].
  destruct (base_Int_part (x / y)) as [H1 H2].
  assert (E : x = y * (x / y)) by (field; lra).
  split.
  - assert (y * IZR (Int_part (x / y)) <= y * (x / y)) by (apply Rmult_le_compat_l; lra).
    lra.
  - assert (y * (x / y - 1) < y * IZR (Int_part (x / y)))
      by (apply Rmult_lt_compat_l; lra).
    lra.
Qed.

Lemma clockBearing_range (h m : Z) :
  (0 <= h)%Z -> (0 <= m)%Z -> 0 <= clockBearing h m < 360.
Proof.
  intros Hh Hm. unfold clockBearing. apply Rrem_range; [|lra].
  assert (0 <= IZR (if (h =? 12)%Z then 0%Z else h))
    by (apply IZR_le; destruct (h =? 12)%Z; lia).
  assert (0 <= IZR m) by (apply IZR_le; exact Hm).
  assert (0 <= IZR m / 60) by (apply Rmult_le_pos; lra).
  nra.
Qed.

Local Close Scope R_scope.

Lemma bearing_tail (h m : Z) :
  (let h' := if tnum_eqb (Some h) (Some 12) then Some 0 else Some h in
   let clockDeg := ((num_of_tnum h' + num_of_tnum (Some m) / 60) * 30)%num in
   Ok (A := num) ((clockDeg + CITY_ROTATION_DEG) mod 360)%num)
  = Ok (Fin (clockBearing h m)).
Proof.
  cbv zeta. cbn [tnum_eqb]. unfold clockBearing.
  destruct (h =? 12); rewrite bearing_value; reflexivity.
Qed.

Lemma digits_clockChars s : all isDigit s = true -> all clockChar s = true.
Proof. apply all_impl, isDigit_clockChar. Qed.

Lemma digits_no_colon s : all isDigit s = true -> includes ":" s = false.
Proof.
  intros H. rewrite includes_char. apply negb_false_iff.
  exact (digits_notColon s H).
Qed.

Lemma tnum_or_nonneg (x : tnum) :
  (forall v, x = Some v -> 0 <= v) -> exists m, tnum_or x 0 = Some m /\ 0 <= m.
Proof.
  intros H. destruct x as [v|]; cbn [tnum_or].
  - destruct (v =? 0).
    + exists 0. split; [reflexivity | lia].
    + exists v. split; [reflexivity | apply H; reflexivity].
  - exists 0. split; [reflexivity | lia].
Qed.

Lemma parseInt_digits_or_empty s :
  all isDigit s = true -> forall v, parseInt s = Some v -> 0 <= v.
Proof.
  intros H v. destruct s as [|ch s]; [discriminate|].
  rewrite (parseInt_digits _ H eq_refl). intros E. injection E as <-.
  apply digitsValue_nonneg.
Qed.

(** The colon form. *)
Lemma bearingFromClock_colon ip mm :
  all isDigit ip = true -> isEmpty ip = false -> all isDigit mm = true ->
  bearingFromClock (ip +:+ String ":" mm)
  = Ok (Fin (clockBearing (digitsValue ip)
               (default 0 (tnum_or (parseInt mm) 0)))).
Proof.
  intros Hip Hne Hmm. unfold bearingFromClock.
  assert (Hc : all clockChar (ip +:+ String ":" mm) = true).
  { rewrite all_app. cbn [all]. rewrite (digits_clockChars _ Hip), (digits_clockChars _ Hmm).
    reflexivity. }
  rewrite (clock_normal _ Hc).
  assert (Hi : includes ":" (ip +:+ String ":" mm) = true)
    by (apply includes_skip; apply (includes_here ":" mm)).
  rewrite Hi, (split_app ":" ip mm (digits_notColon ip Hip)),
    (split_none ":" mm (digits_notColon mm Hmm)).
  cbn [hd mbind result_bind]. rewrite (parseInt_digits ip Hip Hne).
  destruct (tnum_or_nonneg (parseInt mm) (parseInt_digits_or_empty mm Hmm)) as (m & Em & _).
  rewrite Em. cbn [default from_option Datatypes.id]. apply bearing_tail.
Qed.

Lemma tnum_or_digits mm :
  all isDigit mm = true -> isEmpty mm = false ->
  tnum_or (parseInt mm) 0 = Some (digitsValue mm).
Proof.
  intros H Hne. rewrite (parseInt_digits mm H Hne). cbn [tnum_or].
  destruct (digitsValue mm =? 0) eqn:E; [|reflexivity].
  apply Z.eqb_eq in E. rewrite E. reflexivity.
Qed.

(** The compact form: one or two digits are the hour; with three or four
    digits the last two are the minutes. *)
Lemma bearingFromClock_compact s :
  all isDigit s = true -> (1 <= String.length s <= 4)%nat ->
  bearingFromClock s
  = Ok (Fin (if (String.length s <=? 2)%nat
             then clockBearing (digitsValue s) 0
             else clockBearing (digitsValue (slice_to_m2 s))
                    (digitsValue (slice_from_m2 s)))).
Proof.
  intros Hd Hl. unfold bearingFromClock.
  rewrite (clock_normal _ (digits_clockChars _ Hd)), (digits_no_colon _ Hd), Hd.
  destruct Hl as [Hl1 Hl2]. apply Nat.leb_le in Hl1 as E1. apply Nat.leb_le in Hl2 as E2.
  rewrite E1, E2. cbn [andb].
  destruct (String.length s <=? 2)%nat eqn:E.
  - cbn [mbind result_bind]. rewrite (parseInt_digits s Hd) by (destruct s; [simpl in Hl1; lia | reflexivity]).
    apply bearing_tail.
  - apply Nat.leb_gt in E.
    destruct s as [|a [|b [|c [|d [|e s]]]]]; cbn [String.length] in *; try lia.
    + cbn [all] in Hd. rewrite !andb_true_iff in Hd. destruct Hd as (Ha & Hb & Hc & _).
      change (slice_to_m2 (String a (String b (String c "")))) with (String a "").
      change (slice_from_m2 (String a (String b (String c ""))))
        with (String b (String c "")).
      rewrite !parseInt_digits by (cbn [all]; rewrite ?Ha, ?Hb, ?Hc; reflexivity).
      cbn [mbind result_bind]. apply bearing_tail.
    + cbn [all] in Hd. rewrite !andb_true_iff in Hd.
      destruct Hd as (Ha & Hb & Hc & Hd & _).
      change (slice_to_m2 (String a (String b (String c (String d "")))))
        with (String a (String b "")).
      change (slice_from_m2 (String a (String b (String c (String d "")))))
        with (String c (String d "")).
      rewrite !parseInt_digits by (cbn [all]; rewrite ?Ha, ?Hb, ?Hc, ?Hd; reflexivity).
      cbn [mbind result_bind]. apply bearing_tail.
Qed.

(** X22. The notations of a clock agree: for an hour
    of one or two digits and two digits of minutes, the compact form "HMM"
    gives the bearing of the colon form "H:MM", the bare hour "H" gives the
    bearing of "H:00", and the bearing is 30 degrees an hour, 12 counting
    as 0, plus the 45 degrees of the city's rotation, modulo 360. *)
Theorem clock_notations_agree (h mm : string) :
  all isDigit h = true -> (1 <= String.length h <= 2)%nat ->
  all isDigit mm = true -> String.length mm = 2%nat ->
  bearingFromClock (h +:+ mm) = bearingFromClock (h +:+ ":" +:+ mm)
  /\ bearingFromClock h = bearingFromClock (h +:+ ":00")
  /\ bearingFromClock (h +:+ mm)
     = Ok (Fin (clockBearing (digitsValue h) (digitsValue mm))).
Proof.
  intros Hh Hlh Hmm Hlm.
  assert (Hne : isEmpty h = false) by (destruct h; [simpl in Hlh; lia | reflexivity]).
  assert (Hnm : isEmpty mm = false) by (destruct mm; [discriminate Hlm | reflexivity]).
  assert (Ecompact : bearingFromClock (h +:+ mm)
                     = Ok (Fin (clockBearing (digitsValue h) (digitsValue mm)))).
  { rewrite bearingFromClock_compact;
      [|rewrite all_app, Hh, Hmm; reflexivity | rewrite length_append; lia].
    assert (E : (String.length (h +:+ mm) <=? 2)%nat = false)
      by (apply Nat.leb_gt; rewrite length_append; lia).
    rewrite E.
    destruct h as [|a [|b [|? ?]]]; cbn [String.length] in Hlh; try lia;
      destruct mm as [|c [|d [|? ?]]]; try discriminate Hlm; reflexivity. }
  split; [|split; [|exact Ecompact]].
  - rewrite Ecompact.
    change (h +:+ ":" +:+ mm) with (h +:+ String ":" mm).
    rewrite (bearingFromClock_colon h mm Hh Hne Hmm), (tnum_or_digits mm Hmm Hnm).
    reflexivity.
  - change (h +:+ ":00") with (h +:+ String ":" "00").
    rewrite (bearingFromClock_colon h "00" Hh Hne eq_refl).
    rewrite bearingFromClock_compact by (assumption || lia).
    destruct Hlh as [_ Hlh]. apply Nat.leb_le in Hlh. rewrite Hlh. reflexivity.
Qed.

Lemma clock_notations_agree_witness :
  bearingFromClock "930" = bearingFromClock "9:30"
  /\ bearingFromClock "9" = bearingFromClock "9:00"
  /\ bearingFromClock "930" = Ok (Fin (clockBearing 9 30)).
Proof.
  apply (clock_notations_agree "9" "30"); [reflexivity | simpl; lia | reflexivity | reflexivity].
Defined.

(** The decimal form, on doubles. *)
Lemma digitValue_range ch : isDigit ch = true -> 0 <= digitValue ch <= 9.
Proof.
  unfold isDigit, digitValue. intros H. apply andb_true_iff in H as [H1 H2].
  apply N.leb_le in H1, H2. lia.
Qed.

Lemma digitsValueFrom_bound acc s :
  all isDigit s = true -> 0 <= acc ->
  digitsValueFrom acc s < (acc + 1) * 10 ^ Z.of_nat (String.length s).
Proof.
  revert acc. induction s as [|ch s IH]; intros acc Hd Hacc.
  - cbn [digitsValueFrom String.length]. change (10 ^ Z.of_nat 0) with 1. lia.
  - cbn [all] in Hd. apply andb_true_iff in Hd as [Hch Hs].
    pose proof (digitValue_range ch Hch) as Hv.
    cbn [digitsValueFrom String.length].
    specialize (IH (10 * acc + digitValue ch) Hs ltac:(lia)).
    rewrite Nat2Z.inj_succ, Z.pow_succ_r by lia.
    assert (Hp : 0 < 10 ^ Z.of_nat (String.length s))
      by (apply Z.pow_pos_nonneg; lia).
    nia.
Qed.

Lemma digitsValue_bound s :
  all isDigit s = true -> digitsValue s < 10 ^ Z.of_nat (String.length s).
Proof.
  intros H. pose proof (digitsValueFrom_bound 0 s H ltac:(lia)) as Hb.
  unfold digitsValue. lia.
Qed.

Lemma roundHalfEven_nonneg n d : 0 <= n -> 0 < d -> 0 <= roundHalfEven n d.
Proof.
  intros Hn Hd. unfold roundHalfEven.
  assert (0 <= n / d) by (apply Z.div_pos; assumption).
  destruct (2 * (n mod d) <? d); [assumption|].
  destruct (d <? 2 * (n mod d)); [lia|].
  destruct (Z.even (n / d)); lia.
Qed.

(** A number below ten thousand is far from Infinity. *)
Lemma toDouble_finite n d :
  0 <= n -> 0 < d -> n < 10000 * d -> exists k, toDouble n d = dFin k /\ 0 <= k.
Proof.
  intros Hn Hd Hlt. unfold toDouble.
  destruct (n <=? 0); [exists 0; split; [reflexivity | lia]|].
  assert (Hbig : 10000 <= 2 ^ 1024 - 2 ^ 970) by (vm_compute; discriminate).
  revert Hbig. generalize (2 ^ 1024 - 2 ^ 970). intros T HT.
  destruct (Z.leb_spec (T * d) n) as [Hle|_]; [nia|].
  eexists. split; [reflexivity|].
  apply Z.mul_nonneg_nonneg; [|apply Z.pow_nonneg; lia].
  apply roundHalfEven_nonneg.
  - apply Z.mul_nonneg_nonneg; [exact Hn | apply Z.pow_nonneg; lia].
  - apply Z.mul_pos_pos; [exact Hd | apply Z.pow_pos_nonneg; lia].
Qed.

Lemma ulpsPerUnit_pos : 0 < ulpsPerUnit.
Proof. unfold ulpsPerUnit. apply Z.pow_pos_nonneg; lia. Qed.

(** The decimal form takes its hour and its minutes from the double. *)
Lemma bearingFromClock_of_double ip fp h m :
  all isDigit ip = true -> isEmpty ip = false ->
  all isDigit fp = true -> isEmpty fp = false ->
  double_floor (parseFloat (ip +:+ String "." fp)) = Some h ->
  double_round (double_mul_Z (double_fraction (parseFloat (ip +:+ String "." fp))) 60)
  = Some m ->
  bearingFromClock (ip +:+ String "." fp) = Ok (Fin (clockBearing h m)).
Proof.
  intros Hip Hni Hfp Hnf Eh Em. unfold bearingFromClock.
  assert (Hc : all clockChar (ip +:+ String "." fp) = true).
  { rewrite all_app. cbn [all].
    rewrite (digits_clockChars _ Hip), (digits_clockChars _ Hfp). reflexivity. }
  rewrite (clock_normal _ Hc).
  assert (Hi : includes ":" (ip +:+ String "." fp) = false).
  { rewrite includes_char. apply negb_false_iff. rewrite all_app. cbn [all].
    rewrite (digits_notColon _ Hip), (digits_notColon _ Hfp). reflexivity. }
  assert (Hd : all isDigit (ip +:+ String "." fp) = false).
  { rewrite all_app. cbn [all]. change (isDigit ".") with false.
    rewrite andb_false_r. reflexivity. }
  rewrite Hi, Hd. cbn [andb].
  rewrite takeDigits_app, dropDigits_app by (assumption || reflexivity).
  rewrite Hni, Hnf, Hfp. cbn [negb andb mbind result_bind].
  rewrite Eh, Em. apply bearing_tail.
Qed.

Lemma bearingFromClock_decimal ip fp :
  all isDigit ip = true -> isEmpty ip = false -> (String.length ip <= 4)%nat ->
  all isDigit fp = true -> isEmpty fp = false ->
  exists h m, 0 <= h /\ 0 <= m /\
    bearingFromClock (ip +:+ String "." fp) = Ok (Fin (clockBearing h m)).
Proof.
  intros Hip Hni Hl4 Hfp Hnf.
  pose proof ulpsPerUnit_pos as Hu.
  assert (Ef : parseFloat (ip +:+ String "." fp)
               = toDouble (digitsValue (ip +:+ fp))
                   (10 ^ Z.of_nat (String.length fp))).
  { unfold parseFloat.
    rewrite takeDigits_app, dropDigits_app by (assumption || reflexivity).
    reflexivity. }
  destruct (toDouble_finite (digitsValue (ip +:+ fp))
              (10 ^ Z.of_nat (String.length fp))) as (k & Ek & Hk).
  { apply digitsValue_nonneg. }
  { apply Z.pow_pos_nonneg; lia. }
  { pose proof (digitsValue_bound (ip +:+ fp)) as Hb.
    rewrite all_app, Hip, Hfp in Hb. specialize (Hb eq_refl).
    rewrite length_append, Nat2Z.inj_add, Z.pow_add_r in Hb by lia.
    assert (H4 : 10 ^ Z.of_nat (String.length ip) <= 10 ^ 4)
      by (apply Z.pow_le_mono_r; lia).
    change (10 ^ 4) with 10000 in H4.
    assert (0 < 10 ^ Z.of_nat (String.length fp)) by (apply Z.pow_pos_nonneg; lia).
    nia. }
  destruct (toDouble_finite (k mod ulpsPerUnit * 60) ulpsPerUnit) as (x & Ex & Hx).
  { pose proof (Z.mod_pos_bound k ulpsPerUnit Hu). lia. }
  { exact Hu. }
  { pose proof (Z.mod_pos_bound k ulpsPerUnit Hu). lia. }
  exists (k / ulpsPerUnit), ((2 * x + ulpsPerUnit) / (2 * ulpsPerUnit)).
  split; [apply Z.div_pos; lia|]. split; [apply Z.div_pos; lia|].
  apply bearingFromClock_of_double; try assumption.
  - rewrite Ef, Ek. reflexivity.
  - rewrite Ef, Ek. cbn [double_fraction double_mul_Z]. rewrite Ex. reflexivity.
Qed.

(** The minutes of "6.175" are ten, not eleven: the double nearest to
    6.175 is below it. *)
Example bearingFromClock_6_175 :
  bearingFromClock "6.175" = Ok (Fin (clockBearing 6 10)).
Proof.
  apply (bearingFromClock_of_double "6" "175"); try reflexivity;
    vm_compute; reflexivity.
Qed.

(** The bearing of a valid clock is the one of an hour and of minutes
    that are not negative. *)
Lemma bearingFromClock_value (c : string) :
  validClock c = true -> (String.length (takeDigits c) <= 4)%nat ->
  exists h m, 0 <= h /\ 0 <= m /\ bearingFromClock c = Ok (Fin (clockBearing h m)).
Proof.
  intros Hc H4. apply validClock_shape in Hc.
  destruct Hc as [Hd Hl | ip mm -> Hip Hl Hmm _ | ip fp -> Hip Hl Hfp Hne].
  - rewrite (bearingFromClock_compact c Hd Hl).
    destruct (String.length c <=? 2)%nat; eexists _, _;
      (split; [|split; [|reflexivity]]); try apply digitsValue_nonneg; lia.
  - assert (Hni : isEmpty ip = false) by (destruct ip; [simpl in Hl; lia | reflexivity]).
    rewrite (bearingFromClock_colon ip mm Hip Hni Hmm).
    destruct (tnum_or_nonneg (parseInt mm) (parseInt_digits_or_empty mm Hmm))
      as (m & -> & Hm).
    exists (digitsValue ip), m. split; [apply digitsValue_nonneg|]. split; [exact Hm|].
    reflexivity.
  - assert (Hni : isEmpty ip = false) by (destruct ip; [simpl in Hl; lia | reflexivity]).
    assert (Hnf : isEmpty fp = false) by (destruct fp; [contradiction | reflexivity]).
    rewrite takeDigits_app in H4 by (assumption || reflexivity).
    exact (bearingFromClock_decimal ip fp Hip Hni H4 Hfp Hnf).
Qed.

(** X23. On every valid clock notation of at most four digits before the
    colon or the point, [bearingFromClock] returns a finite number of
    degrees, from 0 up to, but not including, 360: hours beyond 12 and
    minutes beyond 59 wrap around the clock face. *)
Theorem bearingFromClock_range (c : string) :
  validClock c = true -> (String.length (takeDigits c) <= 4)%nat ->
  exists b, bearingFromClock c = Ok (Fin b) /\ (0 <= b < 360)%R.
Proof.
  intros Hc H4. destruct (bearingFromClock_value c Hc H4) as (h & m & Hh & Hm & E).
  exists (clockBearing h m). split; [exact E|]. apply clockBearing_range; assumption.
Qed.

Lemma bearingFromClock_range_witness :
  exists b, bearingFromClock "6.175" = Ok (Fin b) /\ (0 <= b < 360)%R.
Proof.
  apply (bearingFromClock_range "6.175"); [reflexivity | simpl; lia].
Defined.

(** ** The great-circle distance *)

Local Open Scope R_scope.

Lemma sqrt_scaled (x t : R) : 0 <= x -> sqrt (x * x * (1 + t²)) = x * sqrt (1 + t²).
Proof.
  intros Hx. pose proof (Rle_0_sqr t).
  rewrite sqrt_mult by nra. rewrite sqrt_square by exact Hx. reflexivity.
Qed.

Lemma sqrt_1_sqr_pos (t : R) : 0 < sqrt (1 + t²).
Proof. apply sqrt_lt_R0. pose proof (Rle_0_sqr t). lra. Qed.

(** The cosine of [Math.atan2(y, x)]. *)
Lemma cos_Ratan2 (x y : R) : sqrt (x * x + y * y) * cos (Ratan2 y x) = x.
Proof.
  unfold Ratan2. pose proof (sqrt_1_sqr_pos (y / x)) as Hs.
  destruct (Rlt_dec 0 x) as [Hx|Hx]; [|destruct (Rlt_dec x 0) as [Hx'|Hx']].
  - rewrite cos_atan.
    replace (x * x + y * y) with (x * x * (1 + (y / x)²)) by (unfold Rsqr; field; lra).
    rewrite sqrt_scaled by lra. field. lra.
  - assert (E : x * x + y * y = (- x) * (- x) * (1 + (y / x)²))
      by (unfold Rsqr; field; lra).
    destruct (Rle_dec 0 y).
    + rewrite neg_cos, cos_atan, E, sqrt_scaled by lra. field. lra.
    + replace (atan (y / x) - PI) with (- (- atan (y / x) + PI)) by ring.
      rewrite cos_neg, neg_cos, cos_neg, cos_atan, E, sqrt_scaled by lra. field. lra.
  - assert (x = 0) by lra. subst x.
    destruct (Rlt_dec 0 y); [rewrite cos_PI2; ring|].
    destruct (Rlt_dec y 0); [rewrite cos_neg, cos_PI2; ring|].
    assert (y = 0) by lra. subst y.
    replace (0 * 0 + 0 * 0) with 0 by ring. rewrite sqrt_0. ring.
Qed.

Lemma cos_period_Z (x : R) (k : Z) : cos (x + 2 * IZR k * PI) = cos x.
Proof.
  destruct k as [|p|p].
  - replace (x + 2 * 0 * PI) with x by ring. reflexivity.
  - replace (IZR (Z.pos p)) with (INR (Pos.to_nat p))
      by (rewrite INR_IZR_INZ, positive_nat_Z; reflexivity).
    apply cos_period.
  - rewrite <- (cos_period (x + 2 * IZR (Z.neg p) * PI) (Pos.to_nat p)).
    f_equal. replace (INR (Pos.to_nat p)) with (IZR (Z.pos p))
      by (rewrite INR_IZR_INZ, positive_nat_Z; reflexivity).
    change (Z.neg p) with (- Z.pos p)%Z. rewrite opp_IZR. ring.
Qed.

Lemma sin_sqr_half (x : R) : sin (x / 2) * sin (x / 2) = (1 - cos x) / 2.
Proof.
  replace x with (2 * (x / 2)) at 3 by field. rewrite cos_2a_sin. field.
Qed.

(** The square of the sine of half an angle is unchanged by whole turns. *)
Lemma sin_sqr_half_turns (x : R) (k : Z) :
  sin ((x + 2 * IZR k * PI) / 2) * sin ((x + 2 * IZR k * PI) / 2)
  = sin (x / 2) * sin (x / 2).
Proof. rewrite !sin_sqr_half, cos_period_Z. reflexivity. Qed.

(** The planar identity behind the destination formula: with
    [s2 = s1 cd + c1 sd ct], the two arguments of the arc tangent have the
    squared norm [c1² (1 - s2²)]. *)
Lemma destination_norm (s1 c1 sd cd st ct : R) :
  s1 * s1 + c1 * c1 = 1 -> sd * sd + cd * cd = 1 -> st * st + ct * ct = 1 ->
  let s2 := s1 * cd + c1 * sd * ct in
  let x := cd - s1 * s2 in
  let y := st * sd * c1 in
  x * x + y * y = c1 * c1 * (1 - s2 * s2).
Proof.
  intros H1 Hd Ht s2 x y.
  assert (E : x * x + y * y - c1 * c1 * (1 - s2 * s2)
              = (s2 * s2 - cd * cd) * (s1 * s1 + c1 * c1 - 1)
                + c1 * c1 * (sd * sd + cd * cd - 1)
                + sd * sd * (c1 * c1) * (st * st + ct * ct - 1))
    by (unfold x, y, s2; ring).
  rewrite H1, Hd, Ht in E. lra.
Qed.

(** The haversine term of a destination point: travelling the angle
    [delta] from latitude [phi1] on any bearing [theta] gives the term
    [sin² (delta / 2)]. *)
Lemma haversine_of_destination (phi1 delta theta : R) :
  0 <= cos phi1 ->
  let s2 := sin phi1 * cos delta + cos phi1 * sin delta * cos theta in
  let A := Ratan2 (sin theta * sin delta * cos phi1) (cos delta - sin phi1 * s2) in
  -1 <= s2 <= 1 ->
  sin ((asin s2 - phi1) / 2) * sin ((asin s2 - phi1) / 2)
  + cos phi1 * cos (asin s2) * (sin (A / 2) * sin (A / 2))
  = sin (delta / 2) * sin (delta / 2).
Proof.
  intros Hc s2 A Hs2.
  pose proof (destination_norm (sin phi1) (cos phi1) (sin delta) (cos delta)
                (sin theta) (cos theta) (sin2_cos2 phi1) (sin2_cos2 delta)
                (sin2_cos2 theta)) as Hn.
  cbv zeta in Hn. fold s2 in Hn.
  set (x := cos delta - sin phi1 * s2) in *.
  set (y := sin theta * sin delta * cos phi1) in *.
  assert (Hq : 0 <= 1 - s2 * s2) by nra.
  pose proof (sqrt_pos (1 - s2 * s2)) as Hsq.
  assert (Hcos2 : cos (asin s2) = sqrt (1 - s2 * s2)).
  { rewrite cos_asin by lra. reflexivity. }
  assert (Hnorm : sqrt (x * x + y * y) = cos phi1 * sqrt (1 - s2 * s2)).
  { apply sqrt_lem_1.
    - nra.
    - apply Rmult_le_pos; assumption.
    - rewrite Hn. pose proof (sqrt_sqrt _ Hq). nra. }
  pose proof (cos_Ratan2 x y) as HA. fold A in HA. rewrite Hnorm in HA.
  rewrite !sin_sqr_half, cos_minus, sin_asin, Hcos2 by lra.
  unfold x in HA. nra.
Qed.

(** The longitude of the projected point: the start longitude plus the
    arc tangent, up to whole turns taken off by the remainder. *)
Lemma destPoint_lon la lo d b :
  exists k : Z,
    lon (destPoint (Fin la) (Fin lo) (Fin d) (Fin b))
    = Fin (lo + Ratan2 (sin (b * PI / 180) * sin (d / 6371000) * cos (la * PI / 180))
                       (cos (d / 6371000) - sin (la * PI / 180) * sinLat la d b)
                * 180 / PI + 360 * IZR k).
Proof.
  pose proof PI_RGT_0 as Hpi. pose proof (sinLat_bound la d b) as [Hlo Hhi].
  unfold destPoint, Math_sin, Math_cos, Math_PI, Math_atan2, R_earth, lon, nsub, num_of_Z.
  constant_divisors. simpl. fold (sinLat la d b).
  constant_divisors.
  match goal with
  | |- exists k, Fin (Rrem ?x 360 - 180) = _ =>
      exists (1 - Rtrunc (x / 360))%Z; unfold Rrem; rewrite minus_IZR
  end.
  f_equal. field. lra.
Qed.

Lemma haversine_destPoint_real (la lo d b : R) :
  -90 <= la <= 90 -> 0 <= d <= 6371000 * PI ->
  haversineMeters (Fin la) (Fin lo)
    (lat (destPoint (Fin la) (Fin lo) (Fin d) (Fin b)))
    (lon (destPoint (Fin la) (Fin lo) (Fin d) (Fin b)))
  = Fin d.
Proof.
  intros Hla Hd. pose proof PI_RGT_0 as Hpi.
  pose proof (sinLat_bound la d b) as Hs.
  destruct (destPoint_lon la lo d b) as [k ->]. rewrite destPoint_lat.
  assert (Hc : 0 <= cos (la * PI / 180)) by (apply cos_ge_0; nra).
  pose proof (haversine_of_destination (la * PI / 180) (d / 6371000) (b * PI / 180) Hc)
    as Hh.
  cbv zeta in Hh. fold (sinLat la d b) in Hh. specialize (Hh Hs).
  set (A := Ratan2 _ _) in *.
  assert (Hhalf : 0 <= d / 6371000 / 2 <= PI / 2) by (split; lra).
  assert (Hsin : 0 <= sin (d / 6371000 / 2)) by (apply sin_ge_0; lra).
  assert (Haa :
    sin ((asin (sinLat la d b) * 180 / PI - la) * PI / 180 / 2)
    * sin ((asin (sinLat la d b) * 180 / PI - la) * PI / 180 / 2)
    + cos (la * PI / 180) * cos (asin (sinLat la d b) * 180 / PI * PI / 180)
      * (sin ((lo + A * 180 / PI + 360 * IZR k - lo) * PI / 180 / 2)
         * sin ((lo + A * 180 / PI + 360 * IZR k - lo) * PI / 180 / 2))
    = sin (d / 6371000 / 2) * sin (d / 6371000 / 2)).
  { replace ((asin (sinLat la d b) * 180 / PI - la) * PI / 180 / 2)
      with ((asin (sinLat la d b) - la * PI / 180) / 2) by (field; lra).
    replace (asin (sinLat la d b) * 180 / PI * PI / 180)
      with (asin (sinLat la d b)) by (field; lra).
    replace ((lo + A * 180 / PI + 360 * IZR k - lo) * PI / 180 / 2)
      with ((A + 2 * IZR k * PI) / 2) by (field; lra).
    rewrite sin_sqr_half_turns. exact Hh. }
  rewrite haversineMeters_Fin; rewrite Haa.
  - rewrite sqrt_square by assumption. rewrite asin_sin by lra. f_equal. field.
  - nra.
  - rewrite sqrt_square by assumption. pose proof (SIN_bound (d / 6371000 / 2)). lra.
Qed.

(** The haversine term lies between 0 and 1, whatever the four angles. *)
Lemma haversine_term_bounds (p1 p2 l : R) :
  let aa := sin ((p2 - p1) / 2) * sin ((p2 - p1) / 2)
            + cos p1 * cos p2 * (sin (l / 2) * sin (l / 2)) in
  0 <= aa <= 1.
Proof.
  cbv zeta. rewrite !sin_sqr_half, cos_minus.
  pose proof (COS_bound l) as Hl.
  pose proof (COS_bound (p1 + p2)) as Hp. rewrite cos_plus in Hp.
  pose proof (COS_bound (p2 - p1)) as Hm. rewrite cos_minus in Hm.
  set (u := cos p1 * cos p2) in *. set (v := sin p1 * sin p2) in *.
  replace (cos p2 * cos p1) with u in * by (unfold u; ring).
  replace (sin p2 * sin p1) with v in * by (unfold v; ring).
  set (t := cos l) in *.
  assert (A1 : 0 <= (1 + t) * (1 - (u + v))) by (apply Rmult_le_pos; lra).
  assert (A2 : 0 <= (1 - t) * (1 + (u - v))) by (apply Rmult_le_pos; lra).
  assert (A3 : 0 <= (1 + t) * (1 + (u + v))) by (apply Rmult_le_pos; lra).
  assert (A4 : 0 <= (1 - t) * (1 - (u - v))) by (apply Rmult_le_pos; lra).
  split; lra.
Qed.

Lemma haversineMeters_range_real (a b c d : R) :
  exists r, haversineMeters (Fin a) (Fin b) (Fin c) (Fin d) = Fin r
            /\ 0 <= r <= 6371000 * PI.
Proof.
  pose proof PI_RGT_0 as Hpi.
  pose proof (haversine_term_bounds (a * PI / 180) (c * PI / 180) ((d - b) * PI / 180))
    as Hb.
  cbv zeta in Hb.
  replace ((c * PI / 180 - a * PI / 180) / 2) with ((c - a) * PI / 180 / 2) in Hb
    by field.
  set (aa := _ + _) in Hb.
  assert (Hs : 0 <= sqrt aa <= 1).
  { split; [apply sqrt_pos|]. rewrite <- sqrt_1. apply sqrt_le_1_alt. lra. }
  eexists. split; [apply haversineMeters_Fin; fold aa; lra|]. fold aa.
  assert (Ha : 0 <= asin (sqrt aa) <= PI / 2).
  { split; [|apply asin_bound].
    destruct (Rle_dec 0 (asin (sqrt aa))) as [|Hn]; [assumption|exfalso].
    pose proof (asin_bound (sqrt aa)) as [Hlo _].
    assert (Hneg : sin (asin (sqrt aa)) < 0) by (apply sin_lt_0_var; lra).
    rewrite sin_asin in Hneg by lra. lra. }
  split; nra.
Qed.

Lemma haversineMeters_sym (a b c d : num) :
  haversineMeters a b c d = haversineMeters c d a b.
Proof.
  destruct a as [|a], b as [|b], c as [|c], d as [|d];
    unfold haversineMeters, sqr, Math_sin, Math_cos, Math_PI, R_earth, nsub, num_of_Z;
    constant_divisors; simpl; try reflexivity.
  replace ((a - c) * PI / 180 / 2) with (- ((c - a) * PI / 180 / 2)) by field.
  replace ((b - d) * PI / 180 / 2) with (- ((d - b) * PI / 180 / 2)) by field.
  rewrite !sin_neg.
  replace (cos (c * PI / 180) * cos (a * PI / 180))
    with (cos (a * PI / 180) * cos (c * PI / 180)) by ring.
  rewrite !Rmult_opp_opp. reflexivity.
Qed.

Lemma haversineMeters_same (a b : R) :
  haversineMeters (Fin a) (Fin b) (Fin a) (Fin b) = Fin 0.
Proof.
  rewrite haversineMeters_Fin.
  all: replace ((a - a) * PI / 180 / 2) with 0 by field.
  all: replace ((b - b) * PI / 180 / 2) with 0 by field.
  all: rewrite sin_0.
  all: replace (0 * 0 + cos (a * PI / 180) * cos (a * PI / 180) * (0 * 0)) with 0 by ring.
  - rewrite sqrt_0, asin_0. f_equal. ring.
  - lra.
  - rewrite sqrt_0. lra.
Qed.

Lemma Ratan2_bound (y x : R) : - PI <= Ratan2 y x <= PI.
Proof.
  pose proof PI_RGT_0 as Hpi. pose proof (atan_bound (y / x)) as Ha. unfold Ratan2.
  destruct (Rlt_dec 0 x); [lra|].
  destruct (Rlt_dec x 0).
  - destruct (Rle_dec 0 y) as [Hy|Hy].
    + assert (Hinv : / x < 0) by (apply Rinv_lt_0_compat; lra).
      assert (y / x <= 0) by (unfold Rdiv; nra).
      destruct (Req_dec (y / x) 0) as [E|E]; [rewrite E, atan_0; lra|].
      assert (atan (y / x) < atan 0) by (apply atan_increasing; lra).
      rewrite atan_0 in *. lra.
    + assert (Hinv : / x < 0) by (apply Rinv_lt_0_compat; lra).
      assert (0 < y / x) by (unfold Rdiv; nra).
      assert (atan 0 < atan (y / x)) by (apply atan_increasing; lra).
      rewrite atan_0 in *. lra.
  - destruct (Rlt_dec 0 y); [lra|]. destruct (Rlt_dec y 0); lra.
Qed.

(** X24. On finite coordinates [haversineMeters]
    returns a finite distance, from 0 to half the circumference of the
    sphere of radius 6371000; the distance from a point to itself is 0;
    and the distance is the same in both directions, for all arguments,
    [NaN] included.  (The numbers of the model are real numbers.) *)
Theorem haversineMeters_metric :
  (forall a b c d : R,
     exists r, haversineMeters (Fin a) (Fin b) (Fin c) (Fin d) = Fin r
               /\ 0 <= r <= 6371000 * PI) /\
  (forall a b : R, haversineMeters (Fin a) (Fin b) (Fin a) (Fin b) = Fin 0) /\
  (forall a b c d : num, haversineMeters a b c d = haversineMeters c d a b).
Proof.
  split; [exact haversineMeters_range_real|].
  split; [exact haversineMeters_same | exact haversineMeters_sym].
Qed.

(** X25. From a point of latitude between -90 and 90
    and longitude between -180 and 180, a distance from 0 to half the
    circumference, on any finite bearing, [destPoint] returns a point of
    finite latitude between -90 and 90 and finite longitude from -180 up
    to, but not including, 180, and [haversineMeters] from the start to
    that point gives the distance back.  (The numbers of the model are
    real numbers.) *)
Theorem destPoint_round_trip (la lo d b : R) :
  -90 <= la <= 90 -> -180 <= lo <= 180 -> 0 <= d <= 6371000 * PI ->
  exists la2 lo2,
    destPoint (Fin la) (Fin lo) (Fin d) (Fin b) = {| lat := Fin la2; lon := Fin lo2 |}
    /\ -90 <= la2 <= 90 /\ -180 <= lo2 < 180
    /\ haversineMeters (Fin la) (Fin lo) (Fin la2) (Fin lo2) = Fin d.
Proof.
  intros Hla Hlo Hd. pose proof PI_RGT_0 as Hpi.
  pose proof (haversine_destPoint_real la lo d b Hla Hd) as Hback.
  pose proof (destPoint_lat la lo d b) as Elat.
  assert (Elon : exists lo2,
            lon (destPoint (Fin la) (Fin lo) (Fin d) (Fin b)) = Fin lo2
            /\ -180 <= lo2 < 180).
  { pose proof (sinLat_bound la d b) as [Hs1 Hs2].
    unfold destPoint, Math_sin, Math_cos, Math_PI, Math_atan2, R_earth, lon, nsub, num_of_Z.
    constant_divisors. simpl. fold (sinLat la d b).
    constant_divisors.
    match goal with
    | |- exists lo2, Fin (Rrem ?x 360 - 180) = _ /\ _ =>
        exists (Rrem x 360 - 180); split; [reflexivity|];
        assert (Hx : 0 <= x); [|pose proof (Rrem_range x 360 Hx ltac:(lra)); lra]
    end.
    match goal with
    | |- context [Ratan2 ?y ?x] => pose proof (Ratan2_bound y x) as [Ha _]; set (A := Ratan2 y x) in *
    end.
    assert (E : (lo * PI / 180 + A) * 180 / PI = lo + A * (180 / PI)) by (field; lra).
    rewrite E.
    assert (- 180 <= A * (180 / PI)).
    { assert (Hk : 0 < 180 / PI) by (apply Rdiv_lt_0_compat; lra).
      assert (- PI * (180 / PI) <= A * (180 / PI))
        by (apply Rmult_le_compat_r; lra).
      replace (- PI * (180 / PI)) with (- 180) in * by (field; lra). assumption. }
    lra. }
  destruct Elon as (lo2 & Elon & Hlo2).
  exists (asin (sinLat la d b) * 180 / PI), lo2.
  rewrite Elat, Elon in Hback.
  split.
  - destruct (destPoint (Fin la) (Fin lo) (Fin d) (Fin b)) as [x y].
    cbn [lat lon] in Elat, Elon. rewrite Elat, Elon. reflexivity.
  - split; [|split; [exact Hlo2 | exact Hback]].
    pose proof (asin_bound (sinLat la d b)) as [H1 H2].
    assert (Hk : 0 < 180 / PI) by (apply Rdiv_lt_0_compat; lra).
    replace (asin (sinLat la d b) * 180 / PI)
      with (asin (sinLat la d b) * (180 / PI)) by (field; lra).
    split.
    + replace (-90) with (- (PI / 2) * (180 / PI)) by (field; lra).
      apply Rmult_le_compat_r; lra.
    + replace 90 with (PI / 2 * (180 / PI)) by (field; lra).
      apply Rmult_le_compat_r; lra.
Qed.

Lemma destPoint_round_trip_witness :
  exists la2 lo2,
    destPoint (Fin 40.786958) (Fin (-119.202994)) (Fin 762) (Fin 225)
    = {| lat := Fin la2; lon := Fin lo2 |}
    /\ -90 <= la2 <= 90 /\ -180 <= lo2 < 180
    /\ haversineMeters (Fin 40.786958) (Fin (-119.202994)) (Fin la2) (Fin lo2) = Fin 762.
Proof.
  apply (destPoint_round_trip 40.786958 (-119.202994) 762 225).
  - lra.
  - lra.
  - pose proof PI_gt_3. lra.
Defined.

(** ** Distances from the Man *)

Lemma fold_num (x y : R) : (Fin x + Fin y)%num = Fin (x + y).
Proof. reflexivity. Qed.

(** The radius of a ring name is a number of feet between the Esplanade and
    the centreline of K. *)
Lemma radiusFeetForRing_range r :
  validRing r = true ->
  exists rf, radiusFeetForRing r = Ok (Fin rf) /\ 2500 <= rf <= 5755.
Proof.
  intros Hr. pose proof (validRing_chars r Hr) as Hch.
  assert (Hns : all nonSpace r = true).
  { eapply all_impl; [|exact Hch]. intros ch Hc.
    apply tokenChar_nonSpace, ringChar_tokenChar, Hc. }
  destruct (String.eqb (toUpperCase r) "ESPLANADE" || String.eqb (toUpperCase r) "ESPL")
    eqn:Ekw.
  - unfold radiusFeetForRing. rewrite (trim_nonSpace _ Hns), Ekw.
    exists 2500. split; [reflexivity | lra].
  - unfold validRing in Hr. rewrite <- orb_assoc, Ekw, orb_false_r in Hr.
    destruct r as [|ch [|? ?]]; try discriminate Hr. clear -Hr.
    each_ascii ch; vm_compute in Hr; try discriminate Hr; clear Hr.
    all: eexists; (split; [eval_ring; unfold ESPL_RADIUS_FT, num_of_Z;
                           rewrite ?(ndiv_2 40), ?(ndiv_2 30), ?(ndiv_2 50);
                           fold (num_of_Z 2);
                           rewrite ?(ndiv_2 40), ?(ndiv_2 30), ?(ndiv_2 50);
                           cbn [nadd lift2]; reflexivity | lra]).
Qed.

Lemma project_distance ring clock :
  validRing ring = true -> validClock clock = true ->
  (String.length (takeDigits clock) <= 4)%nat ->
  exists rf p,
    radiusFeetForRing ring = Ok (Fin rf) /\ project ring clock = Ok p /\
    haversineMeters (lat MAN) (lon MAN) (lat p) (lon p) = Fin (rf * 0.3048).
Proof.
  intros Hr Hc H4.
  destruct (radiusFeetForRing_range ring Hr) as (rf & Hrf & Hrange).
  destruct (bearingFromClock_value clock Hc H4) as (h & m & _ & _ & Hb).
  exists rf, (destPoint (lat MAN) (lon MAN) (Fin rf * FT2M)%num
                (Fin (clockBearing h m))).
  split; [exact Hrf|]. split; [exact (project_Ok _ _ _ _ Hrf Hb)|].
  pose proof PI_gt_3 as Hpi.
  apply haversine_destPoint_real; [lra | nra].
Qed.

(** X26. The distance from the Man to an intersection
    is the radius of its ring: for every valid clock of at most four digits
    before the colon or the point, and every ring name, with any white
    space around the "&", [distanceMetersToAddress] from the coordinates of
    the Man returns the radius of the ring in feet times 0.3048, whatever
    the clock is.  (The numbers of the model are real numbers.) *)
Theorem distance_from_the_Man (c r w1 w2 : string) :
  validClock c = true -> (String.length (takeDigits c) <= 4)%nat ->
  validRing r = true ->
  all isSpace w1 = true -> all isSpace w2 = true ->
  exists rf,
    radiusFeetForRing r = Ok (Fin rf) /\
    distanceMetersToAddress (lat MAN) (lon MAN) (c +:+ w1 +:+ "&" +:+ w2 +:+ r)
    = Ok (Fin (rf * 0.3048)).
Proof.
  intros Hc H4 Hr Hw1 Hw2.
  destruct (project_distance r c Hr Hc H4) as (rf & p & Hrf & Hp & Hd).
  exists rf. split; [exact Hrf|].
  destruct (coordOf_clock_ring c r w1 w2 (validClock_shape c Hc) H4 Hr Hw1 Hw2) as [E _].
  unfold distanceMetersToAddress. rewrite E, Hp. cbn [mbind result_bind].
  rewrite Hd. reflexivity.
Qed.

Lemma distance_from_the_Man_witness :
  exists rf,
    radiusFeetForRing "D" = Ok (Fin rf) /\
    distanceMetersToAddress (lat MAN) (lon MAN) "6:00 & D" = Ok (Fin (rf * 0.3048)).
Proof.
  apply (distance_from_the_Man "6:00" "D" " " " ");
    [reflexivity | simpl; lia | reflexivity | reflexivity | reflexivity].
Defined.

(** A pass whose record has a distance: the viewer stands at the art
    installation. *)
Lemma oasisVisit_pass :
  processEvents (Scenario.device [oasisVisit] {[ "a2" := oasisArt ]} ∅ ∅ 0)
    viewerParams
  = Ok [oasisVisit_processed].
Proof.
  unfold processEvents, Scenario.device, viewerParams. simpl.
  unfold processOccurrence. simpl.
  replace (Scenario.Date_parse_iso "2025-08-27T10:00:00Z")
    with (Some 1756288800000%Z) by (vm_compute; reflexivity).
  replace (Scenario.Date_parse_iso "2025-08-27T11:00:00Z")
    with (Some 1756292400000%Z) by (vm_compute; reflexivity).
  simpl. unfold resolveEventLocation. simpl.
  rewrite lookup_singleton_eq. simpl.
  destruct (Req_dec_T 40.7741 0) as [Hz|_]; [exfalso; lra|].
  destruct (Req_dec_T (-119.2137) 0) as [Hz|_]; [exfalso; lra|]. simpl.
  rewrite haversineMeters_same.
  destruct (Rlt_dec 1000 0) as [Hlt|_]; [exfalso; lra|].
  vm_compute. reflexivity.
Qed.

Lemma getEventStats_nearby_witness :
  nearbyEvents (getEventStats [oasisVisit_processed] (Some (Fin 1000)))
  = count (fun e => negb (bool_decide (pe_distance e = None))) [oasisVisit_processed]
  /\ count (fun e => negb (bool_decide (pe_distance e = None))) [oasisVisit_processed]
     = 1%Z.
Proof.
  split; [|reflexivity].
  apply (getEventStats_nearby
           (Scenario.device [oasisVisit] {[ "a2" := oasisArt ]} ∅ ∅ 0) viewerParams).
  - exact oasisVisit_pass.
  - reflexivity.
  - lra.
Defined.

(* ===================================================================== *)
(** * Properties of the favourites service *)
(* ===================================================================== *)

(** ** The favourites service *)

Module FavoritesFacts.
Import FavoritesService.

Lemma elem_of_idsOf (x : string) (l : list FavoriteEvent) :
  x ∈ idsOf l <-> exists fav, In fav l /\ fav_id fav = x.
Proof.
  unfold idsOf. rewrite elem_of_list_to_set, list_elem_of_In, in_map_iff.
  split; intros (fav & H1 & H2); exists fav; auto.
Qed.

Lemma idsOf_app l f : idsOf (l ++ [f]) = {[fav_id f]} ∪ idsOf l.
Proof.
  apply set_eq. intros x.
  rewrite elem_of_union, elem_of_singleton, !elem_of_idsOf. split.
  - intros (fav & Hin & E). apply in_app_iff in Hin as [Hin|[<-|[]]].
    + right. exists fav. auto.
    + left. symmetry. exact E.
  - intros [->|(fav & Hin & E)].
    + exists f. split; [apply in_app_iff; right; left; reflexivity | reflexivity].
    + exists fav. split; [apply in_app_iff; left; exact Hin | exact E].
Qed.

Lemma idsOf_filter eventId l :
  idsOf (List.filter (fun fav => negb (String.eqb (fav_id fav) eventId)) l)
  = idsOf l ∖ {[eventId]}.
Proof.
  apply set_eq. intros x.
  rewrite elem_of_difference, elem_of_singleton, !elem_of_idsOf. split.
  - intros (fav & Hin & E). apply filter_In in Hin as [Hin Hne].
    apply negb_true_iff, String.eqb_neq in Hne.
    split; [exists fav; auto | congruence].
  - intros [(fav & Hin & E) Hne]. exists fav. split; [|exact E].
    apply filter_In. split; [exact Hin|].
    apply negb_true_iff, String.eqb_neq. congruence.
Qed.

Lemma has_true eventId s : has eventId s = true <-> eventId ∈ s.
Proof. unfold has. apply bool_decide_eq_true. Qed.

Lemma has_false eventId s : has eventId s = false <-> eventId ∉ s.
Proof. unfold has. apply bool_decide_eq_false. Qed.

Lemma filter_absent eventId l :
  eventId ∉ idsOf l ->
  List.filter (fun fav => negb (String.eqb (fav_id fav) eventId)) l = l.
Proof.
  intros Hn. induction l as [|f l IH]; cbn [List.filter]; [reflexivity|].
  destruct (String.eqb (fav_id f) eventId) eqn:E; cbn [negb].
  - apply String.eqb_eq in E. exfalso. apply Hn, elem_of_idsOf.
    exists f. split; [left; reflexivity | exact E].
  - rewrite IH; [reflexivity|]. intros Hin. apply Hn.
    apply elem_of_idsOf in Hin as (fav & Hin & Ef). apply elem_of_idsOf.
    exists fav. split; [right; exact Hin | exact Ef].
Qed.

(** [initialize] never throws; it leaves the service initialised and the
    storage as it was, and does nothing on an initialised service. *)
Lemma initialize_spec pf w :
  exists w', initialize pf w = (Ok tt, w')
             /\ isInitialized w' = true /\ storage w' = storage w
             /\ (isInitialized w = true -> w' = w)
             /\ (consistent w -> consistent w').
Proof.
  unfold initialize, bind, get. destruct (isInitialized w) eqn:Ei.
  - exists w. unfold ret. auto.
  - unfold try_catch, AsyncStorage_getItem, bind, get, throw, ret, modify, lift.
    destruct (getItem_rejects pf) as [msg|].
    + eexists. split; [reflexivity|]. cbn. repeat split; try discriminate.
    + destruct (storage w) as [text|] eqn:Es.
      * destruct (isEmpty text).
        -- eexists. split; [reflexivity|]. cbn. repeat split; try discriminate; auto.
        -- destruct (JSON_parse pf text) as [parsed|msg].
           ++ eexists. split; [reflexivity|]. cbn. repeat split; try discriminate; auto.
           ++ eexists. split; [reflexivity|]. cbn. repeat split; try discriminate; auto.
      * eexists. split; [reflexivity|]. cbn. repeat split; try discriminate; auto.
Qed.

Ltac run_initialize pf w w0 :=
  let E := fresh "Einit" in
  let Hi := fresh "Hinit" in
  let Hs := fresh "Hstore" in
  let Hsame := fresh "Hsame" in
  let Hc := fresh "Hcons" in
  destruct (initialize_spec pf w) as (w0 & E & Hi & Hs & Hsame & Hc).

(** [saveFavorites] writes the list and returns, or throws its own message
    and leaves the state as it was. *)
Lemma saveFavorites_spec pf w :
  saveFavorites pf w
  = match setItem_rejects pf with
    | Some _ => (Throw "Failed to save favorites", w)
    | None => (Ok tt, set_storage (Some (JSON_stringify pf (favoriteEvents w))) w)
    end.
Proof.
  unfold saveFavorites, try_catch, bind, get, AsyncStorage_setItem, throw, modify.
  destruct (setItem_rejects pf); reflexivity.
Qed.

Lemma addFavorite_spec pf event w w0 :
  initialize pf w = (Ok tt, w0) ->
  addFavorite pf event w
  = if has (arg_id event) (favorites w0) then (Ok tt, w0)
    else
      match arg_start event, arg_end event with
      | Some start, Some end_ =>
          let w1 := pushed (favoriteOf pf event start end_) w0 in
          match setItem_rejects pf with
          | Some _ => (Throw "Failed to save favorites", w1)
          | None =>
              (Ok tt, set_storage (Some (JSON_stringify pf (favoriteEvents w1))) w1)
          end
      | _, _ => (Throw "Invalid time value", w0)
      end.
Proof.
  intros E. unfold addFavorite. unfold bind at 1. rewrite E.
  unfold bind at 1. unfold get at 1.
  destruct (has (arg_id event) (favorites w0)); [reflexivity|].
  destruct (arg_start event) as [start|]; [|reflexivity].
  destruct (arg_end event) as [end_|]; [|reflexivity].
  unfold bind, lift, toISOString, modify. cbn [fst snd].
  rewrite saveFavorites_spec.
  destruct (setItem_rejects pf); [reflexivity|].
  unfold try_catch, scheduleEventNotification, throw, ret.
  destruct (scheduleEventNotification_rejects pf); reflexivity.
Qed.

Lemma removeFavorite_spec pf eventId w w0 :
  initialize pf w = (Ok tt, w0) ->
  removeFavorite pf eventId w
  = if has eventId (favorites w0) then
      let w1 := dropped eventId w0 in
      match setItem_rejects pf with
      | Some _ => (Throw "Failed to save favorites", w1)
      | None =>
          (Ok tt, set_storage (Some (JSON_stringify pf (favoriteEvents w1))) w1)
      end
    else (Ok tt, w0).
Proof.
  intros E. unfold removeFavorite. unfold bind at 1. rewrite E.
  unfold bind at 1. unfold get at 1.
  destruct (has eventId (favorites w0)); [|reflexivity]. cbn [negb].
  unfold bind, modify. cbn [fst snd].
  rewrite saveFavorites_spec.
  destruct (setItem_rejects pf); [reflexivity|].
  unfold try_catch, cancelEventNotification, throw, ret.
  destruct (cancelEventNotification_rejects pf); reflexivity.
Qed.

Lemma initialize_again pf w w0 :
  initialize pf w = (Ok tt, w0) -> initialize pf w0 = (Ok tt, w0).
Proof.
  intros E. destruct (initialize_spec pf w) as (w0' & E' & Hi & _).
  rewrite E in E'. injection E' as <-.
  unfold initialize, bind, get. rewrite Hi. reflexivity.
Qed.

Lemma toggleFavorite_spec pf event w w0 :
  initialize pf w = (Ok tt, w0) ->
  toggleFavorite pf event w
  = if has (arg_id event) (favorites w0) then
      match removeFavorite pf (arg_id event) w with
      | (Ok _, w') => (Ok false, w')
      | (Throw msg, w') => (Throw msg, w')
      end
    else
      match addFavorite pf event w with
      | (Ok _, w') => (Ok true, w')
      | (Throw msg, w') => (Throw msg, w')
      end.
Proof.
  intros E. pose proof (initialize_again pf w w0 E) as E0.
  unfold toggleFavorite. unfold bind at 1. rewrite E.
  unfold bind at 1. unfold get at 1.
  rewrite (removeFavorite_spec pf _ w w0 E), (addFavorite_spec pf _ w w0 E).
  destruct (has (arg_id event) (favorites w0)) eqn:Eh.
  - unfold bind. rewrite (removeFavorite_spec pf _ w0 w0 E0), Eh. cbv zeta.
    destruct (setItem_rejects pf); reflexivity.
  - unfold bind. rewrite (addFavorite_spec pf _ w0 w0 E0), Eh.
    destruct (arg_start event), (arg_end event); reflexivity.
Qed.

Lemma pushed_consistent f w : consistent w -> consistent (pushed f w).
Proof.
  unfold consistent, pushed, set_favorites, set_favoriteEvents.
  cbn [favorites favoriteEvents]. intros ->. rewrite idsOf_app. reflexivity.
Qed.

Lemma dropped_consistent eventId w : consistent w -> consistent (dropped eventId w).
Proof.
  unfold consistent, dropped, set_favorites, set_favoriteEvents.
  cbn [favorites favoriteEvents]. intros ->. rewrite idsOf_filter. reflexivity.
Qed.

Lemma set_storage_consistent s w : consistent w -> consistent (set_storage s w).
Proof. intros H. exact H. Qed.

Lemma addFavorite_consistent pf event w :
  consistent w -> consistent (snd (addFavorite pf event w)).
Proof.
  intros Hc. run_initialize pf w w0. rewrite (addFavorite_spec pf event w w0 Einit).
  specialize (Hcons Hc).
  destruct (has _ _); [exact Hcons|].
  destruct (arg_start event), (arg_end event); try exact Hcons.
  cbv zeta. destruct (setItem_rejects pf); cbn [snd];
    [|apply set_storage_consistent]; apply pushed_consistent, Hcons.
Qed.

Lemma removeFavorite_consistent pf eventId w :
  consistent w -> consistent (snd (removeFavorite pf eventId w)).
Proof.
  intros Hc. run_initialize pf w w0. rewrite (removeFavorite_spec pf eventId w w0 Einit).
  specialize (Hcons Hc).
  destruct (has _ _); [|exact Hcons].
  cbv zeta. destruct (setItem_rejects pf); cbn [snd];
    [|apply set_storage_consistent]; apply dropped_consistent, Hcons.
Qed.

Lemma snd_match {A B : Type} (p : result A * State) (b : B) :
  snd (match p with
       | (Ok _, w') => (Ok b, w')
       | (Throw msg, w') => (Throw msg, w')
       end) = snd p.
Proof. destruct p as [[?|?] ?]; reflexivity. Qed.

Lemma reader_state {A : Type} pf (f : State -> A) w w0 :
  initialize pf w = (Ok tt, w0) ->
  (initialize pf;; let* w := get in ret (f w)) w = (Ok (f w0), w0).
Proof. intros E. unfold bind. rewrite E. reflexivity. Qed.

Lemma after_consistent pf c w : consistent w -> consistent (after pf c w).
Proof.
  intros Hc. run_initialize pf w w0. pose proof (Hcons Hc) as Hc0.
  destruct c as [|event|eventId|event|eventId| | | |typeAbbr]; cbn [after].
  - rewrite Einit. exact Hc0.
  - apply addFavorite_consistent, Hc.
  - apply removeFavorite_consistent, Hc.
  - rewrite (toggleFavorite_spec pf event w w0 Einit).
    destruct (has _ _); rewrite snd_match;
      [apply removeFavorite_consistent | apply addFavorite_consistent]; exact Hc.
  - unfold isFavorite. rewrite (reader_state pf _ w w0 Einit). exact Hc0.
  - unfold getFavoritesCount. rewrite (reader_state pf _ w w0 Einit). exact Hc0.
  - unfold getFavoriteIds. rewrite (reader_state pf _ w w0 Einit). exact Hc0.
  - unfold clearAllFavorites, bind, modify. cbn [fst snd]. rewrite saveFavorites_spec.
    destruct (setItem_rejects pf); reflexivity.
  - unfold getFavoritesByType. rewrite (reader_state pf _ w w0 Einit). exact Hc0.
Qed.

Lemma session_consistent calls w : consistent w -> consistent (session calls w).
Proof.
  unfold session. revert w. induction calls as [|[pf c] calls IH]; intros w Hc.
  - exact Hc.
  - cbn [fold_left fst snd]. apply IH, after_consistent, Hc.
Qed.

(** X27. The set of ids of the favourites service
    mirrors its list: in every state a new service reaches, by any
    sequence of calls awaited one after the other, whatever the storage
    holds and whether the storage and the notifications fail or not, an id
    is in the set exactly when a favourite of the list carries it. *)
Theorem favorites_mirror_list (stored : option string)
    (calls : list (Platform * Call)) :
  let w := session calls (new_FavoritesService stored) in
  forall eventId,
    has eventId (favorites w) = true
    <-> exists fav, In fav (favoriteEvents w) /\ fav_id fav = eventId.
Proof.
  intros w eventId.
  assert (Hc : consistent w) by (apply session_consistent; reflexivity).
  rewrite has_true, Hc. unfold idsOf. rewrite elem_of_list_to_set, list_elem_of_In, in_map_iff.
  split; intros (fav & H1 & H2); exists fav; auto.
Qed.

Lemma isFavorite_spec pf eventId w w0 :
  initialize pf w = (Ok tt, w0) ->
  isFavorite pf eventId w = (Ok (has eventId (favorites w0)), w0).
Proof.
  intros E. unfold isFavorite.
  exact (reader_state pf (fun w => has eventId (favorites w)) w w0 E).
Qed.

Lemma isFavorite_initialized pf eventId w :
  isInitialized w = true ->
  isFavorite pf eventId w = (Ok (has eventId (favorites w)), w).
Proof.
  intros Hi. apply isFavorite_spec. unfold initialize, bind, get. rewrite Hi. reflexivity.
Qed.

Lemma has_pushed f w : has (fav_id f) (favorites (pushed f w)) = true.
Proof.
  apply has_true. unfold pushed, set_favorites. cbn [favorites].
  apply elem_of_union. left. apply elem_of_singleton. reflexivity.
Qed.

(** X28. [addFavorite] on an event with valid dates:
    the event is a favourite afterwards whether the call returns or throws;
    the call throws exactly when the event was not a favourite and the
    storage refuses the write, with the message "Failed to save favorites",
    and then the new favourite is in memory while the storage is as it
    was; when the write succeeds the storage holds the text of the new
    list; a failure of the notification service is never reported. *)
Theorem addFavorite_outcome (pf pf' : Platform) (event : EventArg)
    (start end_ : Z) (w : State) :
  arg_start event = Some start -> arg_end event = Some end_ ->
  let was := fst (isFavorite pf (arg_id event) w) in
  let r := fst (addFavorite pf event w) in
  let w' := snd (addFavorite pf event w) in
  fst (isFavorite pf' (arg_id event) w') = Ok true
  /\ (r = Ok tt \/ r = Throw "Failed to save favorites")
  /\ (r = Throw "Failed to save favorites"
      <-> was = Ok false /\ setItem_rejects pf <> None)
  /\ (was = Ok false ->
      favoriteEvents w'
      = (favoriteEvents (snd (initialize pf w)) ++ [favoriteOf pf event start end_])%list
      /\ storage w'
         = match setItem_rejects pf with
           | Some _ => storage w
           | None => Some (JSON_stringify pf (favoriteEvents w'))
           end).
Proof.
  intros Hs He. cbv zeta. run_initialize pf w w0.
  rewrite (isFavorite_spec pf _ w w0 Einit), (addFavorite_spec pf event w w0 Einit).
  rewrite Einit, Hs, He. cbn [fst snd].
  destruct (has (arg_id event) (favorites w0)) eqn:Eh; cbn [fst snd].
  - rewrite (isFavorite_initialized pf' _ w0 Hinit), Eh.
    split; [reflexivity|]. split; [left; reflexivity|].
    split; [split; [discriminate | intros [H _]; discriminate]|]. discriminate.
  - destruct (setItem_rejects pf) as [msg|] eqn:Er; cbn [fst snd].
    + rewrite isFavorite_initialized by exact Hinit.
      change (arg_id event) with (fav_id (favoriteOf pf event start end_)) at 1.
      rewrite has_pushed. split; [reflexivity|]. split; [right; reflexivity|].
      split; [split; [intros _; split; [reflexivity | discriminate] | reflexivity]|].
      intros _. split; [reflexivity | exact Hstore].
    + rewrite isFavorite_initialized by exact Hinit.
      change (arg_id event) with (fav_id (favoriteOf pf event start end_)) at 1.
      change (favorites (set_storage _ ?x)) with (favorites x).
      rewrite has_pushed. split; [reflexivity|]. split; [left; reflexivity|].
      split; [split; [discriminate | intros [_ H]; contradiction]|].
      intros _. split; reflexivity.
Qed.

Lemma session_initialized_consistent pf stored calls :
  let w0 := snd (initialize pf (session calls (new_FavoritesService stored))) in
  initialize pf (session calls (new_FavoritesService stored)) = (Ok tt, w0)
  /\ isInitialized w0 = true /\ consistent w0.
Proof.
  cbv zeta. run_initialize pf (session calls (new_FavoritesService stored)) w0.
  rewrite Einit. cbn [snd]. split; [reflexivity|]. split; [exact Hinit|].
  apply Hcons, session_consistent. reflexivity.
Qed.

Lemma toggleFavorite_state pf event start end_ w w0 :
  initialize pf w = (Ok tt, w0) ->
  arg_start event = Some start -> arg_end event = Some end_ ->
  exists w1,
    (if has (arg_id event) (favorites w0) then w1 = dropped (arg_id event) w0
     else w1 = pushed (favoriteOf pf event start end_) w0)
    /\ match setItem_rejects pf with
       | Some _ =>
           toggleFavorite pf event w = (Throw "Failed to save favorites", w1)
       | None =>
           toggleFavorite pf event w
           = (Ok (negb (has (arg_id event) (favorites w0))),
              set_storage (Some (JSON_stringify pf (favoriteEvents w1))) w1)
       end.
Proof.
  intros E Hs He. rewrite (toggleFavorite_spec pf event w w0 E).
  rewrite (removeFavorite_spec pf _ w w0 E), (addFavorite_spec pf _ w w0 E), Hs, He.
  destruct (has (arg_id event) (favorites w0)); cbv zeta;
    (eexists; split; [reflexivity|]); destruct (setItem_rejects pf); reflexivity.
Qed.

(** X29. Two calls of [toggleFavorite] in a row on an
    event with valid dates, in any state a new service reaches and whatever
    the storage does: after the first the event is a favourite exactly
    when it was not before; after the second the set of ids is the one
    before the two calls.  The list is the old one when the event was not
    a favourite; when it was, its record has moved to the end of the list
    and is a new one, with the time of the second call. *)
Theorem toggleFavorite_twice (stored : option string)
    (calls : list (Platform * Call)) (pf1 pf2 : Platform) (event : EventArg)
    (start end_ : Z) :
  arg_start event = Some start -> arg_end event = Some end_ ->
  let w0 := snd (initialize pf1 (session calls (new_FavoritesService stored))) in
  let w1 := snd (toggleFavorite pf1 event (session calls (new_FavoritesService stored))) in
  let w2 := snd (toggleFavorite pf2 event w1) in
  let was := has (arg_id event) (favorites w0) in
  has (arg_id event) (favorites w1) = negb was
  /\ favorites w2 = favorites w0
  /\ favoriteEvents w2
     = if was then
         (List.filter (fun fav => negb (String.eqb (fav_id fav) (arg_id event)))
            (favoriteEvents w0) ++ [favoriteOf pf2 event start end_])%list
       else favoriteEvents w0.
Proof.
  intros Hs He. cbv zeta.
  destruct (session_initialized_consistent pf1 stored calls) as (E & Hi & Hc).
  set (w := session calls (new_FavoritesService stored)) in *.
  set (w0 := snd (initialize pf1 w)) in *.
  destruct (toggleFavorite_state pf1 event start end_ w w0 E Hs He) as (w1 & Hw1 & E1).
  assert (Hi1 : isInitialized w1 = true)
    by (destruct (has _ _); subst w1; exact Hi).
  assert (Hfav1 : favorites (snd (toggleFavorite pf1 event w)) = favorites w1)
    by (destruct (setItem_rejects pf1); rewrite E1; reflexivity).
  assert (Hev1 : favoriteEvents (snd (toggleFavorite pf1 event w)) = favoriteEvents w1)
    by (destruct (setItem_rejects pf1); rewrite E1; reflexivity).
  assert (Hin1 : initialize pf2 (snd (toggleFavorite pf1 event w))
                 = (Ok tt, snd (toggleFavorite pf1 event w))).
  { unfold initialize, bind, get.
    destruct (setItem_rejects pf1); rewrite E1; cbn [snd set_storage isInitialized];
      rewrite Hi1; reflexivity. }
  destruct (toggleFavorite_state pf2 event start end_ _ _ Hin1 Hs He) as (w2 & Hw2 & E2).
  assert (Hfav2 : favorites (snd (toggleFavorite pf2 event
                                    (snd (toggleFavorite pf1 event w)))) = favorites w2)
    by (destruct (setItem_rejects pf2); rewrite E2; reflexivity).
  assert (Hev2 : favoriteEvents (snd (toggleFavorite pf2 event
                                    (snd (toggleFavorite pf1 event w))))
                 = favoriteEvents w2)
    by (destruct (setItem_rejects pf2); rewrite E2; reflexivity).
  rewrite Hfav2, Hev2, Hfav1. rewrite Hfav1 in Hw2. clear E1 E2 Hfav2 Hev2 Hin1.
  destruct (has (arg_id event) (favorites w0)) eqn:Eh; subst w1.
  - assert (Hd : has (arg_id event) (favorites (dropped (arg_id event) w0)) = false).
    { apply has_false. unfold dropped, set_favorites. cbn [favorites].
      rewrite elem_of_difference, elem_of_singleton. tauto. }
    rewrite Hd in Hw2 |- *. subst w2. split; [reflexivity|].
    apply has_true in Eh. split.
    + unfold pushed, dropped, set_favorites, set_favoriteEvents, favoriteOf.
      cbn [favorites favoriteEvents fav_id]. rewrite Hfav1.
      unfold dropped, set_favorites. cbn [favorites]. apply set_eq. intros x.
      rewrite elem_of_union, elem_of_difference, elem_of_singleton.
      destruct (decide (x = arg_id event)) as [->|Hne]; tauto.
    + unfold pushed, set_favorites, set_favoriteEvents.
      cbn [favorites favoriteEvents]. rewrite Hev1. reflexivity.
  - change (arg_id event) with (fav_id (favoriteOf pf1 event start end_)) in Hw2 at 1.
    change (arg_id event) with (fav_id (favoriteOf pf1 event start end_)) at 1.
    rewrite has_pushed in Hw2 |- *. subst w2. split; [reflexivity|].
    apply has_false in Eh. split.
    + unfold pushed, dropped, set_favorites, set_favoriteEvents, favoriteOf.
      cbn [favorites favoriteEvents fav_id]. rewrite Hfav1.
      unfold pushed, set_favorites. cbn [favorites favoriteOf fav_id].
      apply set_eq. intros x.
      rewrite elem_of_difference, elem_of_union, elem_of_singleton.
      destruct (decide (x = arg_id event)) as [->|Hne]; tauto.
    + unfold dropped, set_favorites, set_favoriteEvents.
      cbn [favorites favoriteEvents]. rewrite Hev1.
      unfold pushed, set_favorites, set_favoriteEvents. cbn [favoriteEvents].
      rewrite List.filter_app. cbn [List.filter favoriteOf fav_id].
      rewrite String.eqb_refl. cbn [negb]. rewrite app_nil_r.
      apply filter_absent. rewrite <- Hc. exact Eh.
Qed.

(** What a new service loads. *)
Lemma initialize_new pf stored :
  favoriteEvents (snd (initialize pf (new_FavoritesService stored)))
  = match getItem_rejects pf, stored with
    | None, Some text =>
        if isEmpty text then []
        else match JSON_parse pf text with
             | Ok parsed => parsed
             | Throw _ => []
             end
    | _, _ => []
    end.
Proof.
  unfold initialize, new_FavoritesService, bind, get, try_catch, AsyncStorage_getItem,
    throw, ret, modify, lift. cbn [isInitialized storage].
  destruct (getItem_rejects pf) as [msg|]; [reflexivity|]. cbn.
  destruct stored as [text|]; [|reflexivity].
  destruct (isEmpty text); [reflexivity|].
  destruct (JSON_parse pf text); reflexivity.
Qed.

Lemma addFavorite_outcome_witness :
  fst (isFavorite (phone None) "e1_2025-08-27T10:00:00Z"
         (snd (addFavorite (phone (Some "The disk is full")) sunsetYoga_arg
                 (new_FavoritesService None))))
  = Ok true
  /\ fst (addFavorite (phone (Some "The disk is full")) sunsetYoga_arg
            (new_FavoritesService None))
     = Throw "Failed to save favorites".
Proof.
  destruct (addFavorite_outcome (phone (Some "The disk is full")) (phone None)
              sunsetYoga_arg 1756288800000 1756292400000
              (new_FavoritesService None) eq_refl eq_refl)
    as (Hfav & _ & Hthrow & _).
  split; [exact Hfav|]. apply Hthrow. split; [reflexivity | discriminate].
Defined.

Lemma toggleFavorite_twice_witness :
  has "e1_2025-08-27T10:00:00Z"
    (favorites (snd (toggleFavorite (phone None) sunsetYoga_arg
                       (session [] (new_FavoritesService None)))))
  = negb (has "e1_2025-08-27T10:00:00Z"
            (favorites (snd (initialize (phone None)
                               (session [] (new_FavoritesService None)))))).
Proof.
  exact (proj1 (toggleFavorite_twice None [] (phone None) (phone None)
                  sunsetYoga_arg 1756288800000 1756292400000 eq_refl eq_refl)).
Defined.
End FavoritesFacts.

Module FavoritesFilter.
Import FavoritesService FavoritesFacts.

(** X30. The favourites filter of a pass that
    reads its ids from the favourites service, in any state a new service
    reaches: reading the ids does not throw, and every event of the result
    carries the id of a favourite of the list; straight after the start,
    when the storage cannot be read, holds nothing or the empty text, or
    holds a text that does not parse, the result is empty. *)
Theorem favorites_filter_of_service (env : Env) (pf : Platform)
    (stored : option string) (calls : list (Platform * Call))
    (p : SearchParams) (out : list ProcessedEvent) :
  let w := session calls (new_FavoritesService stored) in
  sp_showOnlyFavorites p = Some true ->
  processEvents (withFavorites env (fst (getFavoriteIds pf w))) p = Ok out ->
  returns (fst (getFavoriteIds pf w))
  /\ (forall pe, In pe out ->
        exists fav, In fav (favoriteEvents (snd (getFavoriteIds pf w)))
                    /\ fav_id fav = pe_id pe)
  /\ (calls = [] ->
      getItem_rejects pf <> None \/ stored = None \/ stored = Some ""
      \/ (exists text, stored = Some text /\ throws (JSON_parse pf text)) ->
      out = []).
Proof.
  intros w Hp H.
  destruct (session_initialized_consistent pf stored calls) as (E & Hi & Hc).
  fold w in E, Hi, Hc. set (w0 := snd (initialize pf w)) in *.
  assert (Eg : getFavoriteIds pf w = (Ok (favorites w0), w0))
    by exact (reader_state pf favorites w w0 E).
  rewrite Eg in *. cbn [fst snd] in *.
  destruct (emitted_favorite_ids _ _ _ H Hp) as (ids & Hids & Hin).
  cbn [withFavorites getFavoriteIds] in Hids. injection Hids as <-.
  assert (Hfav : forall pe, In pe out ->
            exists fav, In fav (favoriteEvents w0) /\ fav_id fav = pe_id pe).
  { intros pe Hpe. specialize (Hin pe Hpe). rewrite Hc in Hin. unfold idsOf in Hin.
    rewrite elem_of_list_to_set, list_elem_of_In, in_map_iff in Hin.
    destruct Hin as (fav & H1 & H2). exists fav. auto. }
  split; [eexists; reflexivity|]. split; [exact Hfav|].
  intros -> Hempty.
  assert (Hnil : favoriteEvents w0 = []).
  { unfold w0, w, session. cbn [fold_left]. rewrite initialize_new.
    destruct (getItem_rejects pf) as [msg|]; [reflexivity|].
    destruct Hempty as [Hn | [-> | [-> | (text & -> & msg & Hthrow)]]];
      [contradiction | reflexivity | reflexivity |].
    destruct (isEmpty text); [reflexivity|]. rewrite Hthrow. reflexivity. }
  destruct out as [|pe out]; [reflexivity|].
  destruct (Hfav pe (or_introl eq_refl)) as (fav & Hf & _).
  rewrite Hnil in Hf. destruct Hf.
Qed.

Lemma favorites_filter_of_service_witness :
  exists fav,
    In fav (favoriteEvents
              (snd (getFavoriteIds (phone None)
                      (session [(phone None, call_addFavorite sunsetYoga_arg)]
                         (new_FavoritesService None)))))
    /\ fav_id fav = pe_id sunsetYoga_processed.
Proof.
  assert (Hrun :
    processEvents
      (withFavorites (Scenario.device [sunsetYoga] ∅ ∅ ∅ 0)
         (fst (getFavoriteIds (phone None)
                 (session [(phone None, call_addFavorite sunsetYoga_arg)]
                    (new_FavoritesService None)))))
      (favoritesOnly "2025-08-27T09:50:00Z")
    = Ok [sunsetYoga_processed]) by (vm_compute; reflexivity).
  destruct (favorites_filter_of_service (Scenario.device [sunsetYoga] ∅ ∅ ∅ 0)
              (phone None) None [(phone None, call_addFavorite sunsetYoga_arg)]
              (favoritesOnly "2025-08-27T09:50:00Z") [sunsetYoga_processed]
              eq_refl Hrun) as (_ & Hin & _).
  apply (Hin sunsetYoga_processed). left. reflexivity.
Defined.
End FavoritesFilter.

